(** * bunnyhop: the connection pool and its supervision loop

    A shallow embedding of [pool.go], of the part of [client.go] the pool
    calls ([NewClient], [Connect], [IsConnected], [Close]) and of
    [getDefaultConfig], followed by the properties of the pool.

    Conventions of the embedding.
    - Go's [int] and [int64] are 64-bit two's-complement integers: they are
      modelled as [Z] and every addition the code performs is followed by
      [wrap64].  [time.Duration] is an [int64] count of nanoseconds.
    - A [*NodeConnection] is the index of the node in [p.nodes]; the node
      list is allocated once by [NewPool] and never resized.
    - Every exported method runs under the pool lock and the node locks; one
      call is one atomic step of the model, and background goroutines and
      timers are recorded as effects that a scheduler runs later.
    - The results of [amqp.Dial], [time.Now] and [rand.Intn] are inputs of
      the functions that use them. *)

From Stdlib Require Import ZArith Lia.
From stdpp Require Import base list strings.

Local Open Scope string_scope.
Local Open Scope Z_scope.

(** ** Machine integers *)

Module Int64.

Definition MaxInt64 : Z := 2 ^ 63 - 1.
Definition MinInt64 : Z := - 2 ^ 63.

(** Two's-complement wrap-around of a 64-bit signed integer. *)
Definition wrap64 (z : Z) : Z := (z + 2 ^ 63) mod 2 ^ 64 - 2 ^ 63.

(** [atomic.AddInt64(&x, d)] and [x += d]: the new value. *)
Definition add64 (x d : Z) : Z := wrap64 (x + d).

End Int64.
Export Int64.

(** [time.Second], in nanoseconds. *)
Definition Second : Z := 1000000000.

(** ** Errors, results and panics *)

(** A Go [error] is identified with its message; [nil] is [None]. *)
Definition error := string.

(** What a call does: it returns a value, returns an error, or panics. *)
Inductive result (A : Type) : Type :=
  | Ok (a : A)
  | Err (e : error)
  | Panic (msg : string).
Arguments Ok {A} a.
Arguments Err {A} e.
Arguments Panic {A} msg.

(** [fmt.Sprintf("%v", errs)] for [errs []error]: the messages separated by
    one space, between square brackets. *)
Fixpoint join_space (es : list error) : string :=
  match es with
  | [] => ""
  | [e] => e
  | e :: rest => e ++ " " ++ join_space rest
  end.

Definition fmt_errs (es : list error) : string := "[" ++ join_space es ++ "]".

(** [fmt.Sprintf("%v", err)] for [err error]. *)
Definition fmt_err (e : option error) : string :=
  match e with Some m => m | None => "<nil>" end.

(** ** Logger (logger.go, types.go) *)

Inductive Logger : Type :=
  | DefaultLogger (debugEnabled : bool)
  | CustomLogger (id : nat).

Definition NewDefaultLogger (debugEnabled : bool) : Logger :=
  DefaultLogger debugEnabled.

(** ** The single-connection client (client.go) *)

Module Facade.

(** The [amqp.Connection] and [amqp.Channel] objects, as far as the client
    observes them: whether the connection reports closed, and what their
    [Close] returns. *)
Record Connection : Type := mkConnection {
  IsClosed : bool;
  connCloseErr : option error
}.

Record Channel : Type := mkChannel {
  chanCloseErr : option error
}.

Record Config : Type := mkConfig {
  URLs : list string;
  ReconnectInterval : Z;
  MaxReconnectAttempt : Z;
  DebugLog : bool;
  Logger_ : option Logger
}.

Record Client : Type := mkClient {
  config : Config;
  connection : option Connection;
  channel : option Channel;
  connected : bool;
  reconnectAttempts : Z;
  cancelled : bool
}.

Definition NewClient (cfg : Config) : Client :=
  let ri := if ReconnectInterval cfg =? 0 then 5 * Second
            else ReconnectInterval cfg in
  let mra := if MaxReconnectAttempt cfg =? 0 then 10
             else MaxReconnectAttempt cfg in
  let lg := match Logger_ cfg with
            | None => Some (NewDefaultLogger (DebugLog cfg))
            | Some l => Some l
            end in
  {| config := {| URLs := URLs cfg; ReconnectInterval := ri;
                  MaxReconnectAttempt := mra; DebugLog := DebugLog cfg;
                  Logger_ := lg |};
     connection := None; channel := None; connected := false;
     reconnectAttempts := 0; cancelled := false |}.

(** What the broker answers to one [connectToURL]: the step that fails, or
    the connection and channel obtained. *)
Inductive Attempt : Type :=
  | DialError (e : error)
  | ChannelError (e : error)
  | QosError (e : error)
  | Established (conn : Connection) (ch : Channel).

Definition connectToURL (a : Attempt) (c : Client) : option error * Client :=
  match a with
  | DialError e => (Some ("failed to dial: " ++ e), c)
  | ChannelError e => (Some ("failed to open channel: " ++ e), c)
  | QosError e => (Some ("failed to set QoS: " ++ e), c)
  | Established conn ch =>
      (None, {| config := config c; connection := Some conn;
                channel := Some ch; connected := true;
                reconnectAttempts := 0; cancelled := cancelled c |})
  end.

(** The loop of [Connect] over the configured URLs.  The context argument
    of [Connect] is never read by the code, so it is not a parameter. *)
Fixpoint connectLoop (dial : string -> Attempt) (urls : list string)
    (lastErr : option error) (c : Client) : option error * Client :=
  match urls with
  | [] => (Some ("failed to connect to any RabbitMQ server: "
                 ++ fmt_err lastErr), c)
  | url :: rest =>
      match connectToURL (dial url) c with
      | (Some e, c') => connectLoop dial rest (Some e) c'
      | (None, c') => (None, c')
      end
  end.

Definition Connect (dial : string -> Attempt) (c : Client)
    : option error * Client :=
  if connected c then (None, c)
  else connectLoop dial (URLs (config c)) None c.

Definition IsConnected (c : Client) : bool :=
  connected c &&
  match connection c with
  | Some conn => negb (IsClosed conn)
  | None => false
  end.

Definition Close (c : Client) : option error * Client :=
  let errs1 := match channel c with
               | Some ch => match chanCloseErr ch with
                            | Some e => ["failed to close channel: " ++ e]
                            | None => []
                            end
               | None => []
               end in
  let errs2 := match connection c with
               | Some conn => match connCloseErr conn with
                              | Some e => ["failed to close connection: " ++ e]
                              | None => []
                              end
               | None => []
               end in
  let errs := (errs1 ++ errs2)%list in
  let c' := {| config := config c; connection := None; channel := None;
               connected := false; reconnectAttempts := reconnectAttempts c;
               cancelled := true |} in
  (if (0 <? length errs)%nat
   then Some ("errors during close: " ++ fmt_errs errs) else None, c').

(** Background work a client starts, and the calls by which it closes the
    connection objects it drops. *)
Inductive ClientEffect : Type :=
  | GoReconnectWorker
  | GoReconnect
  | AfterFuncReconnect (d : Z)
  | CloseConnection (conn : Connection)
  | CloseChannel (ch : Channel).

Definition handleDisconnection (c : Client) : Client * list ClientEffect :=
  ({| config := config c; connection := connection c; channel := channel c;
      connected := false; reconnectAttempts := reconnectAttempts c;
      cancelled := cancelled c |},
   [GoReconnect]).

(** What the [select] of [reconnectWorker] receives: cancellation, or a
    value from one of the two [NotifyClose] channels ([None] is nil). *)
Inductive WorkerEvent : Type :=
  | ctxDoneEvent
  | connectionErrorEvent (err : option error)
  | channelErrorEvent (err : option error).

(** One iteration of the loop of [reconnectWorker]; the boolean says
    whether the loop goes on. *)
Definition reconnectWorker (ev : WorkerEvent) (c : Client)
    : Client * list ClientEffect * bool :=
  match ev with
  | ctxDoneEvent => (c, [], false)
  | connectionErrorEvent (Some _) | channelErrorEvent (Some _) =>
      let '(c', effs) := handleDisconnection c in (c', effs, true)
  | connectionErrorEvent None | channelErrorEvent None => (c, [], true)
  end.

(** [reconnect].  The effects of the [Connect] it calls are included: a
    successful [connectToURL] starts a [reconnectWorker]. *)
Definition reconnect (dial : string -> Attempt) (c : Client)
    : Client * list ClientEffect :=
  if connected c then (c, [])
  else
    let attempts := add64 (reconnectAttempts c) 1 in
    if MaxReconnectAttempt (config c) <? attempts
    then ({| config := config c; connection := connection c;
             channel := channel c; connected := connected c;
             reconnectAttempts := attempts; cancelled := cancelled c |}, [])
    else
      let closes :=
        (match connection c with
         | Some conn => [CloseConnection conn]
         | None => []
         end ++
         match channel c with
         | Some ch => [CloseChannel ch]
         | None => []
         end)%list in
      let c1 := {| config := config c; connection := None; channel := None;
                   connected := connected c; reconnectAttempts := attempts;
                   cancelled := cancelled c |} in
      match Connect dial c1 with
      | (Some _, c2) =>
          (c2, (closes
                ++ [AfterFuncReconnect (ReconnectInterval (config c))])%list)
      | (None, c2) => (c2, (closes ++ [GoReconnectWorker])%list)
      end.

(** [GetConnection].  On a nil [*amqp.Connection] the call of [IsClosed]
    dereferences the nil pointer. *)
Definition GetConnection (c : Client) : result Connection :=
  if negb (connected c) then Err "client is not connected"
  else match connection c with
       | Some _ => Err "client is not connected"
       | None => Panic "nil pointer dereference"
       end.

End Facade.

(** ** Types of the pool (types.go) *)

(** [type LoadBalanceStrategy int], with its four constants. *)
Definition LoadBalanceStrategy := Z.
Definition RoundRobin : LoadBalanceStrategy := 0.
Definition Random : LoadBalanceStrategy := 1.
Definition LeastUsed : LoadBalanceStrategy := 2.
Definition WeightedRoundRobin : LoadBalanceStrategy := 3.

Record PoolConfig : Type := mkPoolConfig {
  URLs : list string;
  ReconnectInterval : Z;
  MaxReconnectAttempt : Z;
  HealthCheckInterval : Z;
  LoadBalanceStrategy_ : LoadBalanceStrategy;
  DebugLog : bool;
  Logger_ : option Logger
}.

(** [NodeConnection]; its mutex is the atomicity of the model's steps, and
    [lastUsed] is a clock reading. *)
Record NodeConnection : Type := mkNode {
  URL : string;
  Client : option Facade.Client;
  healthy : bool;
  weight : Z;
  lastUsed : Z;
  totalUsed : Z;
  failures : Z;
  connecting : bool
}.

Module Stats.

(** [LastUsed] is the clock reading that the code prints in RFC 3339. *)
Record NodeStats : Type := mkNodeStats {
  URL : string;
  Healthy : bool;
  Connected : bool;
  TotalUsed : Z;
  Failures : Z;
  Weight : Z;
  LastUsed : Z
}.

Record PoolStats : Type := mkPoolStats {
  TotalNodes : Z;
  HealthyNodes : Z;
  TotalRequests : Z;
  TotalFailures : Z;
  NodesStats : list NodeStats
}.

End Stats.

(** [time.Ticker]: its period and whether [Stop] was called. *)
Record Ticker : Type := mkTicker {
  period : Z;
  stopped : bool
}.

(** [Pool].  [ctxDone] says whether [p.ctx] is cancelled and [hasCancel]
    whether [p.cancel] is non-nil; the logger is [Logger_ (config p)]. *)
Record Pool : Type := mkPool {
  config : PoolConfig;
  nodes : list NodeConnection;
  closed : bool;
  roundRobin : Z;
  ctxDone : bool;
  hasCancel : bool;
  healthTicker : option Ticker;
  totalRequests : Z;
  totalFailures : Z
}.

(** Background work the pool starts: goroutines and one-shot timers; and
    the call that closes a client the pool drops. *)
Inductive Task : Type :=
  | connectToNodeTask (node : nat)
  | watchNodeConnectionTask (node : nat)
  | checkNodeHealthTask (node : nat)
  | healthCheckWorkerTask.

Inductive Effect : Type :=
  | Go (t : Task)
  | AfterFunc (d : Z) (t : Task)
  | CloseClient (c : Facade.Client).

(** ** Field updates *)

Definition set_nodes (ns : list NodeConnection) (p : Pool) : Pool :=
  {| config := config p; nodes := ns; closed := closed p;
     roundRobin := roundRobin p; ctxDone := ctxDone p;
     hasCancel := hasCancel p; healthTicker := healthTicker p;
     totalRequests := totalRequests p; totalFailures := totalFailures p |}.

Definition set_roundRobin (c : Z) (p : Pool) : Pool :=
  {| config := config p; nodes := nodes p; closed := closed p;
     roundRobin := c; ctxDone := ctxDone p;
     hasCancel := hasCancel p; healthTicker := healthTicker p;
     totalRequests := totalRequests p; totalFailures := totalFailures p |}.

Definition set_totalRequests (c : Z) (p : Pool) : Pool :=
  {| config := config p; nodes := nodes p; closed := closed p;
     roundRobin := roundRobin p; ctxDone := ctxDone p;
     hasCancel := hasCancel p; healthTicker := healthTicker p;
     totalRequests := c; totalFailures := totalFailures p |}.

Definition set_totalFailures (c : Z) (p : Pool) : Pool :=
  {| config := config p; nodes := nodes p; closed := closed p;
     roundRobin := roundRobin p; ctxDone := ctxDone p;
     hasCancel := hasCancel p; healthTicker := healthTicker p;
     totalRequests := totalRequests p; totalFailures := c |}.

Definition set_healthTicker (t : option Ticker) (p : Pool) : Pool :=
  {| config := config p; nodes := nodes p; closed := closed p;
     roundRobin := roundRobin p; ctxDone := ctxDone p;
     hasCancel := hasCancel p; healthTicker := t;
     totalRequests := totalRequests p; totalFailures := totalFailures p |}.

Definition set_healthy (b : bool) (n : NodeConnection) : NodeConnection :=
  {| URL := URL n; Client := Client n; healthy := b; weight := weight n;
     lastUsed := lastUsed n; totalUsed := totalUsed n;
     failures := failures n; connecting := connecting n |}.

Definition set_weight (w : Z) (n : NodeConnection) : NodeConnection :=
  {| URL := URL n; Client := Client n; healthy := healthy n; weight := w;
     lastUsed := lastUsed n; totalUsed := totalUsed n;
     failures := failures n; connecting := connecting n |}.

Definition set_Client (c : option Facade.Client) (n : NodeConnection)
    : NodeConnection :=
  {| URL := URL n; Client := c; healthy := healthy n; weight := weight n;
     lastUsed := lastUsed n; totalUsed := totalUsed n;
     failures := failures n; connecting := connecting n |}.

Definition set_failures (f : Z) (n : NodeConnection) : NodeConnection :=
  {| URL := URL n; Client := Client n; healthy := healthy n;
     weight := weight n; lastUsed := lastUsed n; totalUsed := totalUsed n;
     failures := f; connecting := connecting n |}.

Definition set_connecting (b : bool) (n : NodeConnection) : NodeConnection :=
  {| URL := URL n; Client := Client n; healthy := healthy n;
     weight := weight n; lastUsed := lastUsed n; totalUsed := totalUsed n;
     failures := failures n; connecting := b |}.

(** The two writes of [GetClient] to the selected node. *)
Definition mark_used (now : Z) (n : NodeConnection) : NodeConnection :=
  {| URL := URL n; Client := Client n; healthy := healthy n;
     weight := weight n; lastUsed := now;
     totalUsed := add64 (totalUsed n) 1;
     failures := failures n; connecting := connecting n |}.

(** ** Configuration defaults *)

(** [getDefaultConfig] as in the source file that sets a default for
    [MaxReconnectAttempt].  [NewPool] passes the address of its own copy of
    the configuration, so the [config == nil] branch is not taken and the
    function is a map on configurations. *)
Definition getDefaultConfig (c : PoolConfig) : PoolConfig :=
  let ri := if ReconnectInterval c =? 0 then 5 * Second
            else ReconnectInterval c in
  let mra := if MaxReconnectAttempt c =? 0 then 10
             else MaxReconnectAttempt c in
  let hci := if HealthCheckInterval c =? 0 then 30 * Second
             else HealthCheckInterval c in
  let urls := if (length (URLs c) =? 0)%nat then ["amqp://localhost:5672"]
              else URLs c in
  let lg := match Logger_ c with
            | None => Some (NewDefaultLogger (DebugLog c))
            | Some l => Some l
            end in
  {| URLs := urls; ReconnectInterval := ri; MaxReconnectAttempt := mra;
     HealthCheckInterval := hci; LoadBalanceStrategy_ := LoadBalanceStrategy_ c;
     DebugLog := DebugLog c; Logger_ := lg |}.

(** The second [getDefaultConfig] of the sources: another reconnect
    interval, and no default for [MaxReconnectAttempt]. *)
Definition getDefaultConfig_30s (c : PoolConfig) : PoolConfig :=
  let ri := if ReconnectInterval c =? 0 then 30 * Second
            else ReconnectInterval c in
  let hci := if HealthCheckInterval c =? 0 then 30 * Second
             else HealthCheckInterval c in
  let urls := if (length (URLs c) =? 0)%nat then ["amqp://localhost:5672"]
              else URLs c in
  let lg := match Logger_ c with
            | None => Some (NewDefaultLogger (DebugLog c))
            | Some l => Some l
            end in
  {| URLs := urls; ReconnectInterval := ri;
     MaxReconnectAttempt := MaxReconnectAttempt c;
     HealthCheckInterval := hci; LoadBalanceStrategy_ := LoadBalanceStrategy_ c;
     DebugLog := DebugLog c; Logger_ := lg |}.

(** ** Pool lifecycle *)

(** The node [NewPool] allocates for one URL. *)
Definition newNode (now : Z) (url : string) : NodeConnection :=
  {| URL := url; Client := None; healthy := false; weight := 1;
     lastUsed := now; totalUsed := 0; failures := 0; connecting := false |}.

(** [NewPool], for a given [getDefaultConfig]. *)
Definition NewPoolWith (defaults : PoolConfig -> PoolConfig) (now : Z)
    (cfg : PoolConfig) : Pool :=
  let cfg' := defaults cfg in
  {| config := cfg'; nodes := map (newNode now) (URLs cfg');
     closed := false; roundRobin := 0; ctxDone := false; hasCancel := true;
     healthTicker := None; totalRequests := 0; totalFailures := 0 |}.

Definition NewPool (now : Z) (cfg : PoolConfig) : Pool :=
  NewPoolWith getDefaultConfig now cfg.

(** [Start]: one connector goroutine per node, then the ticker and the
    health worker.  [time.NewTicker] panics on a non-positive period. *)
Definition Start (p : Pool) : result unit * Pool * list Effect :=
  if closed p then (Err "pool is closed", p, [])
  else
    let gos := map (fun i => Go (connectToNodeTask i))
                   (seq 0 (length (nodes p))) in
    if HealthCheckInterval (config p) <=? 0
    then (Panic "non-positive interval for NewTicker", p, gos)
    else
      (Ok tt,
       set_healthTicker
         (Some {| period := HealthCheckInterval (config p);
                  stopped := false |}) p,
       (gos ++ [Go healthCheckWorkerTask])%list).

(** ** Connector *)

(** The client [connectToNode] builds for a node. *)
Definition nodeClient (p : Pool) (n : NodeConnection) : Facade.Client :=
  Facade.NewClient
    {| Facade.URLs := [URL n];
       Facade.ReconnectInterval := ReconnectInterval (config p);
       Facade.MaxReconnectAttempt := MaxReconnectAttempt (config p);
       Facade.DebugLog := DebugLog (config p);
       Facade.Logger_ := Logger_ (config p) |}.

(** [connectToNode].  The whole body runs under the node's write lock, and
    the deferred function resets [connecting] on both exits that follow
    the guard.  An index that is not a node of the pool does not occur in
    the code; the model does nothing there. *)
Definition connectToNode (dial : string -> Facade.Attempt) (i : nat)
    (p : Pool) : Pool * list Effect :=
  match nodes p !! i with
  | None => (p, [])
  | Some n =>
      if connecting n then (p, [])
      else
        match Facade.Connect dial (nodeClient p n) with
        | (Some _, _) =>
            let n' := set_connecting false
                        (set_healthy false
                           (set_failures (add64 (failures n) 1) n)) in
            (set_nodes (<[i := n']> (nodes p)) p,
             [AfterFunc (ReconnectInterval (config p)) (connectToNodeTask i)])
        | (None, client) =>
            let n' := set_connecting false
                        (set_healthy true (set_Client (Some client) n)) in
            (set_nodes (<[i := n']> (nodes p)) p,
             (match Client n with
              | Some old => [CloseClient old]
              | None => []
              end ++ [Go (watchNodeConnectionTask i)])%list)
        end
  end.

(** ** Liveness watcher *)


(** Which case a [select] takes. *)
Inductive SelectCase : Type := ctxDoneCase | tickerCase.

(** Whether a [for] loop goes on or the function returns. *)
Inductive Loop : Type := Continue | Return.



(** One iteration of the loop of [watchNodeConnection]. *)
Definition watchNodeConnection (ev : SelectCase) (i : nat) (p : Pool)
    : Pool * list Effect * Loop :=
  match ev with
  | ctxDoneCase => (p, [], Return)
  | tickerCase =>
      match nodes p !! i with
      | None => (p, [], Return)
      | Some n =>
          match Client n with
          | Some c =>
              if negb (Facade.IsConnected c)
              then (set_nodes (<[i := set_healthy false n]> (nodes p)) p,
                    [Go (connectToNodeTask i)], Return)
              else (p, [], Continue)
          | None => (p, [], Continue)
          end
      end
  end.

(** ** Health prober *)

Definition performHealthCheck (p : Pool) : list Effect :=
  map (fun i => Go (checkNodeHealthTask i)) (seq 0 (length (nodes p))).

(** One iteration of the loop of [healthCheckWorker]. *)
Definition healthCheckWorker (ev : SelectCase) (p : Pool)
    : list Effect * Loop :=
  match ev with
  | ctxDoneCase => ([], Return)
  | tickerCase => (performHealthCheck p, Continue)
  end.

Definition checkNodeHealth (i : nat) (p : Pool) : Pool * list Effect :=
  match nodes p !! i with
  | None => (p, [])
  | Some n =>
      match Client n with
      | None =>
          (set_nodes (<[i := set_healthy false n]> (nodes p)) p,
           [Go (connectToNodeTask i)])
      | Some c =>
          if negb (Facade.IsConnected c)
          then (set_nodes (<[i := set_healthy false n]> (nodes p)) p,
                [Go (connectToNodeTask i)])
          else if negb (healthy n)
          then (set_nodes (<[i := set_healthy true n]> (nodes p)) p, [])
          else (p, [])
      end
  end.

(** ** Selector *)

(** [node.Client != nil && node.Client.IsConnected()]. *)
Definition clientConnected (n : NodeConnection) : bool :=
  match Client n with
  | Some c => Facade.IsConnected c
  | None => false
  end.

(** The condition of [getHealthyNodes] and of [GetHealthyNodeCount]. *)
Definition nodeIsHealthy (n : NodeConnection) : bool :=
  healthy n && clientConnected n.

(** The loop of [getHealthyNodes] from index [i] on: each healthy node, as
    its index in [p.nodes] with the node it points to. *)
Fixpoint healthyFrom (i : nat) (ns : list NodeConnection)
    : list (nat * NodeConnection) :=
  match ns with
  | [] => []
  | n :: rest =>
      if nodeIsHealthy n then (i, n) :: healthyFrom (S i) rest
      else healthyFrom (S i) rest
  end.

Definition getHealthyNodes (p : Pool) : list (nat * NodeConnection) :=
  healthyFrom 0%nat (nodes p).

Definition errNoHealthyNodes : error := "no healthy nodes available".
Definition errPoolClosed : error := "pool is closed".

(** [rand.Intn(n)] on the value [src] of the random source: it panics
    unless [0 < n], and every value of the half-open interval is drawn for
    some [src]. *)
Definition Intn (src : Z) (n : Z) : result Z :=
  if n <=? 0 then Panic "invalid argument to Intn"
  else Ok (src mod n).

(** [healthyNodes[index]] for an [int] index. *)
Definition index_at {A : Type} (l : list A) (index : Z) : result A :=
  if index <? 0 then Panic "index out of range"
  else match l !! Z.to_nat index with
       | Some a => Ok a
       | None => Panic "index out of range"
       end.

(** The selectors return the chosen node, [None] for a nil pointer. *)
Definition getClientRoundRobin (p : Pool) : result (option nat) * Pool :=
  let healthyNodes := getHealthyNodes p in
  if (length healthyNodes =? 0)%nat then (Err errNoHealthyNodes, p)
  else
    let c := add64 (roundRobin p) 1 in
    let index := Z.rem c (Z.of_nat (length healthyNodes)) in
    match index_at healthyNodes index with
    | Ok (i, _) => (Ok (Some i), set_roundRobin c p)
    | Err e => (Err e, set_roundRobin c p)
    | Panic m => (Panic m, set_roundRobin c p)
    end.

Definition getClientRandom (src : Z) (p : Pool)
    : result (option nat) * Pool :=
  let healthyNodes := getHealthyNodes p in
  if (length healthyNodes =? 0)%nat then (Err errNoHealthyNodes, p)
  else
    match Intn src (Z.of_nat (length healthyNodes)) with
    | Ok index =>
        match index_at healthyNodes index with
        | Ok (i, _) => (Ok (Some i), p)
        | Err e => (Err e, p)
        | Panic m => (Panic m, p)
        end
    | Err e => (Err e, p)
    | Panic m => (Panic m, p)
    end.

(** The scan of [getClientLeastUsed]. *)
Fixpoint leastUsedLoop (hs : list (nat * NodeConnection)) (minUsed : Z)
    (selectedNode : option nat) : option nat :=
  match hs with
  | [] => selectedNode
  | (i, n) :: rest =>
      if totalUsed n <? minUsed
      then leastUsedLoop rest (totalUsed n) (Some i)
      else leastUsedLoop rest minUsed selectedNode
  end.

Definition getClientLeastUsed (p : Pool) : result (option nat) * Pool :=
  let healthyNodes := getHealthyNodes p in
  if (length healthyNodes =? 0)%nat then (Err errNoHealthyNodes, p)
  else (Ok (leastUsedLoop healthyNodes MaxInt64 None), p).

(** [totalWeight], accumulated from [acc]. *)
Fixpoint sumWeights (hs : list (nat * NodeConnection)) (acc : Z) : Z :=
  match hs with
  | [] => acc
  | (_, n) :: rest => sumWeights rest (add64 acc (weight n))
  end.

(** The second loop of [getClientWeightedRoundRobin]: the first node whose
    running weight exceeds [randWeight], if the loop returns. *)
Fixpoint weightedLoop (hs : list (nat * NodeConnection)) (randWeight : Z)
    (currentWeight : Z) : option nat :=
  match hs with
  | [] => None
  | (i, n) :: rest =>
      let currentWeight' := add64 currentWeight (weight n) in
      if randWeight <? currentWeight' then Some i
      else weightedLoop rest randWeight currentWeight'
  end.

Definition getClientWeightedRoundRobin (src : Z) (p : Pool)
    : result (option nat) * Pool :=
  let healthyNodes := getHealthyNodes p in
  if (length healthyNodes =? 0)%nat then (Err errNoHealthyNodes, p)
  else
    let totalWeight := sumWeights healthyNodes 0 in
    if totalWeight =? 0 then getClientRoundRobin p
    else
      match Intn src totalWeight with
      | Ok randWeight =>
          match weightedLoop healthyNodes randWeight 0 with
          | Some i => (Ok (Some i), p)
          | None =>
              match index_at healthyNodes 0 with
              | Ok (i, _) => (Ok (Some i), p)
              | Err e => (Err e, p)
              | Panic m => (Panic m, p)
              end
          end
      | Err e => (Err e, p)
      | Panic m => (Panic m, p)
      end.

(** The inputs of one [GetClient]: the clock and the random source. *)
Record Env : Type := mkEnv {
  now : Z;
  src : Z
}.

(** The [switch] of [GetClient]. *)
Definition selectNode (env : Env) (p : Pool) : result (option nat) * Pool :=
  let s := LoadBalanceStrategy_ (config p) in
  if s =? RoundRobin then getClientRoundRobin p
  else if s =? Random then getClientRandom (src env) p
  else if s =? LeastUsed then getClientLeastUsed p
  else if s =? WeightedRoundRobin
  then getClientWeightedRoundRobin (src env) p
  else getClientRoundRobin p.

(** [GetClient].  A success is the returned [*Client] together with the
    index of the node it was read from. *)
Definition GetClient (env : Env) (p : Pool)
    : result (nat * option Facade.Client) * Pool :=
  let p1 := set_totalRequests (add64 (totalRequests p) 1) p in
  if closed p1 then (Err errPoolClosed, p1)
  else
    match selectNode env p1 with
    | (Err e, p2) =>
        (Err e, set_totalFailures (add64 (totalFailures p2) 1) p2)
    | (Panic m, p2) => (Panic m, p2)
    | (Ok None, p2) => (Panic "nil pointer dereference", p2)
    | (Ok (Some i), p2) =>
        match nodes p2 !! i with
        | None => (Panic "nil pointer dereference", p2)
        | Some n =>
            (Ok (i, Client n),
             set_nodes (<[i := mark_used (now env) n]> (nodes p2)) p2)
        end
    end.

(** ** Statistics *)

Definition nodeStat (n : NodeConnection) : Stats.NodeStats :=
  {| Stats.URL := URL n;
     Stats.Healthy := healthy n;
     Stats.Connected := clientConnected n;
     Stats.TotalUsed := totalUsed n;
     Stats.Failures := failures n;
     Stats.Weight := weight n;
     Stats.LastUsed := lastUsed n |}.

(** The loop of [GetStats]: [stats.HealthyNodes] and [stats.NodesStats].
    A count of nodes is at most [len(p.nodes)], which is an [int]; it is
    incremented without wrap-around. *)
Fixpoint statsLoop (ns : list NodeConnection) (healthyNodes : Z)
    (acc : list Stats.NodeStats) : Z * list Stats.NodeStats :=
  match ns with
  | [] => (healthyNodes, acc)
  | n :: rest =>
      let nodeStat := nodeStat n in
      statsLoop rest
        (if Stats.Healthy nodeStat then healthyNodes + 1 else healthyNodes)
        (acc ++ [nodeStat])%list
  end.

Definition GetStats (p : Pool) : Stats.PoolStats :=
  let '(h, l) := statsLoop (nodes p) 0 [] in
  {| Stats.TotalNodes := Z.of_nat (length (nodes p));
     Stats.HealthyNodes := h;
     Stats.TotalRequests := totalRequests p;
     Stats.TotalFailures := totalFailures p;
     Stats.NodesStats := l |}.

(** The loop of [GetHealthyNodeCount]. *)
Fixpoint countLoop (ns : list NodeConnection) (count : Z) : Z :=
  match ns with
  | [] => count
  | n :: rest =>
      countLoop rest (if nodeIsHealthy n then count + 1 else count)
  end.

Definition GetHealthyNodeCount (p : Pool) : Z := countLoop (nodes p) 0.

(** ** Close *)

(** The loop of [Close] over the nodes: the nodes after their clients were
    asked to close, and the errors collected. *)
Fixpoint closeLoop (ns : list NodeConnection) (errs : list error)
    : list NodeConnection * list error :=
  match ns with
  | [] => ([], errs)
  | n :: rest =>
      match Client n with
      | Some c =>
          let '(err, c') := Facade.Close c in
          let errs' :=
            match err with
            | Some e =>
                let msg := "failed to close node " ++ URL n ++ ": " ++ e in
                (errs ++ [msg])%list
            | None => errs
            end in
          let '(rest', out) := closeLoop rest errs' in
          (set_Client (Some c') n :: rest', out)
      | None =>
          let '(rest', out) := closeLoop rest errs in
          (n :: rest', out)
      end
  end.

Definition stopTicker (t : option Ticker) : option Ticker :=
  match t with
  | Some tk => Some {| period := period tk; stopped := true |}
  | None => None
  end.

Definition Close (p : Pool) : option error * Pool :=
  if closed p then (None, p)
  else
    let '(ns, errs) := closeLoop (nodes p) [] in
    let p' := {| config := config p; nodes := ns; closed := true;
                 roundRobin := roundRobin p;
                 ctxDone := if hasCancel p then true else ctxDone p;
                 hasCancel := hasCancel p;
                 healthTicker := stopTicker (healthTicker p);
                 totalRequests := totalRequests p;
                 totalFailures := totalFailures p |} in
    (if (0 <? length errs)%nat
     then Some ("errors during close: " ++ fmt_errs errs) else None, p').

(** ** SetNodeWeight *)

(** The loop of [SetNodeWeight]: the nodes with the weight of the first
    node named [url] replaced, or [None] when no node has that URL. *)
Fixpoint setWeightLoop (url : string) (w : Z) (ns : list NodeConnection)
    : option (list NodeConnection) :=
  match ns with
  | [] => None
  | n :: rest =>
      if String.eqb (URL n) url then Some (set_weight w n :: rest)
      else match setWeightLoop url w rest with
           | Some rest' => Some (n :: rest')
           | None => None
           end
  end.

Definition SetNodeWeight (url : string) (w : Z) (p : Pool)
    : option error * Pool :=
  match setWeightLoop url w (nodes p) with
  | Some ns => (None, set_nodes ns p)
  | None => (Some ("node not found: " ++ url), p)
  end.

(** * Vocabulary of the properties *)

(** The configuration in which every field is unset. *)
Definition unsetConfig : PoolConfig :=
  {| URLs := []; ReconnectInterval := 0; MaxReconnectAttempt := 0;
     HealthCheckInterval := 0; LoadBalanceStrategy_ := 0; DebugLog := false;
     Logger_ := None |}.

(** What [Close] leaves of a node: its client, if present, after
    [Client.Close]. *)
Definition closeNode (n : NodeConnection) : NodeConnection :=
  match Client n with
  | Some c => set_Client (Some (snd (Facade.Close c))) n
  | None => n
  end.

(** The error [Close] records for a node, if its client fails to close. *)
Definition nodeCloseError (n : NodeConnection) : option error :=
  match Client n with
  | Some c =>
      match fst (Facade.Close c) with
      | Some e => Some ("failed to close node " ++ URL n ++ ": " ++ e)
      | None => None
      end
  | None => None
  end.

(** [Close] called [k] more times: the last error returned and the pool. *)
Fixpoint CloseAgain (k : nat) (p : Pool) : option error * Pool :=
  match k with
  | O => Close p
  | S k' => CloseAgain k' (snd (Close p))
  end.

(** A client that was built and never connected. *)
Definition idleClient (url : string) : Facade.Client :=
  Facade.NewClient
    {| Facade.URLs := [url]; Facade.ReconnectInterval := 0;
       Facade.MaxReconnectAttempt := 0; Facade.DebugLog := false;
       Facade.Logger_ := None |}.

(** The weights of a list of healthy nodes, added as integers. *)
Fixpoint weightSum (hs : list (nat * NodeConnection)) : Z :=
  match hs with
  | [] => 0
  | (_, n) :: rest => weight n + weightSum rest
  end.

(** A client with an open connection; [chErr] is what closing its channel
    returns. *)
Definition liveClient (url : string) (chErr : option error)
    : Facade.Client :=
  {| Facade.config :=
       Facade.config (idleClient url);
     Facade.connection :=
       Some {| Facade.IsClosed := false; Facade.connCloseErr := None |};
     Facade.channel := Some {| Facade.chanCloseErr := chErr |};
     Facade.connected := true;
     Facade.reconnectAttempts := 0;
     Facade.cancelled := false |}.

(** A connected, healthy node with the given weight and usage count. *)
Definition liveNode (url : string) (w used : Z) : NodeConnection :=
  {| URL := url; Client := Some (liveClient url None); healthy := true;
     weight := w; lastUsed := 0; totalUsed := used; failures := 0;
     connecting := false |}.

(** A pool as [NewPool] builds it for the given strategy, with the given
    nodes. *)
Definition poolOf (s : LoadBalanceStrategy) (ns : list NodeConnection)
    : Pool :=
  {| config := getDefaultConfig
                 {| URLs := map URL ns; ReconnectInterval := 0;
                    MaxReconnectAttempt := 0; HealthCheckInterval := 0;
                    LoadBalanceStrategy_ := s; DebugLog := false;
                    Logger_ := None |};
     nodes := ns; closed := false; roundRobin := 0; ctxDone := false;
     hasCancel := true; healthTicker := None; totalRequests := 0;
     totalFailures := 0 |}.

(** A pool of one node as [NewPool] builds it: no client yet. *)
Definition freshPool : Pool :=
  NewPool 0 {| URLs := ["amqp://a"]; ReconnectInterval := 0;
               MaxReconnectAttempt := 0; HealthCheckInterval := 0;
               LoadBalanceStrategy_ := RoundRobin; DebugLog := false;
               Logger_ := None |}.

(** A client whose connection was dropped by the broker: the connection
    object reports closed. *)
Definition droppedClient (url : string) : Facade.Client :=
  {| Facade.config := Facade.config (idleClient url);
     Facade.connection :=
       Some {| Facade.IsClosed := true; Facade.connCloseErr := None |};
     Facade.channel := Some {| Facade.chanCloseErr := None |};
     Facade.connected := true;
     Facade.reconnectAttempts := 0;
     Facade.cancelled := false |}.

(** A node flagged healthy whose client has lost its connection. *)
Definition lostNode (url : string) : NodeConnection :=
  {| URL := url; Client := Some (droppedClient url); healthy := true;
     weight := 1; lastUsed := 0; totalUsed := 0; failures := 0;
     connecting := false |}.


(** The running weight of the weighted walk after the node at position
    [k] of the healthy set. *)
Definition running (hs : list (nat * NodeConnection)) (k : nat) : Z :=
  sumWeights (take (S k) hs) 0.

(** Three healthy nodes of weights 3, 0 and 2 under [WeightedRoundRobin]. *)
Definition weightedPool : Pool :=
  poolOf WeightedRoundRobin
    [liveNode "amqp://a" 3 0; liveNode "amqp://b" 0 0;
     liveNode "amqp://c" 2 0].

(** A started pool of three nodes: the first closes cleanly, the channel
    of the second fails to close, the third has no client. *)
Definition startedPool : Pool :=
  set_healthTicker (Some {| period := 30 * Second; stopped := false |})
    (poolOf RoundRobin
       [liveNode "amqp://a" 1 0;
        set_Client (Some (liveClient "amqp://b" (Some "EOF")))
                   (liveNode "amqp://b" 1 0);
        newNode 0 "amqp://c"]).

(** The round-robin counter can be incremented without becoming
    negative. *)
Definition counterReady (p : Pool) : Prop := 0 <= add64 (roundRobin p) 1.

(** The states in which the selector of the configured strategy returns:
    the round-robin counter has not wrapped; some healthy node has been
    used fewer than [MaxInt64] times; the total weight is not negative. *)
Definition selectorPrecondition (p : Pool) : Prop :=
  let s := LoadBalanceStrategy_ (config p) in
  let hs := getHealthyNodes p in
  if s =? Random then True
  else if s =? LeastUsed
  then Exists (fun h => totalUsed h.2 < MaxInt64) hs
  else if s =? WeightedRoundRobin
  then 0 <= sumWeights hs 0 /\ (sumWeights hs 0 = 0 -> counterReady p)
  else counterReady p.

(** What a selector may answer on a non-empty healthy set [hs]: a node of
    [hs], a nil pointer, or a panic; the pool is the same but for the
    round-robin counter. *)
Definition selectsFrom (hs : list (nat * NodeConnection)) (p : Pool)
    (out : result (option nat) * Pool) : Prop :=
  nodes out.2 = nodes p
  /\ totalRequests out.2 = totalRequests p
  /\ totalFailures out.2 = totalFailures p
  /\ match out.1 with
     | Ok (Some i) => exists n, (i, n) ∈ hs
     | Ok None => True
     | Err _ => False
     | Panic _ => True
     end.

(** Serial calls of [GetClient], one per element of [envs], with nothing
    else happening to the pool in between: the results in order, and the
    pool after the last call. *)
Fixpoint serial (envs : list Env) (p : Pool)
    : list (result (nat * option Facade.Client)) * Pool :=
  match envs with
  | [] => ([], p)
  | env :: rest =>
      let '(r, p1) := GetClient env p in
      let '(rs, p2) := serial rest p1 in
      (r :: rs, p2)
  end.

(** The node a call returned, if it returned one. *)
Definition returnedNode (r : result (nat * option Facade.Client))
    : option nat :=
  match r with
  | Ok (i, _) => Some i
  | _ => None
  end.

(** The call returned a client. *)
Definition isReturn (r : result (nat * option Facade.Client)) : Prop :=
  exists i c, r = Ok (i, c).

(** How many of the [n] integers after [a] are congruent to [k]
    modulo [N]. *)
Fixpoint hits (N k a : Z) (n : nat) : nat :=
  match n with
  | O => 0
  | S n' =>
      let rest := hits N k (a + 1) n' in
      if (a + 1) mod N =? k then S rest else rest
  end.

(** Three healthy nodes under [RoundRobin], and six calls. *)
Definition threePool : Pool :=
  poolOf RoundRobin
    [liveNode "amqp://a" 1 0; liveNode "amqp://b" 1 0;
     liveNode "amqp://c" 1 0].

Definition sixCalls : list Env :=
  map (fun t => {| now := t; src := 0 |}) [1; 2; 3; 4; 5; 6].

(** A broker that refuses every connection, and one that accepts. *)
Definition refusedDial (_ : string) : Facade.Attempt :=
  Facade.DialError "connection refused".

Definition acceptingDial (_ : string) : Facade.Attempt :=
  Facade.Established
    {| Facade.IsClosed := false; Facade.connCloseErr := None |}
    {| Facade.chanCloseErr := None |}.

(** A pool of one node that was started, failed its first connection
    attempt, which armed the reconnect timer, and was then closed. *)
Definition closedWithTimer : Pool :=
  let p1 := snd (fst (Start freshPool)) in
  let p2 := fst (connectToNode refusedDial 0 p1) in
  snd (Close p2).

(** The health checks that [performHealthCheck] starts for the nodes
    [js], run one after the other: the pool and what they start. *)
Fixpoint runChecks (js : list nat) (p : Pool) : Pool * list Effect :=
  match js with
  | [] => (p, [])
  | i :: rest =>
      let '(p1, e1) := checkNodeHealth i p in
      let '(p2, e2) := runChecks rest p1 in
      (p2, (e1 ++ e2)%list)
  end.

(** The node a health check leaves: its flag says whether its client is
    present and connected. *)
Definition checked (n : NodeConnection) : NodeConnection :=
  set_healthy (clientConnected n) n.

(** The connector a health check starts for node [i]. *)
Definition checkStarts (i : nat) (n : NodeConnection) : list Effect :=
  if clientConnected n then [] else [Go (connectToNodeTask i)].

(** Whether the effects of [reconnect] arm its timer. *)
Definition armsTimer (effs : list Facade.ClientEffect) : bool :=
  existsb (fun e => match e with
                    | Facade.AfterFuncReconnect _ => true
                    | _ => false
                    end) effs.

(** The chain of [reconnect] calls that the timer drives: [reconnect] runs,
    and runs again each time it arms its timer, at most [fuel] times.  The
    result is the client, the number of timers armed, and whether a timer
    is still pending when the fuel is spent. *)
Fixpoint reconnectChain (fuel : nat) (dial : string -> Facade.Attempt)
    (c : Facade.Client) : Facade.Client * nat * bool :=
  match fuel with
  | O => (c, 0%nat, true)
  | S fuel' =>
      let '(c', effs) := Facade.reconnect dial c in
      if armsTimer effs
      then let '(c'', n, pending) := reconnectChain fuel' dial c' in
           (c'', S n, pending)
      else (c', 0%nat, false)
  end.

(** The calls of a run that failed for want of a healthy node. *)
Definition isNoHealthy (r : result (nat * option Facade.Client)) : bool :=
  match r with
  | Err e => String.eqb e errNoHealthyNodes
  | _ => false
  end.

(** The difference between the largest and the smallest usage count of
    the nodes [hs] is at most [d]. *)
Definition spreadAtMost (d : Z) (hs : list (nat * NodeConnection)) : Prop :=
  forall x y, x ∈ hs -> y ∈ hs -> totalUsed x.2 - totalUsed y.2 <= d.

(** Two nodes that differ at most in their weight. *)
Definition sameButWeight (a b : NodeConnection) : Prop :=
  set_weight 0 a = set_weight 0 b.

(** The client [connectToNode] installs when the broker answers with the
    connection [conn] and the channel [ch]. *)
Definition connectedClient (p : Pool) (n : NodeConnection)
    (conn : Facade.Connection) (ch : Facade.Channel) : Facade.Client :=
  {| Facade.config := Facade.config (nodeClient p n);
     Facade.connection := Some conn;
     Facade.channel := Some ch;
     Facade.connected := true;
     Facade.reconnectAttempts := 0;
     Facade.cancelled := false |}.

(** The steps that change a pool: the calls of its methods, the runs of
    its background tasks, and what happens to the client of a node behind
    the pool's back, when its connection drops or its own worker
    reconnects it: the client of node [i] is then in some other state. *)
Inductive Op : Type :=
  | opStart
  | opClose
  | opGetClient (env : Env)
  | opSetNodeWeight (url : string) (w : Z)
  | opConnectToNode (dial : string -> Facade.Attempt) (i : nat)
  | opWatchNodeConnection (ev : SelectCase) (i : nat)
  | opCheckNodeHealth (i : nat)
  | opClientEvent (i : nat) (c' : Facade.Client).

Definition runOp (o : Op) (p : Pool) : Pool :=
  match o with
  | opStart => snd (fst (Start p))
  | opClose => snd (Close p)
  | opGetClient env => snd (GetClient env p)
  | opSetNodeWeight url w => snd (SetNodeWeight url w p)
  | opConnectToNode dial i => fst (connectToNode dial i p)
  | opWatchNodeConnection ev i => fst (fst (watchNodeConnection ev i p))
  | opCheckNodeHealth i => fst (checkNodeHealth i p)
  | opClientEvent i c' =>
      match nodes p !! i with
      | Some n =>
          match Client n with
          | Some _ => set_nodes (<[i := set_Client (Some c') n]> (nodes p)) p
          | None => p
          end
      | None => p
      end
  end.

(** The pool after the steps [os], taken in order. *)
Definition runOps (os : list Op) (p : Pool) : Pool :=
  foldl (fun q o => runOp o q) p os.

(** What holds of every node of a pool that has served [k] steps. *)
Definition nodeInv (k : Z) (n : NodeConnection) : Prop :=
  0 <= totalUsed n <= k /\ (healthy n = true -> is_Some (Client n)).

(** What holds of a pool that has served [k] steps. *)
Definition poolInv (k : Z) (p : Pool) : Prop :=
  URL <$> nodes p = URLs (config p)
  /\ 0 <= roundRobin p <= totalRequests p
  /\ 0 <= totalFailures p <= totalRequests p
  /\ totalRequests p <= k
  /\ Forall (nodeInv (totalRequests p)) (nodes p).

(** A short life of a pool: started, connected, used twice, closed. *)
Definition shortLife : list Op :=
  [opStart; opConnectToNode acceptingDial 0;
   opGetClient {| now := 1; src := 0 |};
   opGetClient {| now := 2; src := 0 |}; opClose].

(** The fields of a node that [GetClient] does not write. *)
Definition unusedFields (n : NodeConnection) :=
  (URL n, Client n, healthy n, weight n, failures n, connecting n).

(** The error of a connection attempt that failed, as [connectToURL]
    words it. *)
Definition attemptError (a : Facade.Attempt) : option error :=
  match a with
  | Facade.DialError e => Some ("failed to dial: " ++ e)
  | Facade.ChannelError e => Some ("failed to open channel: " ++ e)
  | Facade.QosError e => Some ("failed to set QoS: " ++ e)
  | Facade.Established _ _ => None
  end.

(** The attempt fails. *)
Definition refused (a : Facade.Attempt) : Prop := is_Some (attemptError a).

(** The client after a successful [connectToURL]. *)
Definition established (c : Facade.Client) (conn : Facade.Connection)
    (ch : Facade.Channel) : Facade.Client :=
  {| Facade.config := Facade.config c;
     Facade.connection := Some conn;
     Facade.channel := Some ch;
     Facade.connected := true;
     Facade.reconnectAttempts := 0;
     Facade.cancelled := Facade.cancelled c |}.

(** A client of three URLs that is not connected. *)
Definition threeUrlClient : Facade.Client :=
  Facade.NewClient
    {| Facade.URLs := ["amqp://a"; "amqp://b"; "amqp://c"];
       Facade.ReconnectInterval := 0; Facade.MaxReconnectAttempt := 3;
       Facade.DebugLog := false; Facade.Logger_ := None |}.

(** A broker of which only the node "amqp://b" answers. *)
Definition onlyB (url : string) : Facade.Attempt :=
  if String.eqb url "amqp://b"
  then acceptingDial url
  else Facade.DialError "connection refused".

(** * Properties *)

(** ** Machine integers *)

Lemma wrap64_range (z : Z) : MinInt64 <= wrap64 z <= MaxInt64.
Proof.
  unfold wrap64, MinInt64, MaxInt64.
  pose proof (Z.mod_pos_bound (z + 2 ^ 63) (2 ^ 64) ltac:(lia)). lia.
Qed.

Lemma wrap64_small (z : Z) : MinInt64 <= z <= MaxInt64 -> wrap64 z = z.
Proof.
  unfold wrap64, MinInt64, MaxInt64. intros H.
  rewrite Z.mod_small by lia. lia.
Qed.

Lemma wrap64_add_l (a b : Z) : wrap64 (wrap64 a + b) = wrap64 (a + b).
Proof.
  unfold wrap64.
  replace ((a + 2 ^ 63) mod 2 ^ 64 - 2 ^ 63 + b + 2 ^ 63)
    with ((a + 2 ^ 63) mod 2 ^ 64 + b) by lia.
  rewrite Zplus_mod_idemp_l. do 2 f_equal. lia.
Qed.

(** ** Configuration defaults *)

(** With the [getDefaultConfig] that sets a default for
    [MaxReconnectAttempt], [NewPool] fills each unset (zero-valued) field
    of the configuration with its default and keeps each field that is
    set: 5 s for [ReconnectInterval], 30 s for [HealthCheckInterval], 10
    for [MaxReconnectAttempt], the single local URL for an empty URL list;
    the zero value of [LoadBalanceStrategy] is [RoundRobin] and that of
    [DebugLog] is [false]. *)
Lemma NewPoolWith_5s_defaults (now : Z) (cfg : PoolConfig) :
  let c := config (NewPool now cfg) in
  ReconnectInterval c =
    (if ReconnectInterval cfg =? 0 then 5 * Second
     else ReconnectInterval cfg)
  /\ HealthCheckInterval c =
    (if HealthCheckInterval cfg =? 0 then 30 * Second
     else HealthCheckInterval cfg)
  /\ MaxReconnectAttempt c =
    (if MaxReconnectAttempt cfg =? 0 then 10 else MaxReconnectAttempt cfg)
  /\ URLs c =
    match URLs cfg with
    | [] => ["amqp://localhost:5672"]
    | _ :: _ => URLs cfg
    end
  /\ LoadBalanceStrategy_ c =
    (if LoadBalanceStrategy_ cfg =? 0 then RoundRobin
     else LoadBalanceStrategy_ cfg)
  /\ DebugLog c = (if DebugLog cfg then true else false)
  /\ map URL (nodes (NewPool now cfg)) = URLs c
  /\ config (NewPool now unsetConfig) =
     {| URLs := ["amqp://localhost:5672"];
        ReconnectInterval := 5 * Second;
        MaxReconnectAttempt := 10;
        HealthCheckInterval := 30 * Second;
        LoadBalanceStrategy_ := RoundRobin;
        DebugLog := false;
        Logger_ := Some (NewDefaultLogger false) |}.
Proof.
  cbn zeta. unfold NewPool, NewPoolWith. cbn [config nodes].
  split; [reflexivity|]. split; [reflexivity|]. split; [reflexivity|].
  split. { cbn. destruct (URLs cfg); reflexivity. }
  split. { cbn. destruct (Z.eqb_spec (LoadBalanceStrategy_ cfg) 0) as [-> |]; reflexivity. }
  split. { cbn. destruct (DebugLog cfg); reflexivity. }
  split; [|reflexivity].
  rewrite map_map. cbn [URL newNode]. apply map_id.
Qed.

(** With the other [getDefaultConfig] of the sources, [NewPool] treats
    [HealthCheckInterval], the URL list, the strategy and the debug flag
    in the same way, but an unset [ReconnectInterval] becomes 30 s and an
    unset [MaxReconnectAttempt] stays 0.  The client [connectToNode]
    builds for a node still gets the limit 10, from [NewClient]. *)
Lemma NewPoolWith_30s_defaults (now : Z) (cfg : PoolConfig) :
  let q := NewPoolWith getDefaultConfig_30s now cfg in
  let c := config q in
  ReconnectInterval c =
    (if ReconnectInterval cfg =? 0 then 30 * Second
     else ReconnectInterval cfg)
  /\ HealthCheckInterval c =
    (if HealthCheckInterval cfg =? 0 then 30 * Second
     else HealthCheckInterval cfg)
  /\ MaxReconnectAttempt c = MaxReconnectAttempt cfg
  /\ URLs c =
    match URLs cfg with
    | [] => ["amqp://localhost:5672"]
    | _ :: _ => URLs cfg
    end
  /\ LoadBalanceStrategy_ c = LoadBalanceStrategy_ cfg
  /\ DebugLog c = DebugLog cfg
  /\ map URL (nodes q) = URLs c
  /\ (MaxReconnectAttempt cfg = 0 ->
      forall n, Facade.MaxReconnectAttempt
                  (Facade.config (nodeClient q n)) = 10)
  /\ config (NewPoolWith getDefaultConfig_30s now unsetConfig) =
     {| URLs := ["amqp://localhost:5672"];
        ReconnectInterval := 30 * Second;
        MaxReconnectAttempt := 0;
        HealthCheckInterval := 30 * Second;
        LoadBalanceStrategy_ := RoundRobin;
        DebugLog := false;
        Logger_ := Some (NewDefaultLogger false) |}.
Proof.
  cbn zeta. unfold NewPoolWith. cbn [config nodes].
  split; [reflexivity|]. split; [reflexivity|]. split; [reflexivity|].
  split. { cbn. destruct (URLs cfg); reflexivity. }
  split; [reflexivity|]. split; [reflexivity|].
  split. { rewrite map_map. cbn [URL newNode]. apply map_id. }
  split; [|reflexivity].
  intros H n. unfold nodeClient, Facade.NewClient. cbn. by rewrite H.
Qed.

(** ** Statistics *)

Lemma countLoop_filter (ns : list NodeConnection) (count : Z) :
  countLoop ns count
  = count + Z.of_nat (length (List.filter nodeIsHealthy ns)).
Proof.
  revert count. induction ns as [|n ns IH]; intros count; cbn [countLoop List.filter].
  - cbn. lia.
  - rewrite IH. destruct (nodeIsHealthy n); cbn [length]; lia.
Qed.

Lemma statsLoop_filter (ns : list NodeConnection) (h : Z)
    (acc : list Stats.NodeStats) :
  statsLoop ns h acc
  = (h + Z.of_nat (length (List.filter healthy ns)),
     (acc ++ map nodeStat ns)%list).
Proof.
  revert h acc. induction ns as [|n ns IH]; intros h acc;
    cbn [statsLoop List.filter map].
  - rewrite app_nil_r. f_equal. cbn. lia.
  - rewrite IH. cbn [nodeStat Stats.Healthy].
    rewrite <- app_assoc. cbn [app].
    destruct (healthy n); cbn [length]; f_equal; lia.
Qed.

Lemma filter_healthy_le (ns : list NodeConnection) :
  (length (List.filter nodeIsHealthy ns)
   <= length (List.filter healthy ns))%nat.
Proof.
  induction ns as [|n ns IH]; cbn [List.filter]; [lia|].
  unfold nodeIsHealthy at 1.
  destruct (healthy n); cbn [andb]; [|exact IH].
  destruct (clientConnected n); cbn [length]; lia.
Qed.

(** C10: [GetStats] counts the nodes whose [healthy] flag is set, while
    [GetHealthyNodeCount] counts the nodes whose flag is set and whose
    client is present and connected; so the latter never exceeds the
    former, and on a pool whose only node has the flag set and a client that
    is not connected the two differ. *)
Theorem GetHealthyNodeCount_le_GetStats :
  (forall p : Pool,
     Stats.HealthyNodes (GetStats p)
       = Z.of_nat (length (List.filter healthy (nodes p)))
     /\ GetHealthyNodeCount p
       = Z.of_nat (length (List.filter
           (fun n => healthy n && clientConnected n) (nodes p)))
     /\ GetHealthyNodeCount p <= Stats.HealthyNodes (GetStats p))
  /\ (exists p : Pool,
        Forall (fun n => healthy n = true
                         /\ exists c, Client n = Some c
                                      /\ Facade.IsConnected c = false)
               (nodes p)
        /\ GetHealthyNodeCount p = 0
        /\ Stats.HealthyNodes (GetStats p) = 1).
Proof.
  split.
  - intros p. unfold GetStats, GetHealthyNodeCount.
    rewrite statsLoop_filter, countLoop_filter. cbn [Stats.HealthyNodes].
    pose proof (filter_healthy_le (nodes p)) as Hle.
    repeat split; try reflexivity. lia.
  - exists (poolOf RoundRobin [lostNode "amqp://a"]).
    split; [|split; reflexivity].
    constructor; [|constructor].
    split; [reflexivity|]. eexists. split; reflexivity.
Qed.

(** ** Close *)

Lemma closeLoop_spec (ns : list NodeConnection) (errs : list error) :
  closeLoop ns errs
  = (map closeNode ns, (errs ++ omap nodeCloseError ns)%list).
Proof.
  revert errs. induction ns as [|n ns IH]; intros errs.
  - cbn [closeLoop map]. change (omap nodeCloseError []) with (@nil error).
    by rewrite app_nil_r.
  - change (omap nodeCloseError (n :: ns)) with
      (match nodeCloseError n with
       | Some e => e :: omap nodeCloseError ns
       | None => omap nodeCloseError ns
       end).
    cbn [closeLoop map]. unfold closeNode at 1, nodeCloseError at 1.
    destruct (Client n) as [c|].
    + destruct (Facade.Close c) as [err c'] eqn:Hc. cbn [fst snd].
      rewrite IH. destruct err as [e|]; [|reflexivity].
      by rewrite <- app_assoc.
    + by rewrite IH.
Qed.

Lemma Close_closed (q : Pool) : closed q = true -> Close q = (None, q).
Proof. intros H. unfold Close. by rewrite H. Qed.

(** C7: on a pool that is not yet closed, [Close] sets the closed flag,
    cancels the context, stops the health ticker, asks the client of each
    node that has one to close, and returns no error when no client failed
    to close and otherwise a single error that lists the failures in node
    order; every later call returns no error and leaves the pool as it
    is. *)
Theorem Close_idempotent (p : Pool) :
  closed p = false ->
  hasCancel p = true ->
  let errs := omap nodeCloseError (nodes p) in
  let p' := snd (Close p) in
  closed p' = true
  /\ ctxDone p' = true
  /\ healthTicker p' = stopTicker (healthTicker p)
  /\ (forall t, healthTicker p' = Some t -> stopped t = true)
  /\ nodes p' = map closeNode (nodes p)
  /\ (forall i n c, nodes p !! i = Some n -> Client n = Some c ->
        exists n', nodes p' !! i = Some n'
          /\ Client n' = Some (snd (Facade.Close c))
          /\ clientConnected n' = false)
  /\ fst (Close p) =
       match errs with
       | [] => None
       | _ :: _ => Some ("errors during close: " ++ fmt_errs errs)
       end
  /\ (config p', roundRobin p', totalRequests p', totalFailures p')
     = (config p, roundRobin p, totalRequests p, totalFailures p)
  /\ (forall k, CloseAgain k p' = (None, p')).
Proof.
  intros Hopen Hcancel errs p'.
  assert (Hclose : Close p =
    (match errs with
     | [] => None
     | _ :: _ => Some ("errors during close: " ++ fmt_errs errs)
     end,
     {| config := config p; nodes := map closeNode (nodes p); closed := true;
        roundRobin := roundRobin p; ctxDone := true; hasCancel := hasCancel p;
        healthTicker := stopTicker (healthTicker p);
        totalRequests := totalRequests p;
        totalFailures := totalFailures p |})).
  { unfold Close. rewrite Hopen, closeLoop_spec, Hcancel. cbn [app].
    fold errs. destruct errs; reflexivity. }
  subst p'. rewrite Hclose. cbn [fst snd closed ctxDone healthTicker nodes
    config roundRobin totalRequests totalFailures].
  repeat split.
  - intros t. destruct (healthTicker p) as [tk|]; cbn; [|discriminate].
    intros [= <-]. reflexivity.
  - intros i n c Hi Hc. exists (closeNode n). split.
    + rewrite list_lookup_fmap, Hi. reflexivity.
    + unfold closeNode. rewrite Hc. split; reflexivity.
  - induction k as [|k IH]; cbn [CloseAgain].
    + by apply Close_closed.
    + rewrite Close_closed by reflexivity. exact IH.
Qed.

(** C7 at a started pool in which one client fails to close. *)
Lemma Close_idempotent_witness :
  closed (snd (Close startedPool)) = true
  /\ fst (Close startedPool)
     = Some ("errors during close: [failed to close node amqp://b: "
             ++ "errors during close: [failed to close channel: EOF]]")
  /\ (forall k, CloseAgain k (snd (Close startedPool))
                = (None, snd (Close startedPool))).
Proof.
  pose proof (Close_idempotent startedPool eq_refl eq_refl) as H.
  cbn zeta in H.
  destruct H as (Hc & _ & _ & _ & _ & _ & He & _ & Hk).
  split; [exact Hc|]. split; [exact He | exact Hk].
Defined.

(** ** The healthy set *)

Lemma healthyFrom_elem (k : nat) (ns : list NodeConnection) (i : nat)
    (n : NodeConnection) :
  (i, n) ∈ healthyFrom k ns
  <-> exists j : nat, i = (k + j)%nat /\ ns !! j = Some n
                      /\ nodeIsHealthy n = true.
Proof.
  revert k. induction ns as [|m ns IH]; intros k; cbn [healthyFrom].
  - split; [intros H; inversion H | intros (j & _ & H & _); discriminate].
  - assert (Htail : (i, n) ∈ healthyFrom (S k) ns <->
      exists j, i = (k + S j)%nat /\ ns !! j = Some n
                /\ nodeIsHealthy n = true).
    { rewrite IH. split; intros (j & -> & H); exists j; (split; [lia|done]). }
    destruct (nodeIsHealthy m) eqn:Hm.
    + rewrite elem_of_cons, Htail. split.
      * intros [[= -> ->] | (j & -> & H)].
        -- exists 0%nat. repeat split; [lia | done].
        -- exists (S j). done.
      * intros ([|j] & -> & Hj & Hn); cbn in Hj.
        -- left. injection Hj as ->. f_equal. lia.
        -- right. exists j. done.
    + rewrite Htail. split.
      * intros (j & -> & H). exists (S j). done.
      * intros ([|j] & -> & Hj & Hn); cbn in Hj.
        -- injection Hj as ->. congruence.
        -- exists j. done.
Qed.

Lemma getHealthyNodes_elem (p : Pool) (i : nat) (n : NodeConnection) :
  (i, n) ∈ getHealthyNodes p
  <-> nodes p !! i = Some n /\ nodeIsHealthy n = true.
Proof.
  unfold getHealthyNodes. rewrite healthyFrom_elem. split.
  - intros (j & -> & H). done.
  - intros H. exists i. done.
Qed.

(** The indices of the healthy set increase strictly. *)
Lemma healthyFrom_lt (k : nat) (ns : list NodeConnection) (a b : nat)
    (x y : nat * NodeConnection) :
  healthyFrom k ns !! a = Some x -> healthyFrom k ns !! b = Some y ->
  (a < b)%nat -> (x.1 < y.1)%nat.
Proof.
  revert k a b. induction ns as [|m ns IH]; intros k a b; cbn [healthyFrom].
  - discriminate.
  - destruct (nodeIsHealthy m); [|by apply IH].
    destruct a as [|a], b as [|b]; cbn; try lia.
    + intros [= <-] Hy _. cbn.
      assert (Hin : y ∈ healthyFrom (S k) ns)
        by (apply list_elem_of_lookup; eauto).
      destruct y as [j n]. apply healthyFrom_elem in Hin as (j' & -> & _).
      cbn. lia.
    + intros Hx Hy Hlt. eapply IH; eauto. lia.
Qed.

Lemma sumWeights_wrap (hs : list (nat * NodeConnection)) (a : Z) :
  sumWeights hs (wrap64 a) = wrap64 (a + weightSum hs).
Proof.
  revert a. induction hs as [|[i n] hs IH]; intros a;
    cbn [sumWeights weightSum].
  - f_equal. lia.
  - unfold add64. rewrite wrap64_add_l, IH. f_equal. lia.
Qed.

(** [totalWeight] is the sum of the weights, as a 64-bit integer. *)
Lemma sumWeights_weightSum (hs : list (nat * NodeConnection)) :
  sumWeights hs 0 = wrap64 (weightSum hs).
Proof. exact (sumWeights_wrap hs 0). Qed.

(** ** SetNodeWeight *)

Lemma setWeightLoop_first (url : string) (w : Z) (ns : list NodeConnection)
    (i : nat) (n : NodeConnection) :
  ns !! i = Some n -> URL n = url ->
  (forall j m, (j < i)%nat -> ns !! j = Some m -> URL m <> url) ->
  setWeightLoop url w ns = Some (<[i := set_weight w n]> ns).
Proof.
  revert i. induction ns as [|m ns IH]; intros i Hi Hurl Hfirst.
  - discriminate.
  - cbn [setWeightLoop]. destruct i as [|i]; cbn in Hi.
    + injection Hi as ->. rewrite Hurl, String.eqb_refl. reflexivity.
    + destruct (String.eqb_spec (URL m) url) as [Heq|Hne].
      * exfalso. apply (Hfirst 0%nat m); [lia | reflexivity | exact Heq].
      * rewrite (IH i Hi Hurl); [reflexivity|].
        intros j m' Hj Hm'. apply (Hfirst (S j) m'); [lia | exact Hm'].
Qed.

(** ** GetClient: the two early exits *)

Lemma GetClient_closed (env : Env) (p : Pool) :
  closed p = true ->
  GetClient env p
  = (Err errPoolClosed, set_totalRequests (add64 (totalRequests p) 1) p).
Proof. intros H. unfold GetClient. cbn [closed set_totalRequests]. by rewrite H. Qed.

Lemma GetClient_open (env : Env) (p : Pool) :
  closed p = false ->
  GetClient env p
  = let p1 := set_totalRequests (add64 (totalRequests p) 1) p in
    match selectNode env p1 with
    | (Err e, p2) =>
        (Err e, set_totalFailures (add64 (totalFailures p2) 1) p2)
    | (Panic m, p2) => (Panic m, p2)
    | (Ok None, p2) => (Panic "nil pointer dereference", p2)
    | (Ok (Some i), p2) =>
        match nodes p2 !! i with
        | None => (Panic "nil pointer dereference", p2)
        | Some n =>
            (Ok (i, Client n),
             set_nodes (<[i := mark_used (now env) n]> (nodes p2)) p2)
        end
    end.
Proof. intros H. unfold GetClient. cbn [closed set_totalRequests]. by rewrite H. Qed.

Lemma length_eqb_nil {A : Type} (l : list A) :
  (length l =? 0)%nat = match l with [] => true | _ :: _ => false end.
Proof. by destruct l. Qed.

Lemma getClientWeightedRoundRobin_nonempty (src : Z) (p : Pool) :
  getHealthyNodes p <> [] ->
  getClientWeightedRoundRobin src p
  = if sumWeights (getHealthyNodes p) 0 =? 0 then getClientRoundRobin p
    else
      match Intn src (sumWeights (getHealthyNodes p) 0) with
      | Ok randWeight =>
          match weightedLoop (getHealthyNodes p) randWeight 0 with
          | Some i => (Ok (Some i), p)
          | None =>
              match index_at (getHealthyNodes p) 0 with
              | Ok (i, _) => (Ok (Some i), p)
              | Err e => (Err e, p)
              | Panic m => (Panic m, p)
              end
          end
      | Err e => (Err e, p)
      | Panic m => (Panic m, p)
      end.
Proof.
  intros Hne. unfold getClientWeightedRoundRobin. rewrite length_eqb_nil.
  by destruct (getHealthyNodes p).
Qed.

(** With a negative total weight the weighted selector panics in
    [rand.Intn]. *)
Lemma weighted_negative_panics (src : Z) (p : Pool) :
  getHealthyNodes p <> [] ->
  sumWeights (getHealthyNodes p) 0 < 0 ->
  getClientWeightedRoundRobin src p = (Panic "invalid argument to Intn", p).
Proof.
  intros Hne Hneg. rewrite getClientWeightedRoundRobin_nonempty by exact Hne.
  destruct (Z.eqb_spec (sumWeights (getHealthyNodes p) 0) 0); [lia|].
  unfold Intn.
  by destruct (Z.leb_spec (sumWeights (getHealthyNodes p) 0) 0); [|lia].
Qed.

Lemma selectNode_RoundRobin (env : Env) (p : Pool) :
  LoadBalanceStrategy_ (config p) = RoundRobin ->
  selectNode env p = getClientRoundRobin p.
Proof. intros H. unfold selectNode. by rewrite H. Qed.

Lemma selectNode_LeastUsed (env : Env) (p : Pool) :
  LoadBalanceStrategy_ (config p) = LeastUsed ->
  selectNode env p = getClientLeastUsed p.
Proof. intros H. unfold selectNode. by rewrite H. Qed.

Lemma selectNode_WeightedRoundRobin (env : Env) (p : Pool) :
  LoadBalanceStrategy_ (config p) = WeightedRoundRobin ->
  selectNode env p = getClientWeightedRoundRobin (src env) p.
Proof. intros H. unfold selectNode. by rewrite H. Qed.



(** ** LeastUsed *)

Lemma leastUsedLoop_spec (hs : list (nat * NodeConnection)) (minUsed : Z)
    (sel : option nat) :
  (Forall (fun h => minUsed <= totalUsed h.2) hs
   /\ leastUsedLoop hs minUsed sel = sel)
  \/ (exists k i n,
        hs !! k = Some (i, n)
        /\ leastUsedLoop hs minUsed sel = Some i
        /\ totalUsed n < minUsed
        /\ (forall k' h, hs !! k' = Some h -> totalUsed n <= totalUsed h.2)
        /\ (forall k' h, (k' < k)%nat -> hs !! k' = Some h ->
              totalUsed n < totalUsed h.2)).
Proof.
  revert minUsed sel.
  induction hs as [|[i n] hs IH]; intros minUsed sel; cbn [leastUsedLoop].
  - left. split; [constructor | reflexivity].
  - destruct (Z.ltb_spec (totalUsed n) minUsed) as [Hlt|Hge].
    + right.
      destruct (IH (totalUsed n) (Some i))
        as [[Hall Heq] | (k & j & m & Hk & Heq & Hm & Hmin & Hfirst)].
      * exists 0%nat, i, n. split; [reflexivity|]. split; [exact Heq|].
        split; [exact Hlt|]. split; [|intros; lia].
        intros [|k'] h Hh; cbn in Hh.
        -- injection Hh as <-. cbn. lia.
        -- rewrite Forall_lookup in Hall. exact (Hall k' h Hh).
      * exists (S k), j, m. split; [exact Hk|]. split; [exact Heq|].
        split; [lia|]. split.
        -- intros [|k'] h Hh; cbn in Hh.
           ++ injection Hh as <-. cbn. lia.
           ++ exact (Hmin k' h Hh).
        -- intros [|k'] h Hk' Hh; cbn in Hh.
           ++ injection Hh as <-. cbn. lia.
           ++ apply (Hfirst k' h); [lia | exact Hh].
    + destruct (IH minUsed sel)
        as [[Hall Heq] | (k & j & m & Hk & Heq & Hm & Hmin & Hfirst)].
      * left. split; [|exact Heq]. constructor; [cbn; lia | exact Hall].
      * right. exists (S k), j, m. split; [exact Hk|]. split; [exact Heq|].
        split; [exact Hm|]. split.
        -- intros [|k'] h Hh; cbn in Hh.
           ++ injection Hh as <-. cbn. lia.
           ++ exact (Hmin k' h Hh).
        -- intros [|k'] h Hk' Hh; cbn in Hh.
           ++ injection Hh as <-. cbn. lia.
           ++ apply (Hfirst k' h); [lia | exact Hh].
Qed.

(** C8: under [LeastUsed], when some healthy node has been used fewer than
    [MaxInt64] times, [GetClient] returns the client of a healthy node
    whose [totalUsed] is the smallest of the healthy set, and among the
    healthy nodes with that smallest count it is the one of least index in
    [p.nodes]. *)
Theorem GetClient_LeastUsed_first_minimum (env : Env) (p : Pool) :
  closed p = false ->
  LoadBalanceStrategy_ (config p) = LeastUsed ->
  Exists (fun h => totalUsed h.2 < MaxInt64) (getHealthyNodes p) ->
  exists (i : nat) (n : NodeConnection),
    fst (GetClient env p) = Ok (i, Client n)
    /\ (i, n) ∈ getHealthyNodes p
    /\ (forall j m, (j, m) ∈ getHealthyNodes p ->
          totalUsed n <= totalUsed m)
    /\ (forall j m, (j, m) ∈ getHealthyNodes p ->
          totalUsed m = totalUsed n -> (i <= j)%nat).
Proof.
  intros Hopen Hs Hex.
  rewrite GetClient_open by exact Hopen. cbn zeta.
  rewrite selectNode_LeastUsed by exact Hs.
  unfold getClientLeastUsed.
  change (getHealthyNodes (set_totalRequests _ p)) with (getHealthyNodes p).
  rewrite length_eqb_nil.
  destruct (getHealthyNodes p) as [|h0 hs0] eqn:Hh; [inversion Hex|].
  rewrite <- Hh in *.
  destruct (leastUsedLoop_spec (getHealthyNodes p) MaxInt64 None)
    as [[Hall _] | (k & i & n & Hk & Heq & Hlt & Hmin & Hfirst)].
  { exfalso. rewrite Exists_exists in Hex. destruct Hex as (h & Hin & Hlt).
    rewrite Forall_forall in Hall. specialize (Hall h Hin). lia. }
  assert (Hin : (i, n) ∈ getHealthyNodes p)
    by (apply list_elem_of_lookup; eauto).
  pose proof (proj1 (getHealthyNodes_elem p i n) Hin) as [Hnode _].
  exists i, n. rewrite Heq. cbn [nodes set_totalRequests]. rewrite Hnode.
  cbn [fst]. split; [reflexivity|]. split; [exact Hin|]. split.
  - intros j m Hjm. apply list_elem_of_lookup in Hjm as [k' Hk'].
    exact (Hmin k' (j, m) Hk').
  - intros j m Hjm Htie. apply list_elem_of_lookup in Hjm as [k' Hk'].
    destruct (Nat.lt_trichotomy k' k) as [Hlt' | [-> | Hgt]].
    + specialize (Hfirst k' (j, m) Hlt' Hk'). cbn in Hfirst. lia.
    + rewrite Hk in Hk'. injection Hk' as -> _. lia.
    + pose proof (healthyFrom_lt 0 (nodes p) k k' (i, n) (j, m) Hk Hk' Hgt)
        as Hidx. cbn in Hidx. lia.
Qed.

(** C8 at a pool whose nodes were used 7, 2 and 2 times. *)
Lemma GetClient_LeastUsed_first_minimum_witness :
  exists (i : nat) (n : NodeConnection),
    fst (GetClient {| now := 1; src := 0 |}
           (poolOf LeastUsed [liveNode "amqp://a" 1 7;
                              liveNode "amqp://b" 1 2;
                              liveNode "amqp://c" 1 2]))
    = Ok (i, Client n)
    /\ (i, n) ∈ getHealthyNodes
                  (poolOf LeastUsed [liveNode "amqp://a" 1 7;
                                     liveNode "amqp://b" 1 2;
                                     liveNode "amqp://c" 1 2])
    /\ (forall j m,
          (j, m) ∈ getHealthyNodes
                     (poolOf LeastUsed [liveNode "amqp://a" 1 7;
                                        liveNode "amqp://b" 1 2;
                                        liveNode "amqp://c" 1 2]) ->
          totalUsed n <= totalUsed m)
    /\ (forall j m,
          (j, m) ∈ getHealthyNodes
                     (poolOf LeastUsed [liveNode "amqp://a" 1 7;
                                        liveNode "amqp://b" 1 2;
                                        liveNode "amqp://c" 1 2]) ->
          totalUsed m = totalUsed n -> (i <= j)%nat).
Proof.
  apply GetClient_LeastUsed_first_minimum; [reflexivity | reflexivity |].
  apply Exists_cons_hd. reflexivity.
Defined.

(** ** WeightedRoundRobin *)

Lemma Intn_positive (s n : Z) : 0 < n -> Intn s n = Ok (s mod n).
Proof. intros H. unfold Intn. destruct (Z.leb_spec n 0); [lia | reflexivity]. Qed.

(** Every value of the interval is drawn for some state of the source. *)
Lemma Intn_onto (n r : Z) : 0 <= r < n -> Intn r n = Ok r.
Proof. intros H. rewrite Intn_positive by lia. by rewrite Z.mod_small. Qed.

Lemma weightedLoop_spec (hs : list (nat * NodeConnection)) (r cw : Z) :
  MinInt64 <= cw <= MaxInt64 -> cw <= r -> r < sumWeights hs cw ->
  exists k i n,
    hs !! k = Some (i, n)
    /\ weightedLoop hs r cw = Some i
    /\ r < sumWeights (take (S k) hs) cw
    /\ (forall k', (k' < k)%nat -> sumWeights (take (S k') hs) cw <= r)
    /\ weight n <> 0.
Proof.
  revert cw. induction hs as [|[i n] hs IH]; intros cw Hcw Hle Hlt;
    cbn [sumWeights] in Hlt.
  - lia.
  - cbn [weightedLoop].
    destruct (Z.ltb_spec r (add64 cw (weight n))) as [Hsel|Hnot].
    + exists 0%nat, i, n. split; [reflexivity|]. split; [reflexivity|].
      split; [exact Hsel|]. split; [intros; lia|].
      intros Hz. rewrite Hz in Hsel. unfold add64 in Hsel.
      rewrite Z.add_0_r, wrap64_small in Hsel by exact Hcw. lia.
    + destruct (IH (add64 cw (weight n)) (wrap64_range _) Hnot Hlt)
        as (k & j & m & Hk & Heq & Hrun & Hbefore & Hw).
      exists (S k), j, m. split; [exact Hk|]. split; [exact Heq|].
      split; [exact Hrun|]. split; [|exact Hw].
      intros [|k'] Hk'; [exact Hnot|].
      apply (Hbefore k'). lia.
Qed.

(** C3, as stated, fails where the total weight is negative: the claim
    has every total other than zero lead to a draw and to the return of a
    node, and at the pool that [SetNodeWeight] with weight -3 leaves of two
    healthy nodes of weight 1 the total is -2, [rand.Intn] panics, and no
    node is returned. *)
Lemma GetClient_WeightedRoundRobin_negative_counterexample :
  let q := snd (SetNodeWeight "amqp://a" (-3)
                  (poolOf WeightedRoundRobin
                     [liveNode "amqp://a" 1 0; liveNode "amqp://b" 1 0])) in
  closed q = false
  /\ LoadBalanceStrategy_ (config q) = WeightedRoundRobin
  /\ length (getHealthyNodes q) = 2%nat
  /\ sumWeights (getHealthyNodes q) 0 = -2
  /\ sumWeights (getHealthyNodes q) 0 <> 0
  /\ Intn 0 (sumWeights (getHealthyNodes q) 0)
     = Panic "invalid argument to Intn"
  /\ fst (GetClient {| now := 0; src := 0 |} q)
     = Panic "invalid argument to Intn"
  /\ ~ (exists i c, fst (GetClient {| now := 0; src := 0 |} q) = Ok (i, c)).
Proof.
  cbn zeta. repeat split; try (vm_compute; reflexivity).
  - vm_compute. discriminate.
  - intros (i & c & H). vm_compute in H. discriminate.
Qed.

(** C3, amended: under [WeightedRoundRobin] with a non-empty healthy set,
    the total weight is the 64-bit sum of the weights of the healthy
    nodes; if it is zero the selection is that of [RoundRobin]; if it is
    positive, the draw [r] lies in [[0, totalWeight)], every value of that
    interval is drawn for some state of the random source, and [GetClient]
    returns the client of the first healthy node, in index order, whose
    running weight exceeds [r]; this node never has weight 0; if the total
    is negative, [rand.Intn] panics and [GetClient] returns no node. *)
Theorem GetClient_WeightedRoundRobin (env : Env) (p : Pool) :
  closed p = false ->
  LoadBalanceStrategy_ (config p) = WeightedRoundRobin ->
  getHealthyNodes p <> [] ->
  let hs := getHealthyNodes p in
  let totalWeight := sumWeights hs 0 in
  totalWeight = wrap64 (weightSum hs)
  /\ (totalWeight = 0 -> selectNode env p = getClientRoundRobin p)
  /\ (0 < totalWeight ->
        exists r k i n,
          Intn (src env) totalWeight = Ok r
          /\ 0 <= r < totalWeight
          /\ hs !! k = Some (i, n)
          /\ fst (GetClient env p) = Ok (i, Client n)
          /\ r < running hs k
          /\ (forall k', (k' < k)%nat -> running hs k' <= r)
          /\ weight n <> 0)
  /\ (forall r, 0 <= r < totalWeight -> Intn r totalWeight = Ok r)
  /\ (totalWeight < 0 ->
        GetClient env p
        = (Panic "invalid argument to Intn",
           set_totalRequests (add64 (totalRequests p) 1) p)).
Proof.
  intros Hopen Hs Hne hs totalWeight. subst hs totalWeight.
  split; [apply sumWeights_weightSum|]. split; [|split; [|split]].
  - intros Hz. rewrite selectNode_WeightedRoundRobin by exact Hs.
    rewrite getClientWeightedRoundRobin_nonempty by exact Hne.
    by rewrite Hz.
  - intros Hpos.
    destruct (weightedLoop_spec (getHealthyNodes p)
                (src env mod sumWeights (getHealthyNodes p) 0) 0)
      as (k & i & n & Hk & Heq & Hrun & Hbefore & Hw).
    { unfold MinInt64, MaxInt64. lia. }
    { apply Z.mod_pos_bound. lia. }
    { apply Z.mod_pos_bound. lia. }
    exists (src env mod sumWeights (getHealthyNodes p) 0), k, i, n.
    split; [by apply Intn_positive|].
    split; [apply Z.mod_pos_bound; lia|].
    split; [exact Hk|]. split; [|done].
    assert (Hin : (i, n) ∈ getHealthyNodes p)
      by (apply list_elem_of_lookup; eauto).
    pose proof (proj1 (getHealthyNodes_elem p i n) Hin) as [Hnode _].
    rewrite GetClient_open by exact Hopen. cbn zeta.
    rewrite selectNode_WeightedRoundRobin by exact Hs.
    rewrite getClientWeightedRoundRobin_nonempty by exact Hne.
    change (getHealthyNodes (set_totalRequests _ p))
      with (getHealthyNodes p).
    destruct (Z.eqb_spec (sumWeights (getHealthyNodes p) 0) 0); [lia|].
    rewrite Intn_positive by exact Hpos. rewrite Heq.
    cbn [nodes set_totalRequests]. by rewrite Hnode.
  - intros r Hr. by apply Intn_onto.
  - intros Hneg. rewrite GetClient_open by exact Hopen. cbn zeta.
    rewrite selectNode_WeightedRoundRobin by exact Hs.
    rewrite weighted_negative_panics; [reflexivity | exact Hne | exact Hneg].
Qed.

(** C3 amended, at three healthy nodes of weights 3, 0 and 2, for a source
    in state 3. *)
Lemma GetClient_WeightedRoundRobin_witness :
  exists r k i n,
    Intn 3 (sumWeights (getHealthyNodes weightedPool) 0) = Ok r
    /\ 0 <= r < sumWeights (getHealthyNodes weightedPool) 0
    /\ getHealthyNodes weightedPool !! k = Some (i, n)
    /\ fst (GetClient {| now := 1; src := 3 |} weightedPool)
       = Ok (i, Client n)
    /\ r < running (getHealthyNodes weightedPool) k
    /\ (forall k', (k' < k)%nat ->
          running (getHealthyNodes weightedPool) k' <= r)
    /\ weight n <> 0.
Proof.
  assert (Hne : getHealthyNodes weightedPool <> [])
    by (vm_compute; discriminate).
  exact (proj1 (proj2 (proj2 (GetClient_WeightedRoundRobin
           {| now := 1; src := 3 |} weightedPool eq_refl eq_refl Hne)))
         eq_refl).
Defined.

(** ** GetClient: outcomes *)

Lemma index_at_elem {A : Type} (l : list A) (index : Z) (a : A) :
  index_at l index = Ok a -> a ∈ l.
Proof.
  unfold index_at. destruct (index <? 0); [discriminate|].
  destruct (l !! Z.to_nat index) eqn:H; [|discriminate].
  intros [= <-]. apply list_elem_of_lookup. eauto.
Qed.

Lemma index_at_no_error {A : Type} (l : list A) (index : Z) (e : error) :
  index_at l index <> Err e.
Proof.
  unfold index_at. destruct (index <? 0); [discriminate|].
  destruct (l !! Z.to_nat index); discriminate.
Qed.

Lemma index_at_ok {A : Type} (l : list A) (index : Z) :
  0 <= index < Z.of_nat (length l) ->
  exists a, index_at l index = Ok a /\ l !! Z.to_nat index = Some a.
Proof.
  intros H. unfold index_at. destruct (Z.ltb_spec index 0); [lia|].
  destruct (lookup_lt_is_Some_2 l (Z.to_nat index)) as [a Ha]; [lia|].
  exists a. by rewrite Ha.
Qed.

Lemma getClientRoundRobin_nonempty (p : Pool) :
  getHealthyNodes p <> [] ->
  getClientRoundRobin p
  = let c := add64 (roundRobin p) 1 in
    match index_at (getHealthyNodes p)
            (Z.rem c (Z.of_nat (length (getHealthyNodes p)))) with
    | Ok (i, _) => (Ok (Some i), set_roundRobin c p)
    | Err e => (Err e, set_roundRobin c p)
    | Panic m => (Panic m, set_roundRobin c p)
    end.
Proof.
  intros Hne. unfold getClientRoundRobin. rewrite length_eqb_nil.
  by destruct (getHealthyNodes p).
Qed.

Lemma getClientRoundRobin_selects (p : Pool) :
  getHealthyNodes p <> [] ->
  selectsFrom (getHealthyNodes p) p (getClientRoundRobin p).
Proof.
  intros Hne. rewrite getClientRoundRobin_nonempty by exact Hne. cbn zeta.
  destruct (index_at _ _) as [[i n]|e|m] eqn:H; repeat split.
  - exists n. exact (index_at_elem _ _ _ H).
  - exact (index_at_no_error _ _ _ H).
Qed.

Lemma getClientRandom_selects (s : Z) (p : Pool) :
  getHealthyNodes p <> [] ->
  selectsFrom (getHealthyNodes p) p (getClientRandom s p).
Proof.
  intros Hne. unfold getClientRandom. rewrite length_eqb_nil.
  destruct (getHealthyNodes p) as [|h hs] eqn:Hh; [done|].
  rewrite Intn_positive by (cbn [length]; lia).
  destruct (index_at _ _) as [[i n]|e|m] eqn:H; repeat split.
  - exists n. exact (index_at_elem _ _ _ H).
  - exact (index_at_no_error _ _ _ H).
Qed.

Lemma leastUsedLoop_elem (hs : list (nat * NodeConnection)) (minUsed : Z)
    (i : nat) :
  leastUsedLoop hs minUsed None = Some i -> exists n, (i, n) ∈ hs.
Proof.
  intros H.
  destruct (leastUsedLoop_spec hs minUsed None)
    as [[_ Heq] | (k & j & n & Hk & Heq & _)]; [congruence|].
  rewrite Heq in H. injection H as <-. exists n.
  apply list_elem_of_lookup. eauto.
Qed.

Lemma getClientLeastUsed_selects (p : Pool) :
  getHealthyNodes p <> [] ->
  selectsFrom (getHealthyNodes p) p (getClientLeastUsed p).
Proof.
  intros Hne. unfold getClientLeastUsed. rewrite length_eqb_nil.
  destruct (getHealthyNodes p) as [|h hs] eqn:Hh; [done|].
  repeat split. cbn [fst].
  destruct (leastUsedLoop _ _ _) as [i|] eqn:H; [|exact I].
  exact (leastUsedLoop_elem _ _ _ H).
Qed.

Lemma weightedLoop_elem (hs : list (nat * NodeConnection)) (r cw : Z)
    (i : nat) :
  weightedLoop hs r cw = Some i -> exists n, (i, n) ∈ hs.
Proof.
  revert cw. induction hs as [|[j n] hs IH]; intros cw; cbn [weightedLoop].
  - discriminate.
  - destruct (r <? add64 cw (weight n)).
    + intros [= <-]. exists n. by left.
    + intros H. destruct (IH _ H) as [m Hm]. exists m. by right.
Qed.

Lemma getClientWeightedRoundRobin_selects (s : Z) (p : Pool) :
  getHealthyNodes p <> [] ->
  selectsFrom (getHealthyNodes p) p (getClientWeightedRoundRobin s p).
Proof.
  intros Hne. rewrite getClientWeightedRoundRobin_nonempty by exact Hne.
  destruct (_ =? 0); [by apply getClientRoundRobin_selects|].
  destruct (Intn _ _) as [r|e|m] eqn:HI; [|by destruct (Z.leb_spec
    (sumWeights (getHealthyNodes p) 0) 0); unfold Intn in HI;
    destruct (_ <=? _) | repeat split].
  destruct (weightedLoop _ _ _) as [i|] eqn:Hw.
  - repeat split. exact (weightedLoop_elem _ _ _ _ Hw).
  - destruct (index_at _ _) as [[i n]|e|m] eqn:H; repeat split.
    + exists n. exact (index_at_elem _ _ _ H).
    + exact (index_at_no_error _ _ _ H).
Qed.

Lemma selectNode_selects (env : Env) (p : Pool) :
  getHealthyNodes p <> [] ->
  selectsFrom (getHealthyNodes p) p (selectNode env p).
Proof.
  intros Hne. unfold selectNode.
  destruct (_ =? RoundRobin); [by apply getClientRoundRobin_selects|].
  destruct (_ =? Random); [by apply getClientRandom_selects|].
  destruct (_ =? LeastUsed); [by apply getClientLeastUsed_selects|].
  destruct (_ =? WeightedRoundRobin);
    [by apply getClientWeightedRoundRobin_selects
    |by apply getClientRoundRobin_selects].
Qed.

Lemma selectNode_empty (env : Env) (p : Pool) :
  getHealthyNodes p = [] -> selectNode env p = (Err errNoHealthyNodes, p).
Proof.
  intros He. unfold selectNode, getClientRoundRobin, getClientRandom,
    getClientLeastUsed, getClientWeightedRoundRobin.
  rewrite He. cbn [length Nat.eqb].
  by repeat destruct (_ =? _).
Qed.

Lemma getClientRoundRobin_returns (p : Pool) :
  getHealthyNodes p <> [] -> counterReady p ->
  exists i n,
    getClientRoundRobin p
    = (Ok (Some i), set_roundRobin (add64 (roundRobin p) 1) p)
    /\ getHealthyNodes p
         !! Z.to_nat (add64 (roundRobin p) 1
                      mod Z.of_nat (length (getHealthyNodes p)))
       = Some (i, n).
Proof.
  intros Hne Hc. unfold counterReady in Hc.
  rewrite getClientRoundRobin_nonempty by exact Hne. cbn zeta.
  assert (HN : 0 < Z.of_nat (length (getHealthyNodes p)))
    by (destruct (getHealthyNodes p); [done | cbn [length]; lia]).
  rewrite Z.rem_mod_nonneg by lia.
  destruct (index_at_ok (getHealthyNodes p)
              (add64 (roundRobin p) 1
               mod Z.of_nat (length (getHealthyNodes p))))
    as ([i n] & Hat & Hlook).
  { apply Z.mod_pos_bound. lia. }
  exists i, n. by rewrite Hat.
Qed.

Lemma selectNode_returns (env : Env) (p : Pool) :
  getHealthyNodes p <> [] -> selectorPrecondition p ->
  exists i, fst (selectNode env p) = Ok (Some i).
Proof.
  intros Hne Hpre. unfold selectorPrecondition in Hpre. cbn zeta in Hpre.
  unfold selectNode.
  destruct (Z.eqb_spec (LoadBalanceStrategy_ (config p)) RoundRobin)
    as [Hs|_].
  { rewrite Hs in Hpre. cbn in Hpre.
    destruct (getClientRoundRobin_returns p Hne Hpre) as (i & n & -> & _).
    by exists i. }
  destruct (_ =? Random).
  { unfold getClientRandom. rewrite length_eqb_nil.
    destruct (getHealthyNodes p) as [|h hs] eqn:Hh; [done|].
    rewrite Intn_positive by (cbn [length]; lia).
    destruct (index_at_ok (h :: hs)
                (src env mod Z.of_nat (length (h :: hs))))
      as ([i n] & -> & _).
    { apply Z.mod_pos_bound. cbn [length]. lia. }
    by exists i. }
  destruct (_ =? LeastUsed).
  { unfold getClientLeastUsed. rewrite length_eqb_nil.
    destruct (getHealthyNodes p) as [|h hs] eqn:Hh; [done|].
    destruct (leastUsedLoop_spec (h :: hs) MaxInt64 None)
      as [[Hall _] | (k & i & n & _ & -> & _)]; [|by exists i].
    exfalso. rewrite Exists_exists in Hpre.
    destruct Hpre as (x & Hin & Hlt).
    rewrite Forall_forall in Hall. specialize (Hall x Hin). lia. }
  destruct (_ =? WeightedRoundRobin).
  - destruct Hpre as [Hnn Hzero].
    rewrite getClientWeightedRoundRobin_nonempty by exact Hne.
    destruct (Z.eqb_spec (sumWeights (getHealthyNodes p) 0) 0) as [Hz|Hnz].
    + destruct (getClientRoundRobin_returns p Hne (Hzero Hz))
        as (i & n & -> & _).
      by exists i.
    + rewrite Intn_positive by lia.
      destruct (weightedLoop_spec (getHealthyNodes p)
                  (src env mod sumWeights (getHealthyNodes p) 0) 0)
        as (k & i & n & _ & -> & _).
      { unfold MinInt64, MaxInt64. lia. }
      { apply Z.mod_pos_bound. lia. }
      { apply Z.mod_pos_bound. lia. }
      by exists i.
  - destruct (getClientRoundRobin_returns p Hne Hpre) as (i & n & -> & _).
    by exists i.
Qed.

(** C1, as stated, fails on a closed pool: the claim has the call
    increment [totalFailures], and the code returns the error and leaves
    [totalFailures] as it was. *)
Lemma GetClient_closed_counterexample :
  closed (snd (Close startedPool)) = true
  /\ fst (GetClient {| now := 1; src := 0 |} (snd (Close startedPool)))
     = Err errPoolClosed
  /\ totalFailures (snd (Close startedPool)) = 0
  /\ totalFailures
       (snd (GetClient {| now := 1; src := 0 |} (snd (Close startedPool))))
     = 0
  /\ totalFailures
       (snd (GetClient {| now := 1; src := 0 |} (snd (Close startedPool))))
     <> add64 (totalFailures (snd (Close startedPool))) 1.
Proof. repeat split. vm_compute. discriminate. Qed.

(** C1, amended: every call increments [totalRequests]; on a closed pool
    the call fails with "pool is closed" and leaves [totalFailures]
    unchanged; on an open pool with an empty healthy set it increments
    [totalFailures] and fails with "no healthy nodes available"; on an
    open pool with a non-empty healthy set, in the states where the
    selector returns, it returns the client of a node of the healthy set
    and leaves [totalFailures] unchanged.  These are the only errors
    returned, and a client returned always is that of a healthy node. *)
Theorem GetClient_outcomes (env : Env) (p : Pool) :
  let r := fst (GetClient env p) in
  let p' := snd (GetClient env p) in
  totalRequests p' = add64 (totalRequests p) 1
  /\ (closed p = true ->
        r = Err errPoolClosed /\ totalFailures p' = totalFailures p)
  /\ (closed p = false -> getHealthyNodes p = [] ->
        r = Err errNoHealthyNodes
        /\ totalFailures p' = add64 (totalFailures p) 1)
  /\ (closed p = false -> getHealthyNodes p <> [] ->
      selectorPrecondition p ->
        exists i n, r = Ok (i, Client n)
                    /\ (i, n) ∈ getHealthyNodes p
                    /\ totalFailures p' = totalFailures p)
  /\ (forall e, r = Err e ->
        (closed p = true /\ e = errPoolClosed)
        \/ (closed p = false /\ getHealthyNodes p = []
            /\ e = errNoHealthyNodes))
  /\ (forall i c, r = Ok (i, c) ->
        closed p = false
        /\ exists n, (i, n) ∈ getHealthyNodes p /\ c = Client n).
Proof.
  cbn zeta.
  set (p1 := set_totalRequests (add64 (totalRequests p) 1) p).
  destruct (closed p) eqn:Hc.
  { rewrite GetClient_closed by exact Hc. cbn [fst snd]. fold p1.
    split; [reflexivity|]. split; [done|]. split; [done|]. split; [done|].
    split; [|done]. intros e [= <-]. by left. }
  rewrite GetClient_open by exact Hc. cbn zeta. fold p1.
  assert (Hh1 : getHealthyNodes p1 = getHealthyNodes p) by reflexivity.
  destruct (getHealthyNodes p) as [|h0 hs0] eqn:Hh.
  { rewrite selectNode_empty by exact Hh1. cbn [fst snd].
    split; [reflexivity|]. split; [done|]. split; [done|]. split; [done|].
    split; [|done]. intros e [= <-]. by right. }
  rewrite <- Hh in *.
  assert (Hne : getHealthyNodes p1 <> []) by (rewrite Hh1, Hh; done).
  pose proof (selectNode_selects env p1 Hne) as (Hn & Hr & Hf & Hsel).
  rewrite Hh1 in Hsel.
  assert (Hpre : selectorPrecondition p ->
                 exists i, fst (selectNode env p1) = Ok (Some i)).
  { intros Hp. apply selectNode_returns; [exact Hne | exact Hp]. }
  destruct (selectNode env p1) as [[[i|]|e|m] p2] eqn:Hs;
    cbn [fst snd] in *; try done.
  - destruct Hsel as [n Hin].
    pose proof (proj1 (getHealthyNodes_elem p i n) Hin) as [Hnode _].
    rewrite Hn. cbn [nodes p1 set_totalRequests]. rewrite Hnode.
    cbn [fst snd totalRequests totalFailures set_nodes].
    split; [exact Hr|]. split; [done|].
    split; [intros _ He; rewrite He in Hh; done|].
    split; [intros _ _ _; exists i, n; by rewrite Hf|].
    split; [done|].
    intros j c [= <- <-]. split; [reflexivity|]. by exists n.
  - split; [exact Hr|]. split; [done|].
    split; [intros _ He; rewrite He in Hh; done|].
    split; [intros _ _ Hp; destruct (Hpre Hp) as [i Hi]; done|].
    split; done.
  - split; [exact Hr|]. split; [done|].
    split; [intros _ He; rewrite He in Hh; done|].
    split; [intros _ _ Hp; destruct (Hpre Hp) as [i Hi]; done|].
    split; done.
Qed.

(** C1 amended, at three healthy nodes under [RoundRobin]. *)
Lemma GetClient_outcomes_witness :
  exists i n,
    fst (GetClient {| now := 1; src := 0 |} threePool) = Ok (i, Client n)
    /\ (i, n) ∈ getHealthyNodes threePool
    /\ totalFailures (snd (GetClient {| now := 1; src := 0 |} threePool))
       = totalFailures threePool.
Proof.
  apply (GetClient_outcomes {| now := 1; src := 0 |} threePool).
  - reflexivity.
  - vm_compute. discriminate.
  - vm_compute. discriminate.
Defined.

(** ** RoundRobin *)

Section Residues.

(** The size of the healthy set. *)
Variable N : Z.
Hypothesis N_pos : 0 < N.

(** Go's [%] agrees with the mathematical remainder whenever its result
    is not negative. *)
Lemma rem_nonneg_mod (c : Z) : 0 <= Z.rem c N -> Z.rem c N = c mod N.
Proof.
  intros Hr. destruct (Z_le_gt_dec 0 c) as [Hc|Hc].
  - by apply Z.rem_mod_nonneg.
  - pose proof (Z.rem_nonpos c N ltac:(lia) ltac:(lia)) as Hle.
    assert (Hz : Z.rem c N = 0) by lia.
    rewrite Hz. symmetry. apply Z.rem_mod_eq_0; [lia | exact Hz].
Qed.

(** An incremented counter that still indexes the healthy set is
    congruent to its predecessor plus one, also when it wraps. *)
Lemma wrap_step_mod (c : Z) :
  MinInt64 <= c <= MaxInt64 ->
  0 <= Z.rem (wrap64 (c + 1)) N ->
  Z.rem (wrap64 (c + 1)) N = (c + 1) mod N.
Proof.
  intros Hc Hr. rewrite rem_nonneg_mod by assumption.
  destruct (Z.eq_dec c MaxInt64) as [->|Hne].
  - change (wrap64 (MaxInt64 + 1)) with (- 2 ^ 63) in *.
    change (MaxInt64 + 1) with (2 ^ 63).
    pose proof (Z.rem_nonpos (- 2 ^ 63) N ltac:(lia) ltac:(lia)) as Hle.
    assert (Hz : Z.rem (- 2 ^ 63) N = 0) by lia.
    apply Z.rem_divide in Hz; [|lia].
    rewrite (Z.mod0_divide _ _ Hz).
    symmetry. apply Z.mod0_divide.
    destruct Hz as [q Hq]. exists (- q). lia.
  - rewrite wrap64_small; [reflexivity|].
    unfold MinInt64, MaxInt64 in *. lia.
Qed.

(** A residue of the healthy set's size. *)
Variable k : Z.
Hypothesis k_range : 0 <= k < N.

Lemma hits_step (b : Z) :
  (b - k) / N - (b - 1 - k) / N = if b mod N =? k then 1 else 0.
Proof.
  pose proof (Z.div_mod (b - k) N ltac:(lia)) as Hdm.
  pose proof (Z.mod_pos_bound (b - k) N N_pos) as Hbd.
  set (q := (b - k) / N) in *. set (t := (b - k) mod N) in *.
  destruct (Z.eq_dec t 0) as [Ht|Ht].
  - assert (Hd : (b - 1 - k) / N = q - 1)
      by (symmetry; apply (Zdiv_unique _ _ _ (N - 1)); lia).
    assert (Hm : b mod N = k)
      by (symmetry; apply (Zmod_unique _ _ q); lia).
    rewrite Hd, Hm, Z.eqb_refl. lia.
  - assert (Hd : (b - 1 - k) / N = q)
      by (symmetry; apply (Zdiv_unique _ _ _ (t - 1)); lia).
    assert (Hm : b mod N <> k).
    { destruct (Z_lt_ge_dec (k + t) N).
      - rewrite <- (Zmod_unique b N q (k + t)); lia.
      - rewrite <- (Zmod_unique b N (q + 1) (k + t - N)); lia. }
    destruct (Z.eqb_spec (b mod N) k); lia.
Qed.

Lemma hits_closed (a : Z) (n : nat) :
  Z.of_nat (hits N k a n) = (a + Z.of_nat n - k) / N - (a - k) / N.
Proof.
  revert a. induction n as [|n IH]; intros a; cbn [hits].
  - replace (a + Z.of_nat 0 - k) with (a - k) by lia. lia.
  - cbn zeta. pose proof (IH (a + 1)) as IH'.
    pose proof (hits_step (a + 1)) as Hs.
    replace (a + 1 - 1 - k) with (a - k) in Hs by lia.
    replace (a + Z.of_nat (S n) - k) with (a + 1 + Z.of_nat n - k) by lia.
    destruct (Z.eqb_spec ((a + 1) mod N) k); lia.
Qed.

(** Among [K * N] consecutive integers each residue modulo [N] occurs
    [K] times. *)
Lemma hits_full (a : Z) (K n : nat) :
  Z.of_nat n = Z.of_nat K * N -> hits N k a n = K.
Proof.
  intros Hn. apply Nat2Z.inj. rewrite hits_closed, Hn.
  replace (a + Z.of_nat K * N - k) with (a - k + Z.of_nat K * N) by lia.
  rewrite Z.div_add by lia. lia.
Qed.

End Residues.

(** Marking a node used does not change whether it is healthy, so the
    indices of the healthy set stay the same. *)
Lemma healthyFrom_insert (k : nat) (ns : list NodeConnection) (i : nat)
    (n n' : NodeConnection) :
  ns !! i = Some n -> nodeIsHealthy n' = nodeIsHealthy n ->
  (healthyFrom k (<[i := n']> ns)).*1 = (healthyFrom k ns).*1.
Proof.
  revert k i. induction ns as [|m ns IH]; intros k i Hi Hh; [discriminate|].
  destruct i as [|i]; cbn in Hi; cbn [healthyFrom].
  - injection Hi as ->. change (<[0%nat := n']> (n :: ns)) with (n' :: ns).
    cbn [healthyFrom]. rewrite Hh. by destruct (nodeIsHealthy n).
  - change (<[S i := n']> (m :: ns)) with (m :: <[i := n']> ns).
    cbn [healthyFrom]. destruct (nodeIsHealthy m); cbn [fmap list_fmap];
      by rewrite (IH (S k) i Hi Hh).
Qed.

Lemma healthy_index_inj (p : Pool) (I : list nat) (k1 k2 i : nat) :
  (getHealthyNodes p).*1 = I ->
  I !! k1 = Some i -> I !! k2 = Some i -> k1 = k2.
Proof.
  intros <-. rewrite !list_lookup_fmap. intros H1 H2.
  destruct (getHealthyNodes p !! k1) as [x|] eqn:Hx; [|discriminate].
  destruct (getHealthyNodes p !! k2) as [y|] eqn:Hy; [|discriminate].
  cbn in H1, H2. injection H1 as H1. injection H2 as H2.
  destruct (Nat.lt_trichotomy k1 k2) as [Hlt | [-> | Hgt]]; [|done|].
  - pose proof (healthyFrom_lt 0 (nodes p) k1 k2 x y Hx Hy Hlt). lia.
  - pose proof (healthyFrom_lt 0 (nodes p) k2 k1 y x Hy Hx Hgt). lia.
Qed.

(** One returning call under [RoundRobin]. *)
Lemma GetClient_RoundRobin_step (env : Env) (p : Pool) (i : nat)
    (c : option Facade.Client) :
  closed p = false ->
  LoadBalanceStrategy_ (config p) = RoundRobin ->
  getHealthyNodes p <> [] ->
  fst (GetClient env p) = Ok (i, c) ->
  let index := Z.rem (add64 (roundRobin p) 1)
                     (Z.of_nat (length (getHealthyNodes p))) in
  let p' := snd (GetClient env p) in
  0 <= index
  /\ (exists n, getHealthyNodes p !! Z.to_nat index = Some (i, n)
                /\ c = Client n)
  /\ closed p' = false
  /\ config p' = config p
  /\ roundRobin p' = add64 (roundRobin p) 1
  /\ (getHealthyNodes p').*1 = (getHealthyNodes p).*1.
Proof.
  intros Hopen Hs Hne. cbn zeta.
  rewrite GetClient_open by exact Hopen. cbn zeta.
  rewrite selectNode_RoundRobin by exact Hs.
  rewrite getClientRoundRobin_nonempty by exact Hne. cbn zeta.
  change (getHealthyNodes (set_totalRequests _ p)) with (getHealthyNodes p).
  cbn [roundRobin set_totalRequests].
  unfold index_at.
  destruct (Z.ltb_spec (Z.rem (add64 (roundRobin p) 1)
              (Z.of_nat (length (getHealthyNodes p)))) 0) as [|Hge];
    [discriminate|].
  destruct (getHealthyNodes p !! _) as [[j n]|] eqn:Hlook; [|discriminate].
  assert (Hin : (j, n) ∈ getHealthyNodes p)
    by (apply list_elem_of_lookup; eauto).
  pose proof (proj1 (getHealthyNodes_elem p j n) Hin) as [Hnode _].
  cbn [nodes set_roundRobin set_totalRequests]. rewrite Hnode.
  cbn [fst snd]. intros [= <- <-].
  split; [exact Hge|]. split; [by exists n|].
  split; [exact Hopen|]. split; [reflexivity|]. split; [reflexivity|].
  unfold getHealthyNodes. cbn [nodes set_nodes].
  by apply (healthyFrom_insert 0 (nodes p) j n).
Qed.

Lemma serial_cons (env : Env) (envs : list Env) (p : Pool) :
  serial (env :: envs) p
  = (fst (GetClient env p) :: fst (serial envs (snd (GetClient env p))),
     snd (serial envs (snd (GetClient env p)))).
Proof.
  cbn [serial]. destruct (GetClient env p) as [r p1]. cbn [fst snd].
  by destruct (serial envs p1).
Qed.

(** How often serial round-robin calls that all return hand out the
    node at position [k] of the healthy set. *)
Lemma serial_RoundRobin_count (I : list nat) (envs : list Env) :
  forall (p : Pool) (a : Z),
    closed p = false ->
    LoadBalanceStrategy_ (config p) = RoundRobin ->
    (getHealthyNodes p).*1 = I -> I <> [] ->
    wrap64 (roundRobin p) mod Z.of_nat (length I)
      = a mod Z.of_nat (length I) ->
    Forall isReturn (fst (serial envs p)) ->
    forall (k i : nat), I !! k = Some i ->
      count_occ Nat.eq_dec (omap returnedNode (fst (serial envs p))) i
      = hits (Z.of_nat (length I)) (Z.of_nat k) a (length envs).
Proof.
  induction envs as [|env envs IH];
    intros p a Hopen Hs HI Hne Ha Hret k i Hk; [reflexivity|].
  rewrite serial_cons in *. cbn [fst] in *.
  apply Forall_cons_1 in Hret as [(j & c & Hr) Hrest].
  assert (Hne' : getHealthyNodes p <> [])
    by (intros He; rewrite He in HI; cbn in HI; congruence).
  assert (HN : 0 < Z.of_nat (length I))
    by (destruct I; [done | cbn [length]; lia]).
  assert (Hlen : length (getHealthyNodes p) = length I)
    by (rewrite <- HI; symmetry; apply length_fmap).
  destruct (GetClient_RoundRobin_step env p j c Hopen Hs Hne' Hr)
    as (Hge & (n & Hlook & _) & Hopen' & Hcfg & Hrr & HI').
  rewrite Hlen in Hge, Hlook.
  assert (Hidx : Z.rem (add64 (roundRobin p) 1) (Z.of_nat (length I))
                 = (a + 1) mod Z.of_nat (length I)).
  { unfold add64 in *. rewrite <- wrap64_add_l in *.
    rewrite (wrap_step_mod _ HN); [| apply wrap64_range | exact Hge].
    rewrite Zplus_mod, Ha, <- Zplus_mod. reflexivity. }
  assert (Hj : I !! Z.to_nat ((a + 1) mod Z.of_nat (length I)) = Some j).
  { rewrite <- Hidx.
    assert (Hmap : (getHealthyNodes p).*1
                     !! Z.to_nat (Z.rem (add64 (roundRobin p) 1)
                                        (Z.of_nat (length I))) = Some j)
      by (rewrite list_lookup_fmap, Hlook; reflexivity).
    by rewrite HI in Hmap. }
  assert (Ha' : wrap64 (roundRobin (snd (GetClient env p)))
                  mod Z.of_nat (length I)
                = (a + 1) mod Z.of_nat (length I)).
  { rewrite Hrr, wrap64_small by apply wrap64_range.
    rewrite <- Hidx. symmetry. by apply (rem_nonneg_mod _ HN). }
  assert (Hs' : LoadBalanceStrategy_ (config (snd (GetClient env p)))
                = RoundRobin) by (by rewrite Hcfg).
  assert (HI'' : (getHealthyNodes (snd (GetClient env p))).*1 = I)
    by (by rewrite HI').
  pose proof (IH (snd (GetClient env p)) (a + 1) Hopen' Hs' HI'' Hne Ha'
                 Hrest k i Hk) as IHk.
  rewrite Hr.
  change (omap returnedNode (Ok (j, c) :: ?l))
    with (j :: omap returnedNode l).
  cbn [count_occ length hits]. cbn zeta. rewrite IHk.
  pose proof (Z.mod_pos_bound (a + 1) (Z.of_nat (length I)) HN) as Hb.
  destruct (Nat.eq_dec j i) as [->|Hji];
    destruct (Z.eqb_spec ((a + 1) mod Z.of_nat (length I)) (Z.of_nat k))
      as [He|Hnek]; try reflexivity.
  - exfalso. apply Hnek.
    rewrite (healthy_index_inj p I _ _ _ HI Hk Hj). lia.
  - exfalso. apply Hji. rewrite He, Nat2Z.id, Hk in Hj. congruence.
Qed.

Lemma GetClient_returns (env : Env) (p : Pool) :
  closed p = false -> getHealthyNodes p <> [] -> selectorPrecondition p ->
  isReturn (fst (GetClient env p)).
Proof.
  intros Hopen Hne Hpre. rewrite GetClient_open by exact Hopen. cbn zeta.
  set (p1 := set_totalRequests (add64 (totalRequests p) 1) p).
  assert (Hne1 : getHealthyNodes p1 <> []) by exact Hne.
  assert (Hpre1 : selectorPrecondition p1) by exact Hpre.
  destruct (selectNode_returns env p1 Hne1 Hpre1) as [i Hi].
  pose proof (selectNode_selects env p1 Hne1) as (Hn & _ & _ & Hsel).
  destruct (selectNode env p1) as [r p2]. cbn [fst snd] in *. subst r.
  destruct Hsel as [n Hin].
  pose proof (proj1 (getHealthyNodes_elem p1 i n) Hin) as [Hnode _].
  rewrite Hn, Hnode. by exists i, (Client n).
Qed.

(** While the counter does not wrap, serial round-robin calls all
    return. *)
Lemma serial_RoundRobin_returns (envs : list Env) :
  forall p : Pool,
    closed p = false ->
    LoadBalanceStrategy_ (config p) = RoundRobin ->
    getHealthyNodes p <> [] ->
    0 <= roundRobin p ->
    roundRobin p + Z.of_nat (length envs) <= MaxInt64 ->
    Forall isReturn (fst (serial envs p)).
Proof.
  induction envs as [|env envs IH]; intros p Hopen Hs Hne H0 Hmax;
    [constructor|].
  rewrite serial_cons. cbn [fst]. cbn [length] in Hmax.
  assert (Hadd : add64 (roundRobin p) 1 = roundRobin p + 1).
  { apply wrap64_small. unfold MinInt64, MaxInt64 in *. lia. }
  assert (Hpre : selectorPrecondition p).
  { unfold selectorPrecondition. rewrite Hs. cbn.
    unfold counterReady. lia. }
  pose proof (GetClient_returns env p Hopen Hne Hpre) as Hret.
  constructor; [exact Hret|].
  destruct Hret as (i & c & Hr).
  destruct (GetClient_RoundRobin_step env p i c Hopen Hs Hne Hr)
    as (_ & _ & Hopen' & Hcfg & Hrr & HI').
  apply IH.
  - exact Hopen'.
  - by rewrite Hcfg.
  - intros He. rewrite He in HI'. destruct (getHealthyNodes p); done.
  - lia.
  - lia.
Qed.

(** C2: under [RoundRobin] with a non-empty healthy set, a call that
    returns hands out the healthy node at index (incremented counter) mod
    (size of the healthy set) and stores the incremented counter; so, with
    [N] healthy nodes and nothing but serial [GetClient] calls, whenever
    [K * N] consecutive calls return, each healthy node is returned exactly
    [K] times; and the calls do return as long as the counter stays within
    the non-negative 64-bit integers. *)
Theorem GetClient_RoundRobin_fair (p : Pool) :
  closed p = false ->
  LoadBalanceStrategy_ (config p) = RoundRobin ->
  getHealthyNodes p <> [] ->
  let N := length (getHealthyNodes p) in
  (forall env i c,
     fst (GetClient env p) = Ok (i, c) ->
     let counter := add64 (roundRobin p) 1 in
     Z.rem counter (Z.of_nat N) = counter mod Z.of_nat N
     /\ (exists n,
           getHealthyNodes p !! Z.to_nat (counter mod Z.of_nat N)
             = Some (i, n)
           /\ c = Client n)
     /\ roundRobin (snd (GetClient env p)) = counter)
  /\ (forall (K : nat) (envs : list Env),
        length envs = (K * N)%nat ->
        Forall isReturn (fst (serial envs p)) ->
        forall i n, (i, n) ∈ getHealthyNodes p ->
          count_occ Nat.eq_dec (omap returnedNode (fst (serial envs p))) i
          = K)
  /\ (forall envs : list Env,
        0 <= roundRobin p ->
        roundRobin p + Z.of_nat (length envs) <= MaxInt64 ->
        Forall isReturn (fst (serial envs p))).
Proof.
  intros Hopen Hs Hne N.
  assert (HN : 0 < Z.of_nat N)
    by (subst N; destruct (getHealthyNodes p); [done | cbn [length]; lia]).
  split; [|split].
  - intros env i c Hr. cbn zeta.
    destruct (GetClient_RoundRobin_step env p i c Hopen Hs Hne Hr)
      as (Hge & (n & Hlook & Hc) & _ & _ & Hrr & _).
    fold N in Hge, Hlook.
    pose proof (rem_nonneg_mod _ HN _ Hge) as Hrem.
    split; [exact Hrem|]. split; [|exact Hrr].
    exists n. by rewrite <- Hrem.
  - intros K envs Hlen Hret i n Hin.
    apply list_elem_of_lookup in Hin as [k Hk].
    assert (HkI : (getHealthyNodes p).*1 !! k = Some i)
      by (rewrite list_lookup_fmap, Hk; reflexivity).
    assert (HlenI : length (getHealthyNodes p).*1 = N)
      by apply length_fmap.
    rewrite (serial_RoundRobin_count (getHealthyNodes p).*1 envs p
               (wrap64 (roundRobin p)) Hopen Hs eq_refl
               ltac:(by destruct (getHealthyNodes p)) eq_refl Hret k i HkI).
    rewrite HlenI. apply (hits_full _ HN); [|lia].
    apply lookup_lt_Some in Hk. fold N in Hk. lia.
  - intros envs H0 Hmax.
    by apply serial_RoundRobin_returns.
Qed.

(** C2 at three healthy nodes and six calls: the second node is returned
    twice. *)
Lemma GetClient_RoundRobin_fair_witness :
  count_occ Nat.eq_dec (omap returnedNode (fst (serial sixCalls threePool)))
            1%nat
  = 2%nat.
Proof.
  assert (Hne : getHealthyNodes threePool <> [])
    by (vm_compute; discriminate).
  destruct (GetClient_RoundRobin_fair threePool eq_refl eq_refl Hne)
    as (_ & Hfair & Hret).
  apply (Hfair 2%nat sixCalls eq_refl) with (n := liveNode "amqp://b" 1 0).
  - apply Hret; vm_compute; discriminate.
  - apply list_elem_of_lookup. exists 1%nat. reflexivity.
Defined.

(** ** Connector *)

(** The connection attempt of [connectToNode] fails exactly when the
    broker does not establish the connection. *)
Lemma nodeClient_Connect (dial : string -> Facade.Attempt) (p : Pool)
    (n : NodeConnection) :
  fst (Facade.Connect dial (nodeClient p n))
  = match dial (URL n) with
    | Facade.DialError e =>
        Some ("failed to connect to any RabbitMQ server: "
              ++ "failed to dial: " ++ e)
    | Facade.ChannelError e =>
        Some ("failed to connect to any RabbitMQ server: "
              ++ "failed to open channel: " ++ e)
    | Facade.QosError e =>
        Some ("failed to connect to any RabbitMQ server: "
              ++ "failed to set QoS: " ++ e)
    | Facade.Established _ _ => None
    end.
Proof.
  unfold Facade.Connect, nodeClient, Facade.NewClient.
  cbn [Facade.connected Facade.config Facade.URLs Facade.connectLoop].
  by destruct (dial (URL n)).
Qed.

(** C4: when the connection attempt of [connectToNode] fails, the node's
    [failures] is incremented, [healthy] is cleared, and a one-shot timer is
    armed that calls [connectToNode] again after [ReconnectInterval]; this
    holds for every pool, whether [Close] was called or not, since neither
    the closed flag nor the context is read. *)
Theorem connectToNode_failure_rearms (dial : string -> Facade.Attempt)
    (p : Pool) (i : nat) (n : NodeConnection) :
  nodes p !! i = Some n ->
  connecting n = false ->
  (forall conn ch, dial (URL n) <> Facade.Established conn ch) ->
  connectToNode dial i p
  = (set_nodes
       (<[i := set_connecting false
                 (set_healthy false
                    (set_failures (add64 (failures n) 1) n))]> (nodes p)) p,
     [AfterFunc (ReconnectInterval (config p)) (connectToNodeTask i)]).
Proof.
  intros Hi Hc Hfail. unfold connectToNode. rewrite Hi, Hc.
  pose proof (nodeClient_Connect dial p n) as HC.
  destruct (Facade.Connect dial (nodeClient p n)) as [[e|] c];
    [reflexivity|].
  cbn [fst] in HC. destruct (dial (URL n)) as [| | |conn ch];
    try discriminate.
  by destruct (Hfail conn ch).
Qed.

(** C4 on a pool that was closed while its reconnect timer was pending:
    when the timer fires, the connector dials, counts a second failure and
    arms the next timer. *)
Lemma connectToNode_failure_rearms_witness :
  closed closedWithTimer = true
  /\ ctxDone closedWithTimer = true
  /\ failures <$> nodes closedWithTimer = [1]
  /\ failures <$> nodes (fst (connectToNode refusedDial 0 closedWithTimer))
     = [2]
  /\ snd (connectToNode refusedDial 0 closedWithTimer)
     = [AfterFunc (5 * Second) (connectToNodeTask 0)].
Proof.
  split; [reflexivity|]. split; [reflexivity|]. split; [reflexivity|].
  rewrite (connectToNode_failure_rearms refusedDial closedWithTimer 0%nat
             (set_connecting false
                (set_healthy false
                   (set_failures 1 (newNode 0 "amqp://a"))))
             eq_refl eq_refl ltac:(discriminate)).
  split; reflexivity.
Defined.

(** After [Close], a pending timer whose dial succeeds installs a new
    client, marks the node healthy and starts a watcher. *)
Lemma connectToNode_connects_after_Close :
  closed closedWithTimer = true
  /\ nodeIsHealthy
       <$> nodes (fst (connectToNode acceptingDial 0 closedWithTimer))
     = [true]
  /\ snd (connectToNode acceptingDial 0 closedWithTimer)
     = [Go (watchNodeConnectionTask 0)].
Proof. repeat split. Qed.

(** * Further properties of the pool *)

(** ** After Close *)

Lemma Close_sets_closed (p : Pool) : closed (snd (Close p)) = true.
Proof.
  unfold Close. destruct (closed p) eqn:Hc; [exact Hc|].
  by destruct (closeLoop (nodes p) []).
Qed.

Lemma serial_closed (envs : list Env) :
  forall p : Pool,
    closed p = true ->
    Forall (fun r => r = Err errPoolClosed) (fst (serial envs p))
    /\ nodes (snd (serial envs p)) = nodes p
    /\ totalFailures (snd (serial envs p)) = totalFailures p
    /\ closed (snd (serial envs p)) = true.
Proof.
  induction envs as [|env envs IH]; intros p Hc; [by repeat split|].
  rewrite serial_cons, GetClient_closed by exact Hc. cbn [fst snd].
  destruct (IH (set_totalRequests (add64 (totalRequests p) 1) p) Hc)
    as (Hall & Hn & Hf & Hcl).
  repeat split; [by constructor | exact Hn | exact Hf | exact Hcl].
Qed.

(** X1: After [Close] the pool is out of service for good: [Start] fails with
    "pool is closed" and starts nothing, and every call of any series of
    [GetClient] calls fails with "pool is closed", touching neither the
    nodes nor [totalFailures]. *)
Theorem Close_is_final (p : Pool) (envs : list Env) :
  let q := snd (Close p) in
  Start q = (Err "pool is closed", q, [])
  /\ Forall (fun r => r = Err errPoolClosed) (fst (serial envs q))
  /\ nodes (snd (serial envs q)) = nodes q
  /\ totalFailures (snd (serial envs q)) = totalFailures q.
Proof.
  cbn zeta. pose proof (Close_sets_closed p) as Hc. split.
  - unfold Start. by rewrite Hc.
  - destruct (serial_closed envs (snd (Close p)) Hc) as (H1 & H2 & H3 & _).
    by repeat split.
Qed.

Lemma closeNode_not_healthy (n : NodeConnection) :
  nodeIsHealthy (closeNode n) = false.
Proof.
  unfold closeNode, nodeIsHealthy, clientConnected.
  destruct (Client n) as [c|] eqn:Hc.
  - cbn [Client set_Client healthy].
    change (Facade.IsConnected (snd (Facade.Close c))) with false.
    apply andb_false_r.
  - rewrite Hc. apply andb_false_r.
Qed.

Lemma closeNode_healthy (n : NodeConnection) :
  healthy (closeNode n) = healthy n.
Proof. unfold closeNode. by destruct (Client n). Qed.

Lemma healthyFrom_none (k : nat) (ns : list NodeConnection) :
  Forall (fun n => nodeIsHealthy n = false) ns -> healthyFrom k ns = [].
Proof.
  intros H. revert k. induction H as [|n ns Hn _ IH]; intros k;
    cbn [healthyFrom]; [reflexivity|].
  rewrite Hn. apply IH.
Qed.

Lemma Close_open_nodes (p : Pool) :
  closed p = false -> nodes (snd (Close p)) = map closeNode (nodes p).
Proof.
  intros Hc. unfold Close. rewrite Hc, closeLoop_spec. reflexivity.
Qed.

(** X2: [Close] on an open pool disconnects every client, so the healthy set
    becomes empty and [GetHealthyNodeCount] is 0; but it does not clear the
    [healthy] flags, so [GetStats] goes on reporting the number of healthy
    nodes it reported before, each with [Connected] false. *)
Theorem Close_leaves_stale_flags (p : Pool) :
  closed p = false ->
  let q := snd (Close p) in
  getHealthyNodes q = []
  /\ GetHealthyNodeCount q = 0
  /\ Stats.HealthyNodes (GetStats q) = Stats.HealthyNodes (GetStats p)
  /\ Forall (fun s => Stats.Connected s = false)
            (Stats.NodesStats (GetStats q)).
Proof.
  intros Hc q. subst q.
  assert (Hall : Forall (fun n => nodeIsHealthy n = false)
                        (nodes (snd (Close p)))).
  { rewrite Close_open_nodes by exact Hc. apply Forall_fmap, Forall_true.
    intros n. apply closeNode_not_healthy. }
  split; [by apply healthyFrom_none|].
  split.
  { unfold GetHealthyNodeCount. rewrite countLoop_filter.
    induction Hall as [|n ns Hn _ IH]; [reflexivity|].
    cbn [List.filter]. by rewrite Hn. }
  unfold GetStats. rewrite !statsLoop_filter. cbn [Stats.HealthyNodes
    Stats.NodesStats app]. rewrite Close_open_nodes by exact Hc.
  split.
  - do 2 f_equal. induction (nodes p) as [|n ns IH]; [reflexivity|].
    cbn [map List.filter]. rewrite closeNode_healthy.
    destruct (healthy n); cbn [length]; by rewrite IH.
  - apply Forall_fmap, Forall_fmap, Forall_true. intros n. cbn.
    pose proof (closeNode_not_healthy n) as H.
    unfold closeNode, clientConnected in *.
    destruct (Client n) as [c|] eqn:Hcl; [reflexivity|]. by rewrite Hcl.
Qed.

(** The stale flags on a started pool with two connected nodes. *)
Lemma Close_leaves_stale_flags_witness :
  GetHealthyNodeCount (snd (Close startedPool)) = 0
  /\ Stats.HealthyNodes (GetStats (snd (Close startedPool))) = 2.
Proof.
  destruct (Close_leaves_stale_flags startedPool eq_refl)
    as (_ & Hcount & Hstats & _).
  split; [exact Hcount | exact Hstats].
Defined.

(** ** Readiness *)

Lemma healthyFrom_length (k : nat) (ns : list NodeConnection) :
  length (healthyFrom k ns) = length (List.filter nodeIsHealthy ns).
Proof.
  revert k. induction ns as [|n ns IH]; intros k;
    cbn [healthyFrom List.filter]; [reflexivity|].
  destruct (nodeIsHealthy n); cbn [length]; by rewrite IH.
Qed.

Lemma GetHealthyNodeCount_length (p : Pool) :
  GetHealthyNodeCount p = Z.of_nat (length (getHealthyNodes p)).
Proof.
  unfold GetHealthyNodeCount, getHealthyNodes.
  rewrite countLoop_filter, healthyFrom_length. lia.
Qed.

(** X3: [GetHealthyNodeCount] is the size of the set [GetClient] selects from:
    on an open pool, [GetClient] fails with "no healthy nodes available"
    exactly when the count is 0, and it then counts a failure; when the
    count is positive it returns no error at all. *)
Theorem GetHealthyNodeCount_readiness (env : Env) (p : Pool) :
  closed p = false ->
  GetHealthyNodeCount p = Z.of_nat (length (getHealthyNodes p))
  /\ (GetHealthyNodeCount p = 0 <->
      fst (GetClient env p) = Err errNoHealthyNodes)
  /\ (GetHealthyNodeCount p = 0 ->
      totalFailures (snd (GetClient env p)) = add64 (totalFailures p) 1)
  /\ (0 < GetHealthyNodeCount p ->
      forall e, fst (GetClient env p) <> Err e).
Proof.
  intros Hopen. pose proof (GetHealthyNodeCount_length p) as Hlen.
  split; [exact Hlen|].
  rewrite GetClient_open by exact Hopen. cbn zeta.
  set (p1 := set_totalRequests (add64 (totalRequests p) 1) p).
  assert (Hh1 : getHealthyNodes p1 = getHealthyNodes p) by reflexivity.
  destruct (getHealthyNodes p) as [|h hs] eqn:Hh.
  - rewrite selectNode_empty by exact Hh1. cbn [fst snd].
    split; [done|]. split; [done|]. cbn [length] in Hlen. lia.
  - assert (Hne : getHealthyNodes p1 <> []) by (by rewrite Hh1).
    pose proof (selectNode_selects env p1 Hne) as (Hn & _ & _ & Hsel).
    cbn [length] in Hlen.
    destruct (selectNode env p1) as [[[i|]|e|m] p2]; cbn [fst snd] in *;
      try done.
    + destruct (nodes p2 !! i); cbn [fst];
        (split; [split; [lia | discriminate]|]);
        (split; [lia|]); intros _ e; discriminate.
    + split; [split; [lia | discriminate]|]. split; [lia|].
      intros _ e; discriminate.
    + split; [split; [lia | discriminate]|]. split; [lia|].
      intros _ e; discriminate.
Qed.

(** Readiness on a pool that has just been built: no node is healthy. *)
Lemma GetHealthyNodeCount_readiness_witness :
  fst (GetClient {| now := 1; src := 0 |} freshPool) = Err errNoHealthyNodes.
Proof.
  apply (proj1 (proj2 (GetHealthyNodeCount_readiness
                         {| now := 1; src := 0 |} freshPool eq_refl))).
  reflexivity.
Defined.

(** ** The snapshot of GetStats *)

(** X4: [GetStats] describes the nodes in their order, one entry per node, and
    copies the two request counters; its count of healthy nodes is the
    number of its entries that say [Healthy], which lies between the count
    of [GetHealthyNodeCount] and the number of nodes. *)
Theorem GetStats_snapshot (p : Pool) :
  let s := GetStats p in
  Stats.NodesStats s = map nodeStat (nodes p)
  /\ Stats.TotalNodes s = Z.of_nat (length (Stats.NodesStats s))
  /\ Stats.URL <$> Stats.NodesStats s = URL <$> nodes p
  /\ Stats.HealthyNodes s
     = Z.of_nat (length (List.filter Stats.Healthy (Stats.NodesStats s)))
  /\ 0 <= GetHealthyNodeCount p <= Stats.HealthyNodes s
  /\ Stats.HealthyNodes s <= Stats.TotalNodes s
  /\ (Stats.TotalRequests s, Stats.TotalFailures s)
     = (totalRequests p, totalFailures p).
Proof.
  cbn zeta. unfold GetStats. rewrite statsLoop_filter.
  cbn [Stats.NodesStats Stats.TotalNodes Stats.HealthyNodes
       Stats.TotalRequests Stats.TotalFailures app].
  split; [reflexivity|]. split; [by rewrite length_map|].
  split. { rewrite <- list_fmap_compose. reflexivity. }
  assert (Hf : forall ns : list NodeConnection,
             length (List.filter Stats.Healthy (map nodeStat ns))
             = length (List.filter healthy ns)).
  { induction ns as [|n ns IH]; [reflexivity|]. cbn [map List.filter].
    cbn [nodeStat Stats.Healthy]. destruct (healthy n); cbn [length];
      by rewrite IH. }
  split; [by rewrite Hf|].
  split.
  { unfold GetHealthyNodeCount. rewrite countLoop_filter.
    pose proof (filter_healthy_le (nodes p)). lia. }
  split; [|reflexivity].
  pose proof (List.filter_length_le healthy (nodes p)). lia.
Qed.

(** ** SetNodeWeight *)

Lemma setWeightLoop_none (url : string) (w : Z) (ns : list NodeConnection) :
  setWeightLoop url w ns = None <-> (forall n, n ∈ ns -> URL n <> url).
Proof.
  induction ns as [|m ns IH]; cbn [setWeightLoop].
  - split; [intros _ n Hn; inversion Hn | done].
  - destruct (String.eqb_spec (URL m) url) as [Heq|Hne].
    + split; [discriminate|]. intros H. destruct (H m); [by left | exact Heq].
    + destruct (setWeightLoop url w ns) as [ns'|] eqn:Hl.
      * split; [discriminate|]. intros H. exfalso.
        assert (Hrest : forall n, n ∈ ns -> URL n <> url)
          by (intros n Hn; apply H; by right).
        apply IH in Hrest. discriminate.
      * split; [|done]. intros _ n Hn. apply elem_of_cons in Hn as [->|Hn];
          [exact Hne|]. by apply (proj1 IH).
Qed.

Lemma setWeightLoop_sameButWeight (url : string) (w : Z)
    (ns ns' : list NodeConnection) :
  setWeightLoop url w ns = Some ns' -> Forall2 sameButWeight ns ns'.
Proof.
  revert ns'. induction ns as [|m ns IH]; intros ns'; cbn [setWeightLoop];
    [discriminate|].
  destruct (String.eqb (URL m) url).
  - intros [= <-]. constructor; [reflexivity|].
    apply Forall2_same_length_lookup_2; [reflexivity|].
    intros i x y Hx Hy. rewrite Hx in Hy. by injection Hy as ->.
  - destruct (setWeightLoop url w ns) as [rest|]; [|discriminate].
    intros [= <-]. constructor; [reflexivity | by apply IH].
Qed.

(** X5: [SetNodeWeight] fails exactly when no node has the URL; it then
    returns "node not found: " followed by the URL and leaves the pool as
    it is.  It never looks at the closed flag, and never changes it. *)
Theorem SetNodeWeight_unknown_url (url : string) (w : Z) (p : Pool) :
  ((forall n, n ∈ nodes p -> URL n <> url) <->
   SetNodeWeight url w p = (Some ("node not found: " ++ url), p))
  /\ ((exists n, n ∈ nodes p /\ URL n = url) <->
      fst (SetNodeWeight url w p) = None)
  /\ closed (snd (SetNodeWeight url w p)) = closed p.
Proof.
  unfold SetNodeWeight.
  pose proof (setWeightLoop_none url w (nodes p)) as Hnone.
  destruct (setWeightLoop url w (nodes p)) as [ns|] eqn:Hl.
  - split; [|split; [|reflexivity]].
    + split; [|discriminate]. intros H.
      destruct Hnone as [_ Hn]. by specialize (Hn H).
    + split; [reflexivity|]. intros _.
      destruct (decide (Exists (fun n => URL n = url) (nodes p)))
        as [Hex|Hno].
      * apply Exists_exists in Hex. exact Hex.
      * exfalso. destruct Hnone as [_ Hn].
        assert (Hall : forall n, n ∈ nodes p -> URL n <> url).
        { intros n Hin Hu. apply Hno, Exists_exists. by exists n. }
        by specialize (Hn Hall).
  - destruct Hnone as [Hn _]. specialize (Hn eq_refl).
    split; [done|]. split; [|reflexivity]. cbn [fst].
    split; [|discriminate]. intros (n & Hin & Hu). by destruct (Hn n Hin).
Qed.

Lemma sameButWeight_fields (a b : NodeConnection) :
  sameButWeight a b ->
  URL a = URL b /\ Client a = Client b /\ healthy a = healthy b
  /\ totalUsed a = totalUsed b /\ failures a = failures b
  /\ lastUsed a = lastUsed b /\ nodeIsHealthy a = nodeIsHealthy b.
Proof.
  unfold sameButWeight, set_weight, nodeIsHealthy, clientConnected.
  intros [= -> -> -> -> -> ->]. by repeat split.
Qed.

Lemma healthyFrom_sameButWeight (k : nat) (ns ns' : list NodeConnection) :
  Forall2 sameButWeight ns ns' ->
  Forall2 (fun x y => x.1 = y.1 /\ sameButWeight x.2 y.2)
          (healthyFrom k ns) (healthyFrom k ns').
Proof.
  intros H. revert k. induction H as [|a b ns ns' Hab _ IH]; intros k;
    cbn [healthyFrom]; [constructor|].
  destruct (sameButWeight_fields a b Hab) as (_ & _ & _ & _ & _ & _ & Hh).
  rewrite Hh. destruct (nodeIsHealthy b); [|apply IH].
  constructor; [by split | apply IH].
Qed.

Lemma statsLoop_nodes (p : Pool) :
  Stats.NodesStats (GetStats p) = map nodeStat (nodes p).
Proof. unfold GetStats. by rewrite statsLoop_filter. Qed.

Lemma filter_length_set_weight (f : NodeConnection -> bool) :
  (forall w n, f (set_weight w n) = f n) ->
  forall (ns : list NodeConnection) (k : nat) (m : NodeConnection) (w : Z),
    ns !! k = Some m ->
    length (List.filter f (<[k := set_weight w m]> ns))
    = length (List.filter f ns).
Proof.
  intros Hf. induction ns as [|a ns IH]; intros k m w Hk; [discriminate|].
  destruct k as [|k]; cbn in Hk.
  - injection Hk as ->. change (<[0%nat := set_weight w m]> (m :: ns))
      with (set_weight w m :: ns).
    cbn [List.filter]. rewrite Hf. by destruct (f m).
  - change (<[S k := set_weight w m]> (a :: ns))
      with (a :: <[k := set_weight w m]> ns).
    cbn [List.filter]. destruct (f a); cbn [length];
      by rewrite (IH k m w Hk).
Qed.

(** X6: [SetNodeWeight] and [GetStats]: after a successful call the entry of
    the first node with the URL reports the new weight and nothing else
    new; every other entry, a later node with the same URL included, and
    all the counts are as before. *)
Theorem SetNodeWeight_GetStats (url : string) (w : Z) (p : Pool) (i : nat)
    (n : NodeConnection) :
  nodes p !! i = Some n ->
  URL n = url ->
  (forall j m, (j < i)%nat -> nodes p !! j = Some m -> URL m <> url) ->
  let q := snd (SetNodeWeight url w p) in
  Stats.NodesStats (GetStats q) !! i = Some (nodeStat (set_weight w n))
  /\ Stats.Weight <$> Stats.NodesStats (GetStats q) !! i = Some w
  /\ (forall j, j <> i ->
        Stats.NodesStats (GetStats q) !! j
        = Stats.NodesStats (GetStats p) !! j)
  /\ (Stats.TotalNodes (GetStats q), Stats.HealthyNodes (GetStats q),
      Stats.TotalRequests (GetStats q), Stats.TotalFailures (GetStats q))
     = (Stats.TotalNodes (GetStats p), Stats.HealthyNodes (GetStats p),
        Stats.TotalRequests (GetStats p), Stats.TotalFailures (GetStats p))
  /\ GetHealthyNodeCount q = GetHealthyNodeCount p.
Proof.
  intros Hi Hurl Hfirst q.
  assert (Hq : q = set_nodes (<[i := set_weight w n]> (nodes p)) p).
  { subst q. unfold SetNodeWeight.
    by rewrite (setWeightLoop_first url w _ i n Hi Hurl Hfirst). }
  rewrite Hq. rewrite !statsLoop_nodes. cbn [nodes set_nodes].
  assert (Hlt : (i < length (nodes p))%nat) by (by eapply lookup_lt_Some).
  assert (Hl : map nodeStat (<[i := set_weight w n]> (nodes p)) !! i
               = Some (nodeStat (set_weight w n))).
  { change (map nodeStat ?l) with (nodeStat <$> l).
    by rewrite list_lookup_fmap, list_lookup_insert_eq. }
  split; [exact Hl|]. split; [by rewrite Hl|].
  split.
  { intros j Hj. change (map nodeStat ?l) with (nodeStat <$> l).
    by rewrite !list_lookup_fmap, list_lookup_insert_ne. }
  pose proof (filter_length_set_weight healthy
                ltac:(reflexivity) (nodes p) i n w Hi) as Hh.
  pose proof (filter_length_set_weight nodeIsHealthy
                ltac:(reflexivity) (nodes p) i n w Hi) as Hc.
  split.
  - unfold GetStats. rewrite !statsLoop_filter.
    cbn [Stats.TotalNodes Stats.HealthyNodes Stats.TotalRequests
         Stats.TotalFailures nodes set_nodes totalRequests totalFailures].
    by rewrite length_insert, Hh.
  - unfold GetHealthyNodeCount. rewrite !countLoop_filter.
    cbn [nodes set_nodes]. by rewrite Hc.
Qed.

(** The round trip on two nodes that share a URL: only the first one gets
    the weight. *)
Lemma SetNodeWeight_GetStats_witness :
  Stats.Weight
    <$> Stats.NodesStats
          (GetStats (snd (SetNodeWeight "amqp://a" 7
             (poolOf RoundRobin [liveNode "amqp://a" 1 0;
                                 liveNode "amqp://a" 1 0]))))
  = [7; 1].
Proof.
  pose proof (SetNodeWeight_GetStats "amqp://a" 7
    (poolOf RoundRobin [liveNode "amqp://a" 1 0; liveNode "amqp://a" 1 0])
    0%nat (liveNode "amqp://a" 1 0) eq_refl eq_refl
    ltac:(intros; lia)) as (_ & H0 & H1 & _).
  specialize (H1 1%nat ltac:(lia)).
  apply list_eq. intros [|[|j]].
  - rewrite list_lookup_fmap. exact H0.
  - rewrite list_lookup_fmap, H1. reflexivity.
  - reflexivity.
Defined.

(** *** Weights and the other strategies *)

Section WeightBlind.

(** Two healthy sets that list the same nodes up to their weights. *)
Variables hs hs' : list (nat * NodeConnection).
Hypothesis Hrel :
  Forall2 (fun x y => x.1 = y.1 /\ sameButWeight x.2 y.2) hs hs'.

Lemma index_at_sameButWeight (index : Z) :
  match index_at hs index, index_at hs' index with
  | Ok x, Ok y => x.1 = y.1
  | Panic m, Panic m' => m = m'
  | _, _ => False
  end.
Proof.
  unfold index_at. destruct (index <? 0); [reflexivity|].
  destruct (hs !! Z.to_nat index) as [x|] eqn:Hx.
  - destruct (Forall2_lookup_l _ _ _ _ _ Hrel Hx) as (y & -> & Hxy & _).
    exact Hxy.
  - apply lookup_ge_None in Hx. rewrite (Forall2_length _ _ _ Hrel) in Hx.
    by rewrite (proj2 (lookup_ge_None hs' _) Hx).
Qed.

End WeightBlind.

Lemma leastUsedLoop_sameButWeight (hs hs' : list (nat * NodeConnection)) :
  Forall2 (fun x y => x.1 = y.1 /\ sameButWeight x.2 y.2) hs hs' ->
  forall minUsed sel,
    leastUsedLoop hs minUsed sel = leastUsedLoop hs' minUsed sel.
Proof.
  induction 1 as [|[i a] [j b] hs hs' [Hij Hab] _ IH]; intros minUsed sel;
    cbn [leastUsedLoop]; [reflexivity|].
  cbn in Hij, Hab. subst j.
  destruct (sameButWeight_fields a b Hab) as (_ & _ & _ & -> & _).
  destruct (totalUsed b <? minUsed); apply IH.
Qed.

Lemma selectNode_nodes (env : Env) (p : Pool) :
  nodes (snd (selectNode env p)) = nodes p.
Proof.
  destruct (getHealthyNodes p) as [|h hs] eqn:Hh.
  - by rewrite selectNode_empty.
  - assert (Hne : getHealthyNodes p <> []) by (by rewrite Hh).
    by destruct (selectNode_selects env p Hne) as (Hn & _).
Qed.

(** The node chosen under a strategy other than [WeightedRoundRobin]
    does not depend on the weights. *)
Lemma selectNode_weight_blind (env : Env) (p q : Pool) :
  config q = config p -> roundRobin q = roundRobin p ->
  Forall2 sameButWeight (nodes p) (nodes q) ->
  LoadBalanceStrategy_ (config p) <> WeightedRoundRobin ->
  fst (selectNode env p) = fst (selectNode env q).
Proof.
  intros Hcfg Hrr Hns Hs.
  pose proof (healthyFrom_sameButWeight 0 _ _ Hns) as Hh.
  fold (getHealthyNodes p) (getHealthyNodes q) in Hh.
  pose proof (Forall2_length _ _ _ Hh) as Hlen.
  assert (HRR : fst (getClientRoundRobin p) = fst (getClientRoundRobin q)).
  { unfold getClientRoundRobin. rewrite <- Hlen, Hrr.
    destruct (length (getHealthyNodes p) =? 0)%nat; [reflexivity|].
    pose proof (index_at_sameButWeight _ _ Hh
      (Z.rem (add64 (roundRobin p) 1)
             (Z.of_nat (length (getHealthyNodes p))))) as Hat.
    destruct (index_at (getHealthyNodes p) _) as [[i a]|e|m];
      destruct (index_at (getHealthyNodes q) _) as [[j b]|e'|m'];
      cbn in Hat; try done; cbn [fst]; congruence. }
  unfold selectNode. rewrite Hcfg in *.
  destruct (_ =? RoundRobin); [exact HRR|].
  destruct (_ =? Random).
  { unfold getClientRandom. rewrite <- Hlen.
    destruct (length (getHealthyNodes p) =? 0)%nat; [reflexivity|].
    destruct (Intn _ _) as [index|e|m]; [|reflexivity|reflexivity].
    pose proof (index_at_sameButWeight _ _ Hh index) as Hat.
    destruct (index_at (getHealthyNodes p) _) as [[i a]|e|m];
      destruct (index_at (getHealthyNodes q) _) as [[j b]|e'|m'];
      cbn in Hat; try done; cbn [fst]; congruence. }
  destruct (_ =? LeastUsed).
  { unfold getClientLeastUsed. rewrite <- Hlen.
    destruct (length (getHealthyNodes p) =? 0)%nat; [reflexivity|].
    cbn [fst]. by rewrite (leastUsedLoop_sameButWeight _ _ Hh). }
  destruct (Z.eqb_spec (LoadBalanceStrategy_ (config p)) WeightedRoundRobin);
    [done | exact HRR].
Qed.

(** X7: Weights matter to [WeightedRoundRobin] alone: under every other
    strategy [GetClient] gives the same result, the same node and client
    or the same error, after a [SetNodeWeight] as before it, whatever the
    URL and the weight. *)
Theorem SetNodeWeight_other_strategies (env : Env) (url : string) (w : Z)
    (p : Pool) :
  LoadBalanceStrategy_ (config p) <> WeightedRoundRobin ->
  fst (GetClient env (snd (SetNodeWeight url w p))) = fst (GetClient env p).
Proof.
  intros Hs. unfold SetNodeWeight.
  destruct (setWeightLoop url w (nodes p)) as [ns|] eqn:Hl; [|reflexivity].
  cbn [snd]. apply setWeightLoop_sameButWeight in Hl.
  unfold GetClient. cbn [closed set_totalRequests set_nodes].
  destruct (closed p); [reflexivity|].
  set (p1 := set_totalRequests (add64 (totalRequests p) 1) p).
  set (q1 := set_totalRequests _ (set_nodes ns p)).
  pose proof (selectNode_weight_blind env p1 q1 eq_refl eq_refl Hl Hs)
    as Hsel.
  pose proof (selectNode_nodes env p1) as Hn1.
  pose proof (selectNode_nodes env q1) as Hn2.
  destruct (selectNode env p1) as [r p2], (selectNode env q1) as [r' q2].
  cbn [fst snd] in *. subst r'.
  destruct r as [[i|]|e|m]; try reflexivity.
  rewrite Hn1, Hn2. cbn [nodes p1 q1 set_totalRequests set_nodes].
  destruct (nodes p !! i) as [a|] eqn:Ha.
  - destruct (Forall2_lookup_l _ _ _ _ _ Hl Ha) as (b & -> & Hab).
    destruct (sameButWeight_fields a b Hab) as (_ & -> & _). reflexivity.
  - apply lookup_ge_None in Ha. rewrite (Forall2_length _ _ _ Hl) in Ha.
    by rewrite (proj2 (lookup_ge_None ns i) Ha).
Qed.

(** Under [LeastUsed] a weight of 0 does not take a node out of the
    rotation. *)
Lemma SetNodeWeight_other_strategies_witness :
  fst (GetClient {| now := 1; src := 0 |}
         (snd (SetNodeWeight "amqp://b" 0
                 (poolOf LeastUsed [liveNode "amqp://a" 1 7;
                                    liveNode "amqp://b" 1 2]))))
  = fst (GetClient {| now := 1; src := 0 |}
           (poolOf LeastUsed [liveNode "amqp://a" 1 7;
                              liveNode "amqp://b" 1 2])).
Proof.
  apply SetNodeWeight_other_strategies. vm_compute. discriminate.
Defined.

(** ** Health prober *)

Lemma set_healthy_id (n : NodeConnection) : set_healthy (healthy n) n = n.
Proof. by destruct n. Qed.

Lemma set_nodes_id (p : Pool) : set_nodes (nodes p) p = p.
Proof. by destruct p. Qed.

Lemma checkNodeHealth_checked (p : Pool) (i : nat) (n : NodeConnection) :
  nodes p !! i = Some n ->
  checkNodeHealth i p
  = (set_nodes (<[i := checked n]> (nodes p)) p, checkStarts i n).
Proof.
  intros Hi. unfold checkNodeHealth, checked, checkStarts, clientConnected.
  rewrite Hi. destruct (Client n) as [c|]; [|reflexivity].
  destruct (Facade.IsConnected c); cbn [negb]; [|reflexivity].
  destruct (healthy n) eqn:Hh; cbn [negb]; [|reflexivity].
  rewrite <- Hh, set_healthy_id, list_insert_id, set_nodes_id by exact Hi.
  reflexivity.
Qed.

(** X8: A health check makes the [healthy] flag of its node say exactly
    whether the node's client is present and connected, starts a connector
    exactly when it is not, and changes nothing else: the node is in the
    healthy set afterwards if and only if its client is connected. *)
Theorem checkNodeHealth_restores_flag (p : Pool) (i : nat)
    (n : NodeConnection) :
  nodes p !! i = Some n ->
  let q := fst (checkNodeHealth i p) in
  q = set_nodes (<[i := set_healthy (clientConnected n) n]> (nodes p)) p
  /\ snd (checkNodeHealth i p)
     = (if clientConnected n then [] else [Go (connectToNodeTask i)])
  /\ (exists n', nodes q !! i = Some n'
                 /\ healthy n' = clientConnected n'
                 /\ nodeIsHealthy n' = clientConnected n)
  /\ (forall j, j <> i -> nodes q !! j = nodes p !! j).
Proof.
  intros Hi. cbn zeta. rewrite (checkNodeHealth_checked p i n Hi).
  cbn [fst snd nodes set_nodes].
  split; [reflexivity|]. split; [reflexivity|].
  assert (Hlt : (i < length (nodes p))%nat) by (by eapply lookup_lt_Some).
  split.
  - exists (checked n). rewrite list_lookup_insert_eq by exact Hlt.
    split; [reflexivity|]. unfold checked, nodeIsHealthy.
    change (clientConnected (set_healthy _ n)) with (clientConnected n).
    cbn [healthy set_healthy]. split; [reflexivity | apply andb_diag].
  - intros j Hj. by rewrite list_lookup_insert_ne.
Qed.

(** A check on a node whose connection was dropped clears the flag and
    starts the connector. *)
Lemma checkNodeHealth_restores_flag_witness :
  checkNodeHealth 0 (poolOf RoundRobin [lostNode "amqp://a"])
  = (poolOf RoundRobin [set_healthy false (lostNode "amqp://a")],
     [Go (connectToNodeTask 0)]).
Proof.
  destruct (checkNodeHealth_restores_flag
              (poolOf RoundRobin [lostNode "amqp://a"]) 0%nat
              (lostNode "amqp://a") eq_refl) as (Hq & He & _).
  rewrite (surjective_pairing (checkNodeHealth 0 _)), Hq, He. reflexivity.
Defined.

Lemma checked_idem (n : NodeConnection) : checked (checked n) = checked n.
Proof. reflexivity. Qed.

Lemma runChecks_cons (j : nat) (js : list nat) (p : Pool) :
  runChecks (j :: js) p
  = (fst (runChecks js (fst (checkNodeHealth j p))),
     (snd (checkNodeHealth j p)
      ++ snd (runChecks js (fst (checkNodeHealth j p))))%list).
Proof.
  cbn [runChecks]. destruct (checkNodeHealth j p) as [p1 e1]. cbn [fst snd].
  by destruct (runChecks js p1).
Qed.

Lemma checkNodeHealth_out_of_range (p : Pool) (j : nat) :
  nodes p !! j = None -> checkNodeHealth j p = (p, []).
Proof. intros H. unfold checkNodeHealth. by rewrite H. Qed.

(** The pool after a series of checks, node by node. *)
Lemma runChecks_lookup (js : list nat) :
  forall (p : Pool) (k : nat),
    nodes (fst (runChecks js p)) !! k
    = (fun n => if bool_decide (k ∈ js) then checked n else n)
        <$> nodes p !! k.
Proof.
  induction js as [|j js IH]; intros p k.
  - cbn [runChecks fst]. by destruct (nodes p !! k).
  - rewrite runChecks_cons. cbn [fst]. rewrite IH.
    destruct (nodes p !! j) as [n|] eqn:Hj.
    + rewrite (checkNodeHealth_checked p j n Hj). cbn [fst nodes set_nodes].
      assert (Hlt : (j < length (nodes p))%nat) by (by eapply lookup_lt_Some).
      destruct (decide (k = j)) as [->|Hkj].
      * rewrite list_lookup_insert_eq, Hj by exact Hlt. cbn.
        rewrite (bool_decide_eq_true_2 (j ∈ j :: js)) by (by left).
        by destruct (bool_decide (j ∈ js)).
      * rewrite list_lookup_insert_ne by done.
        destruct (nodes p !! k) as [m|]; [|reflexivity]. cbn.
        f_equal. destruct (bool_decide_reflect (k ∈ js)) as [Hin|Hnin].
        -- by rewrite bool_decide_eq_true_2 by (by right).
        -- rewrite bool_decide_eq_false_2; [reflexivity|].
           intros Hin. apply elem_of_cons in Hin as [?|?]; done.
    + rewrite (checkNodeHealth_out_of_range p j Hj). cbn [fst].
      destruct (nodes p !! k) as [m|] eqn:Hk; [|reflexivity]. cbn.
      f_equal. assert (Hkj : k <> j) by congruence.
      destruct (bool_decide_reflect (k ∈ js)) as [Hin|Hnin].
      * by rewrite bool_decide_eq_true_2 by (by right).
      * rewrite bool_decide_eq_false_2; [reflexivity|].
        intros Hin. apply elem_of_cons in Hin as [?|?]; done.
Qed.

(** What a series of checks starts: the connectors of the checked nodes
    whose client is not connected. *)
Lemma runChecks_starts (js : list nat) :
  forall (p : Pool) (j : nat),
    Go (connectToNodeTask j) ∈ snd (runChecks js p)
    <-> j ∈ js /\ exists n, nodes p !! j = Some n
                            /\ clientConnected n = false.
Proof.
  induction js as [|i js IH]; intros p j.
  - cbn [runChecks snd]. split; [intros H; inversion H|].
    intros [H _]. inversion H.
  - rewrite runChecks_cons. cbn [snd]. rewrite elem_of_app, IH.
    assert (Hsame : forall k,
              (exists n, nodes (fst (checkNodeHealth i p)) !! k = Some n
                         /\ clientConnected n = false)
              <-> (exists n, nodes p !! k = Some n
                             /\ clientConnected n = false)).
    { intros k. destruct (nodes p !! i) as [m|] eqn:Hi.
      - rewrite (checkNodeHealth_checked p i m Hi). cbn [fst nodes set_nodes].
        assert (Hlt : (i < length (nodes p))%nat)
          by (by eapply lookup_lt_Some).
        destruct (decide (k = i)) as [->|Hki].
        + rewrite list_lookup_insert_eq, Hi by exact Hlt.
          split; intros (x & [= <-] & Hx); eexists; split; try reflexivity;
            exact Hx.
        + by rewrite list_lookup_insert_ne.
      - by rewrite (checkNodeHealth_out_of_range p i Hi). }
    rewrite Hsame. rewrite elem_of_cons.
    destruct (nodes p !! i) as [m|] eqn:Hi.
    + rewrite (checkNodeHealth_checked p i m Hi). cbn [snd].
      unfold checkStarts. destruct (clientConnected m) eqn:Hm.
      * split.
        -- intros [H|[H1 H2]]; [inversion H|]. split; [by right | exact H2].
        -- intros [[->|H1] H2]; [|by right].
           destruct H2 as (x & Hx & Hc). congruence.
      * split.
        -- intros [H|[H1 H2]].
           ++ apply list_elem_of_singleton in H. injection H as ->.
              split; [by left|]. by exists m.
           ++ split; [by right | exact H2].
        -- intros [[->|H1] H2]; [left; apply list_elem_of_singleton; done|].
           by right.
    + rewrite (checkNodeHealth_out_of_range p i Hi). cbn [snd]. split.
      * intros [H|[H1 H2]]; [inversion H|]. split; [by right | exact H2].
      * intros [[->|H1] H2]; [|by right].
        destruct H2 as (x & Hx & _). congruence.
Qed.

Lemma runChecks_frame (js : list nat) :
  forall p : Pool,
    let q := fst (runChecks js p) in
    (config q, closed q, roundRobin q, ctxDone q, healthTicker q,
     totalRequests q, totalFailures q)
    = (config p, closed p, roundRobin p, ctxDone p, healthTicker p,
       totalRequests p, totalFailures p).
Proof.
  induction js as [|j js IH]; intros p; [reflexivity|].
  cbn zeta. rewrite runChecks_cons. cbn [fst].
  specialize (IH (fst (checkNodeHealth j p))). cbn zeta in IH. rewrite IH.
  destruct (nodes p !! j) as [n|] eqn:Hj.
  - by rewrite (checkNodeHealth_checked p j n Hj).
  - by rewrite (checkNodeHealth_out_of_range p j Hj).
Qed.

Lemma filter_flag_exact (ns : list NodeConnection) :
  Forall (fun n => healthy n = clientConnected n) ns ->
  length (List.filter healthy ns) = length (List.filter nodeIsHealthy ns).
Proof.
  induction 1 as [|n ns Hn _ IH]; [reflexivity|].
  cbn [List.filter]. unfold nodeIsHealthy at 1. rewrite <- Hn, andb_diag.
  destruct (healthy n); cbn [length]; by rewrite IH.
Qed.

(** X9: One cycle of the health prober.  A tick starts one check per node;
    whatever the order in which these checks run, afterwards every node's
    [healthy] flag says whether its client is present and connected, so
    that [GetStats] and [GetHealthyNodeCount] agree on the number of
    healthy nodes; a connector was started for exactly the nodes whose
    client is absent or disconnected; and nothing else in the pool has
    changed. *)
Theorem healthCheck_cycle (p : Pool) (js : list nat) :
  js ≡ₚ seq 0 (length (nodes p)) ->
  let q := fst (runChecks js p) in
  performHealthCheck p ≡ₚ (fun j => Go (checkNodeHealthTask j)) <$> js
  /\ nodes q = map (fun n => set_healthy (clientConnected n) n) (nodes p)
  /\ Forall (fun n => healthy n = clientConnected n) (nodes q)
  /\ Stats.HealthyNodes (GetStats q) = GetHealthyNodeCount q
  /\ (forall j, Go (connectToNodeTask j) ∈ snd (runChecks js p)
                <-> exists n, nodes p !! j = Some n
                              /\ clientConnected n = false)
  /\ (config q, closed q, roundRobin q, totalRequests q, totalFailures q)
     = (config p, closed p, roundRobin p, totalRequests p, totalFailures p).
Proof.
  intros Hperm q.
  assert (Hin : forall k, k ∈ js <-> (k < length (nodes p))%nat).
  { intros k. rewrite Hperm, elem_of_seq. lia. }
  assert (Hnodes : nodes q = map checked (nodes p)).
  { apply list_eq. intros k. subst q. rewrite runChecks_lookup.
    change (map checked (nodes p)) with (checked <$> nodes p).
    rewrite list_lookup_fmap.
    destruct (nodes p !! k) as [n|] eqn:Hk; [|reflexivity]. cbn.
    rewrite bool_decide_eq_true_2; [reflexivity|].
    apply Hin. by eapply lookup_lt_Some. }
  assert (Hall : Forall (fun n => healthy n = clientConnected n) (nodes q)).
  { rewrite Hnodes. apply Forall_fmap, Forall_true. intros n. reflexivity. }
  split.
  { unfold performHealthCheck.
    change (map ?f ?l) with (f <$> l). by rewrite Hperm. }
  split; [exact Hnodes|]. split; [exact Hall|].
  split.
  { unfold GetStats, GetHealthyNodeCount.
    rewrite statsLoop_filter, countLoop_filter. cbn [Stats.HealthyNodes].
    by rewrite (filter_flag_exact _ Hall). }
  split.
  { intros j. rewrite runChecks_starts, Hin. split; [by intros [_ H]|].
    intros (n & Hj & Hc). split; [by eapply lookup_lt_Some | by exists n]. }
  pose proof (runChecks_frame js p) as Hf. cbn zeta in Hf. fold q in Hf.
  by injection Hf as -> -> -> _ _ -> ->.
Qed.

(** A cycle on three nodes, checked in the order 2, 0, 1: the first is
    connected, the second has lost its connection, the third has no
    client yet. *)
Lemma healthCheck_cycle_witness :
  healthy <$> nodes (fst (runChecks [2; 0; 1]%nat
                            (poolOf RoundRobin [liveNode "amqp://a" 1 0;
                                                lostNode "amqp://b";
                                                newNode 0 "amqp://c"])))
  = [true; false; false].
Proof.
  assert (Hperm : [2; 0; 1]%nat
            ≡ₚ seq 0 (length (nodes (poolOf RoundRobin
                                       [liveNode "amqp://a" 1 0;
                                        lostNode "amqp://b";
                                        newNode 0 "amqp://c"])))).
  { cbn. rewrite (Permutation_swap 0%nat 2%nat [1%nat]).
    apply perm_skip, perm_swap. }
  destruct (healthCheck_cycle _ _ Hperm) as (_ & Hn & _).
  rewrite Hn. reflexivity.
Defined.

(** ** Connector: success *)

Lemma healthyFrom_elem_insert (p : Pool) (i : nat) (n' : NodeConnection) :
  (i < length (nodes p))%nat -> nodeIsHealthy n' = true ->
  (i, n') ∈ getHealthyNodes (set_nodes (<[i := n']> (nodes p)) p).
Proof.
  intros Hlt Hh. apply getHealthyNodes_elem. cbn [nodes set_nodes].
  by rewrite list_lookup_insert_eq.
Qed.

(** X10: When the broker accepts the connection, [connectToNode] installs the
    new client in the node, sets [healthy], leaves [failures] and the
    other counters alone, asks the client it replaces, if any, to close,
    and starts a watcher.  If the new connection is open, the node is in
    the healthy set from then on, so [GetHealthyNodeCount] is positive and
    [GetClient] no longer fails for want of a healthy node. *)
Theorem connectToNode_success (dial : string -> Facade.Attempt) (p : Pool)
    (i : nat) (n : NodeConnection) (conn : Facade.Connection)
    (ch : Facade.Channel) :
  nodes p !! i = Some n ->
  connecting n = false ->
  dial (URL n) = Facade.Established conn ch ->
  let n' := set_connecting false
              (set_healthy true
                 (set_Client (Some (connectedClient p n conn ch)) n)) in
  let q := fst (connectToNode dial i p) in
  q = set_nodes (<[i := n']> (nodes p)) p
  /\ snd (connectToNode dial i p)
     = (match Client n with
        | Some old => [CloseClient old]
        | None => []
        end ++ [Go (watchNodeConnectionTask i)])%list
  /\ (failures n', totalUsed n', weight n', URL n')
     = (failures n, totalUsed n, weight n, URL n)
  /\ Facade.IsConnected (connectedClient p n conn ch)
     = negb (Facade.IsClosed conn)
  /\ (Facade.IsClosed conn = false ->
        (i, n') ∈ getHealthyNodes q
        /\ 0 < GetHealthyNodeCount q
        /\ (closed p = false ->
            forall env, fst (GetClient env q) <> Err errNoHealthyNodes)).
Proof.
  intros Hi Hc Hd. cbn zeta.
  assert (Hcon : Facade.Connect dial (nodeClient p n)
                 = (None, connectedClient p n conn ch)).
  { unfold Facade.Connect, nodeClient, Facade.NewClient.
    cbn [Facade.connected Facade.config Facade.URLs Facade.connectLoop].
    rewrite Hd. reflexivity. }
  assert (Hrun : connectToNode dial i p
    = (set_nodes
         (<[i := set_connecting false
                   (set_healthy true
                      (set_Client (Some (connectedClient p n conn ch)) n))]>
            (nodes p)) p,
       (match Client n with
        | Some old => [CloseClient old]
        | None => []
        end ++ [Go (watchNodeConnectionTask i)])%list)).
  { unfold connectToNode. by rewrite Hi, Hc, Hcon. }
  rewrite Hrun. cbn [fst snd].
  split; [reflexivity|]. split; [reflexivity|]. split; [reflexivity|].
  split; [reflexivity|].
  intros Hopen.
  assert (Hlt : (i < length (nodes p))%nat) by (by eapply lookup_lt_Some).
  assert (Hin : (i, set_connecting false
                      (set_healthy true
                         (set_Client (Some (connectedClient p n conn ch)) n)))
                ∈ getHealthyNodes
                    (set_nodes
                       (<[i := set_connecting false
                                 (set_healthy true
                                    (set_Client
                                       (Some (connectedClient p n conn ch))
                                       n))]> (nodes p)) p)).
  { apply healthyFrom_elem_insert; [exact Hlt|].
    unfold nodeIsHealthy, clientConnected, Facade.IsConnected. cbn.
    by rewrite Hopen. }
  split; [exact Hin|].
  assert (Hpos : 0 < GetHealthyNodeCount
                       (set_nodes
                          (<[i := set_connecting false
                                    (set_healthy true
                                       (set_Client
                                          (Some (connectedClient p n conn ch))
                                          n))]> (nodes p)) p)).
  { rewrite GetHealthyNodeCount_length.
    destruct (getHealthyNodes _); [inversion Hin | cbn [length]; lia]. }
  split; [exact Hpos|].
  intros Hcl env Herr.
  set (q := set_nodes _ p) in *.
  assert (Hq : closed q = false) by exact Hcl.
  rewrite GetClient_open in Herr by exact Hq. cbn zeta in Herr.
  set (q1 := set_totalRequests _ q) in *.
  assert (Hne : getHealthyNodes q1 <> []).
  { change (getHealthyNodes q1) with (getHealthyNodes q).
    intros He. rewrite He in Hin. inversion Hin. }
  pose proof (selectNode_selects env q1 Hne) as (_ & _ & _ & Hsel).
  destruct (selectNode env q1) as [[[j|]|e|m] q2]; cbn [fst snd] in *;
    try done.
  destruct (nodes q2 !! j); discriminate.
Qed.

(** The readiness race on a fresh pool of one node: no client before the
    first connection, one after it. *)
Lemma connectToNode_success_witness :
  fst (GetClient {| now := 1; src := 0 |} freshPool) = Err errNoHealthyNodes
  /\ GetHealthyNodeCount (fst (connectToNode acceptingDial 0 freshPool)) = 1
  /\ exists c,
       fst (GetClient {| now := 1; src := 0 |}
              (fst (connectToNode acceptingDial 0 freshPool)))
       = Ok (0%nat, Some c)
       /\ Facade.IsConnected c = true.
Proof.
  destruct (connectToNode_success acceptingDial freshPool 0%nat
              (newNode 0 "amqp://a")
              {| Facade.IsClosed := false; Facade.connCloseErr := None |}
              {| Facade.chanCloseErr := None |}
              eq_refl eq_refl eq_refl) as (Hq & _ & _ & _ & _).
  split; [reflexivity|]. rewrite Hq. split; [reflexivity|].
  eexists. split; reflexivity.
Defined.

(** ** Accounting *)

(** A selector changes at most the round-robin counter. *)
Lemma selectNode_pool (env : Env) (p : Pool) :
  snd (selectNode env p) = p
  \/ snd (selectNode env p) = set_roundRobin (add64 (roundRobin p) 1) p.
Proof.
  assert (HRR : snd (getClientRoundRobin p) = p
                \/ snd (getClientRoundRobin p)
                   = set_roundRobin (add64 (roundRobin p) 1) p).
  { unfold getClientRoundRobin. destruct (_ =? _)%nat; [by left|].
    right. by destruct (index_at _ _) as [[i n]|e|m]. }
  unfold selectNode.
  destruct (_ =? RoundRobin); [exact HRR|].
  destruct (_ =? Random).
  { left. unfold getClientRandom. destruct (_ =? _)%nat; [reflexivity|].
    destruct (Intn _ _); [|reflexivity|reflexivity].
    by destruct (index_at _ _) as [[i n]|e|m]. }
  destruct (_ =? LeastUsed).
  { left. unfold getClientLeastUsed. by destruct (_ =? _)%nat. }
  destruct (_ =? WeightedRoundRobin); [|exact HRR].
  unfold getClientWeightedRoundRobin. destruct (_ =? _)%nat; [by left|].
  destruct (_ =? 0); [exact HRR|]. left.
  destruct (Intn _ _); [|reflexivity|reflexivity].
  destruct (weightedLoop _ _ _); [reflexivity|].
  by destruct (index_at _ _) as [[i n]|e|m].
Qed.

(** What one [GetClient] does to the pool, by its result. *)
Lemma GetClient_effect (env : Env) (p : Pool) :
  let q := snd (GetClient env p) in
  totalRequests q = add64 (totalRequests p) 1
  /\ closed q = closed p
  /\ config q = config p
  /\ match fst (GetClient env p) with
     | Ok (i, c) =>
         exists n, nodes p !! i = Some n /\ c = Client n
                   /\ nodes q = <[i := mark_used (now env) n]> (nodes p)
                   /\ totalFailures q = totalFailures p
     | Err e =>
         nodes q = nodes p
         /\ (if closed p
             then e = errPoolClosed /\ totalFailures q = totalFailures p
             else e = errNoHealthyNodes
                  /\ totalFailures q = add64 (totalFailures p) 1)
     | Panic _ => nodes q = nodes p /\ totalFailures q = totalFailures p
     end.
Proof.
  cbn zeta. destruct (closed p) eqn:Hc.
  { rewrite GetClient_closed by exact Hc. by cbn. }
  rewrite GetClient_open by exact Hc. cbn zeta.
  set (p1 := set_totalRequests (add64 (totalRequests p) 1) p).
  assert (Hp2 : exists c, snd (selectNode env p1) = set_roundRobin c p1).
  { destruct (selectNode_pool env p1) as [-> | ->]; [|by eexists].
    exists (roundRobin p1). by destruct p. }
  destruct Hp2 as [c Hp2].
  destruct (getHealthyNodes p1) as [|h hs] eqn:Hh.
  { rewrite selectNode_empty by exact Hh. cbn [fst snd]. by repeat split. }
  assert (Hne : getHealthyNodes p1 <> []) by (by rewrite Hh).
  pose proof (selectNode_selects env p1 Hne) as (_ & _ & _ & Hsel).
  destruct (selectNode env p1) as [[[i|]|e|m] p2]; cbn [fst snd] in *;
    subst p2; try done.
  destruct Hsel as [n Hin]. rewrite Hh in Hin. rewrite <- Hh in Hin.
  pose proof (proj1 (getHealthyNodes_elem p1 i n) Hin) as [Hnode _].
  cbn [nodes set_roundRobin]. rewrite Hnode. cbn [fst snd].
  repeat split; try done. by exists n.
Qed.

(** ** Invariants of a running pool *)

Lemma nodeInv_mono (k k' : Z) (n : NodeConnection) :
  k <= k' -> nodeInv k n -> nodeInv k' n.
Proof. intros Hk [H1 H2]. split; [lia | exact H2]. Qed.

(** Replacing a node by one with the same URL that satisfies the node
    invariant. *)
Lemma poolInv_insert (k : Z) (p : Pool) (i : nat) (n n' : NodeConnection) :
  poolInv k p -> nodes p !! i = Some n ->
  URL n' = URL n -> nodeInv (totalRequests p) n' ->
  poolInv k (set_nodes (<[i := n']> (nodes p)) p).
Proof.
  intros (Hu & Hr & Hf & Hk & Hn) Hi Hurl Hn'.
  split; [|split; [exact Hr|split; [exact Hf|split; [exact Hk|]]]].
  - cbn [nodes set_nodes config]. rewrite list_fmap_insert, Hurl, <- Hu.
    apply list_insert_id. by rewrite list_lookup_fmap, Hi.
  - cbn [nodes set_nodes totalRequests]. by apply Forall_insert.
Qed.

Lemma GetClient_roundRobin (env : Env) (p : Pool) :
  roundRobin (snd (GetClient env p)) = roundRobin p
  \/ roundRobin (snd (GetClient env p)) = add64 (roundRobin p) 1.
Proof.
  unfold GetClient. cbn [closed set_totalRequests].
  destruct (closed p); [by left|].
  set (p1 := set_totalRequests _ p).
  pose proof (selectNode_pool env p1) as Hp.
  destruct (selectNode env p1) as [[[i|]|e|m] p2]; cbn [fst snd] in *.
  - destruct (nodes p2 !! i); cbn [snd roundRobin set_nodes];
      destruct Hp as [-> | ->]; auto.
  - destruct Hp as [-> | ->]; auto.
  - cbn [roundRobin set_totalFailures]. destruct Hp as [-> | ->]; auto.
  - destruct Hp as [-> | ->]; auto.
Qed.

Lemma poolInv_runOp (k : Z) (o : Op) (p : Pool) :
  k < MaxInt64 -> poolInv k p ->
  poolInv (k + 1) (runOp o p) /\ config (runOp o p) = config p.
Proof.
  intros Hk Hinv.
  assert (Hup : poolInv (k + 1) p).
  { destruct Hinv as (Hu & Hr & Hf & Hle & Hn). repeat split; try done; lia. }
  assert (Hins : forall i n n',
            nodes p !! i = Some n -> URL n' = URL n ->
            nodeInv (totalRequests p) n' ->
            poolInv (k + 1) (set_nodes (<[i := n']> (nodes p)) p)).
  { intros i n n'. by apply poolInv_insert. }
  assert (Hnode : forall i n, nodes p !! i = Some n ->
                              nodeInv (totalRequests p) n).
  { intros i n Hi. destruct Hinv as (_ & _ & _ & _ & Hn).
    rewrite Forall_lookup in Hn. exact (Hn i n Hi). }
  destruct o as [| |env|url w|dial i|ev i|i|i c']; cbn [runOp].
  - (* Start *)
    unfold Start. destruct (closed p); [done|].
    destruct (_ <=? 0); [done|]. cbn [fst snd]. split; [|reflexivity].
    exact Hup.
  - (* Close *)
    unfold Close. destruct (closed p); [done|].
    rewrite closeLoop_spec. cbn [snd]. split; [|reflexivity].
    destruct Hup as (Hu & Hr & Hf & Hle & Hn).
    split; [|split; [exact Hr|split; [exact Hf|split; [exact Hle|]]]].
    + cbn [nodes config]. rewrite <- Hu.
      change (map closeNode (nodes p)) with (closeNode <$> nodes p).
      rewrite <- list_fmap_compose. apply list_fmap_ext.
      intros j n _. cbn. unfold closeNode. by destruct (Client n).
    + cbn [nodes totalRequests]. apply Forall_fmap.
      eapply Forall_impl; [exact Hn|]. intros n [H1 H2]. cbn.
      unfold closeNode, nodeInv.
      destruct (Client n) eqn:Hc; [|by rewrite Hc].
      cbn [totalUsed healthy Client set_Client]. split; [exact H1 | by eauto].
  - (* GetClient *)
    pose proof (GetClient_effect env p) as (Htr & _ & Hcfg & Hcase).
    pose proof (GetClient_roundRobin env p) as Hrr.
    destruct Hinv as (Hu & Hr & Hf & Hle & Hn).
    assert (Hadd : add64 (totalRequests p) 1 = totalRequests p + 1).
    { apply wrap64_small. unfold MinInt64, MaxInt64 in *. lia. }
    assert (Hrr' : 0 <= roundRobin (snd (GetClient env p))
                   <= totalRequests p + 1).
    { destruct Hrr as [-> | ->]; [lia|].
      unfold add64. rewrite wrap64_small; [lia|].
      unfold MinInt64, MaxInt64 in *. lia. }
    split; [|exact Hcfg].
    assert (Hmono : Forall (nodeInv (totalRequests p + 1)) (nodes p)).
    { eapply Forall_impl; [exact Hn|]. intros n. apply nodeInv_mono. lia. }
    destruct (fst (GetClient env p)) as [[i c]|e|m].
    + destruct Hcase as (n & Hi & _ & Hns & Htf).
      split; [|split; [|split; [|split]]].
      * rewrite Hns, Hcfg, list_fmap_insert, <- Hu.
        apply list_insert_id. by rewrite list_lookup_fmap, Hi.
      * rewrite Htr, Hadd. exact Hrr'.
      * rewrite Htr, Hadd, Htf. lia.
      * rewrite Htr, Hadd. lia.
      * rewrite Htr, Hadd, Hns. apply Forall_insert; [exact Hmono|].
        destruct (Hnode i n Hi) as [H1 H2]. split; [|exact H2].
        cbn [totalUsed mark_used]. unfold add64.
        rewrite wrap64_small; [lia|]. unfold MinInt64, MaxInt64 in *. lia.
    + destruct Hcase as (Hns & Htf).
      split; [|split; [|split; [|split]]].
      * by rewrite Hns, Hcfg.
      * rewrite Htr, Hadd. exact Hrr'.
      * rewrite Htr, Hadd. destruct (closed p); destruct Htf as [_ ->];
          [lia|]. unfold add64. rewrite wrap64_small; [lia|].
        unfold MinInt64, MaxInt64 in *. lia.
      * rewrite Htr, Hadd. lia.
      * by rewrite Htr, Hadd, Hns.
    + destruct Hcase as (Hns & Htf).
      split; [|split; [|split; [|split]]].
      * by rewrite Hns, Hcfg.
      * rewrite Htr, Hadd. exact Hrr'.
      * rewrite Htr, Hadd, Htf. lia.
      * rewrite Htr, Hadd. lia.
      * by rewrite Htr, Hadd, Hns.
  - (* SetNodeWeight *)
    unfold SetNodeWeight.
    destruct (setWeightLoop url w (nodes p)) as [ns|] eqn:Hl; [|done].
    cbn [snd]. split; [|reflexivity].
    apply setWeightLoop_sameButWeight in Hl.
    destruct Hup as (Hu & Hr & Hf & Hle & Hn).
    split; [|split; [exact Hr|split; [exact Hf|split; [exact Hle|]]]].
    + cbn [nodes set_nodes config]. rewrite <- Hu. symmetry.
      apply list_eq. intros j. rewrite !list_lookup_fmap.
      destruct (nodes p !! j) as [a|] eqn:Ha.
      * destruct (Forall2_lookup_l _ _ _ _ _ Hl Ha) as (b & -> & Hab).
        cbn. f_equal. by destruct (sameButWeight_fields a b Hab) as (-> & _).
      * apply lookup_ge_None in Ha. rewrite (Forall2_length _ _ _ Hl) in Ha.
        by rewrite (proj2 (lookup_ge_None ns j) Ha).
    + cbn [nodes set_nodes totalRequests]. apply Forall_lookup.
      intros j b Hb.
      destruct (Forall2_lookup_r _ _ _ _ _ Hl Hb) as (a & Ha & Hab).
      rewrite Forall_lookup in Hn. destruct (Hn j a Ha) as [H1 H2].
      destruct (sameButWeight_fields a b Hab)
        as (_ & Hc & Hh & Ht & _).
      split; [by rewrite <- Ht | by rewrite <- Hh, <- Hc].
  - (* connectToNode *)
    unfold connectToNode. destruct (nodes p !! i) as [n|] eqn:Hi; [|done].
    destruct (connecting n); [done|].
    destruct (Hnode i n Hi) as [H1 H2].
    destruct (Facade.Connect dial (nodeClient p n)) as [[e|] c];
      cbn [fst]; (split; [|reflexivity]); apply (Hins i n);
      try done; split; try done; cbn; by eauto.
  - (* watchNodeConnection *)
    unfold watchNodeConnection. destruct ev; [done|].
    destruct (nodes p !! i) as [n|] eqn:Hi; [|done].
    destruct (Client n) as [c|] eqn:Hc; [|done].
    destruct (negb (Facade.IsConnected c)); [|done].
    cbn [fst]. split; [|reflexivity]. apply (Hins i n); try done.
    destruct (Hnode i n Hi) as [H1 H2]. split; [exact H1 | done].
  - (* checkNodeHealth *)
    destruct (nodes p !! i) as [n|] eqn:Hi.
    + rewrite (checkNodeHealth_checked p i n Hi). cbn [fst].
      split; [|reflexivity]. apply (Hins i n); try done.
      destruct (Hnode i n Hi) as [H1 H2]. split; [exact H1|].
      unfold checked, clientConnected. cbn.
      destruct (Client n); [by eauto | done].
    + by rewrite (checkNodeHealth_out_of_range p i Hi).
  - (* the client of a node changes state *)
    destruct (nodes p !! i) as [n|] eqn:Hi; [|done].
    destruct (Client n) as [c|] eqn:Hc; [|done].
    split; [|reflexivity]. apply (Hins i n); try done.
    destruct (Hnode i n Hi) as [H1 H2]. split; [exact H1 | by eauto].
Qed.

Lemma runOps_poolInv (os : list Op) :
  forall (p : Pool) (k : Z),
    poolInv k p -> k + Z.of_nat (length os) <= MaxInt64 ->
    poolInv (k + Z.of_nat (length os)) (runOps os p)
    /\ config (runOps os p) = config p.
Proof.
  induction os as [|o os IH]; intros p k Hinv Hk.
  - cbn [length runOps foldl]. rewrite Z.add_0_r. by split.
  - cbn [length] in *. change (runOps (o :: os) p)
      with (runOps os (runOp o p)).
    destruct (poolInv_runOp k o p ltac:(lia) Hinv) as [H1 Hc].
    destruct (IH (runOp o p) (k + 1) H1 ltac:(lia)) as [H2 Hc'].
    replace (k + Z.of_nat (S (length os)))
      with (k + 1 + Z.of_nat (length os)) by lia.
    split; [exact H2 | congruence].
Qed.

(** ** Liveness watcher *)







Lemma NewPool_poolInv (now : Z) (cfg : PoolConfig) :
  poolInv 0 (NewPool now cfg).
Proof.
  unfold NewPool, NewPoolWith, poolInv.
  cbn [nodes config roundRobin totalRequests totalFailures].
  split; [|repeat split; try lia].
  - change (map ?f ?l) with (f <$> l). rewrite <- list_fmap_compose.
    apply list_fmap_id.
  - apply Forall_fmap, Forall_true. intros url. split; [cbn; lia | done].
Qed.

(** X11: Whatever the methods called and the background tasks run on a pool
    since [NewPool], and whatever happened to the connections of its
    clients, fewer than 2^63 steps in all: the configuration is the one
    [NewPool] computed; the nodes are those of the configured URLs, in
    their order, and there is at least one; the round-robin counter and
    the failure count are between 0 and the request count, which is at
    most the number of steps; no node was used more often than there were
    requests; and a node flagged healthy has a client. *)
Theorem running_pool_invariants (now : Z) (cfg : PoolConfig)
    (os : list Op) :
  Z.of_nat (length os) <= MaxInt64 ->
  let p := runOps os (NewPool now cfg) in
  config p = getDefaultConfig cfg
  /\ URL <$> nodes p = URLs (getDefaultConfig cfg)
  /\ nodes p <> []
  /\ 0 <= roundRobin p <= totalRequests p
  /\ 0 <= totalFailures p <= totalRequests p
  /\ totalRequests p <= Z.of_nat (length os)
  /\ Forall (fun n => 0 <= totalUsed n <= totalRequests p
                      /\ (healthy n = true -> is_Some (Client n)))
            (nodes p).
Proof.
  intros Hlen p.
  destruct (runOps_poolInv os (NewPool now cfg) 0 (NewPool_poolInv now cfg)
              ltac:(lia)) as [(Hu & Hr & Hf & Hle & Hn) Hcfg].
  fold p in Hu, Hr, Hf, Hle, Hn, Hcfg.
  assert (Hc : config p = getDefaultConfig cfg) by exact Hcfg.
  split; [exact Hc|]. rewrite Hc in Hu. split; [exact Hu|].
  split.
  { intros He. rewrite He in Hu. cbn in Hu.
    by destruct (URLs cfg). }
  split; [exact Hr|]. split; [exact Hf|]. split; [lia | exact Hn].
Qed.

(** The invariants after a short life of a pool built from the unset
    configuration. *)
Lemma running_pool_invariants_witness :
  URL <$> nodes (runOps shortLife (NewPool 0 unsetConfig))
  = ["amqp://localhost:5672"]
  /\ totalRequests (runOps shortLife (NewPool 0 unsetConfig)) <= 5.
Proof.
  destruct (running_pool_invariants 0 unsetConfig shortLife
              ltac:(vm_compute; discriminate))
    as (_ & Hu & _ & _ & _ & Hle & _).
  split; [exact Hu | exact Hle].
Defined.

(** X12: Under [RoundRobin], [Random] and [LeastUsed], and under any other
    value of the strategy but [WeightedRoundRobin], [GetClient] never
    panics on a pool that has served fewer than 2^63 - 1 steps since
    [NewPool]: it returns a client or one of its two errors. *)
Theorem GetClient_never_panics (now : Z) (cfg : PoolConfig) (os : list Op)
    (env : Env) :
  Z.of_nat (length os) < MaxInt64 ->
  LoadBalanceStrategy_ cfg <> WeightedRoundRobin ->
  let p := runOps os (NewPool now cfg) in
  (exists i c, fst (GetClient env p) = Ok (i, c))
  \/ fst (GetClient env p) = Err errPoolClosed
  \/ fst (GetClient env p) = Err errNoHealthyNodes.
Proof.
  intros Hlen Hs p.
  destruct (runOps_poolInv os (NewPool now cfg) 0 (NewPool_poolInv now cfg)
              ltac:(lia)) as [(Hu & Hr & Hf & Hle & Hn) Hcfg].
  fold p in Hu, Hr, Hf, Hle, Hn, Hcfg.
  assert (Hsp : LoadBalanceStrategy_ (config p) <> WeightedRoundRobin).
  { rewrite Hcfg. exact Hs. }
  destruct (closed p) eqn:Hc.
  { right. left. by rewrite GetClient_closed. }
  destruct (getHealthyNodes p) as [|[i n] hs] eqn:Hh.
  { right. right. rewrite GetClient_open by exact Hc. cbn zeta.
    by rewrite selectNode_empty. }
  left. apply GetClient_returns; [exact Hc | by rewrite Hh |].
  unfold selectorPrecondition. cbn zeta.
  assert (Hready : counterReady p).
  { unfold counterReady, add64. rewrite wrap64_small; [lia|].
    unfold MinInt64, MaxInt64 in *. lia. }
  destruct (_ =? Random); [exact I|].
  destruct (_ =? LeastUsed).
  { rewrite Hh. apply Exists_cons_hd. cbn.
    assert (Hin : (i, n) ∈ getHealthyNodes p) by (rewrite Hh; by left).
    apply getHealthyNodes_elem in Hin as [Hi _].
    rewrite Forall_lookup in Hn. destruct (Hn i n Hi) as [Hu' _]. lia. }
  destruct (Z.eqb_spec (LoadBalanceStrategy_ (config p)) WeightedRoundRobin);
    [done | exact Hready].
Qed.

(** No panic on a [LeastUsed] pool of two nodes of which the second got
    connected. *)
Lemma GetClient_never_panics_witness :
  exists c,
    fst (GetClient {| now := 9; src := 0 |}
           (runOps [opStart; opConnectToNode acceptingDial 1]
              (NewPool 0 {| URLs := ["amqp://a"; "amqp://b"];
                            ReconnectInterval := 0; MaxReconnectAttempt := 0;
                            HealthCheckInterval := 0;
                            LoadBalanceStrategy_ := LeastUsed;
                            DebugLog := false; Logger_ := None |})))
    = Ok (1%nat, c).
Proof.
  destruct (GetClient_never_panics 0
              {| URLs := ["amqp://a"; "amqp://b"];
                 ReconnectInterval := 0; MaxReconnectAttempt := 0;
                 HealthCheckInterval := 0;
                 LoadBalanceStrategy_ := LeastUsed;
                 DebugLog := false; Logger_ := None |}
              [opStart; opConnectToNode acceptingDial 1]
              {| now := 9; src := 0 |}
              ltac:(vm_compute; reflexivity)
              ltac:(vm_compute; discriminate))
    as [(i & c & H) | [H | H]].
  - exists c. rewrite H. f_equal. f_equal.
    vm_compute in H. by injection H as <- _.
  - vm_compute in H. discriminate.
  - vm_compute in H. discriminate.
Defined.

Lemma wrap64_idem (a : Z) : wrap64 (wrap64 a) = wrap64 a.
Proof. apply wrap64_small, wrap64_range. Qed.

(** X13: The books of a series of [GetClient] calls on an open pool, as 64-bit
    integers: [totalRequests] has grown by the number of calls,
    [totalFailures] by the number of calls that failed for want of a
    healthy node, and each node's [totalUsed] by the number of calls that
    returned this node; nothing else of a node has changed but
    [lastUsed].  If no call panicked, every call is either a return or
    such a failure. *)
Theorem serial_accounting (envs : list Env) (p : Pool) :
  closed p = false ->
  let rs := fst (serial envs p) in
  let q := snd (serial envs p) in
  wrap64 (totalRequests q)
    = wrap64 (totalRequests p + Z.of_nat (length envs))
  /\ wrap64 (totalFailures q)
     = wrap64 (totalFailures p
               + Z.of_nat (length (List.filter isNoHealthy rs)))
  /\ (forall i n, nodes p !! i = Some n ->
        exists n', nodes q !! i = Some n'
          /\ wrap64 (totalUsed n')
             = wrap64 (totalUsed n
                       + Z.of_nat (count_occ Nat.eq_dec
                                     (omap returnedNode rs) i))
          /\ unusedFields n' = unusedFields n)
  /\ (Forall (fun r => forall m, r <> Panic m) rs ->
        length envs
        = (length (omap returnedNode rs)
           + length (List.filter isNoHealthy rs))%nat).
Proof.
  revert p. induction envs as [|env envs IH]; intros p Hopen.
  { cbn [serial fst snd length List.filter omap count_occ].
    rewrite !Z.add_0_r. repeat split; try done.
    intros i n Hi. exists n. by rewrite Z.add_0_r. }
  cbn zeta. rewrite serial_cons. cbn [fst snd length].
  pose proof (GetClient_effect env p) as (Htr & Hcl & _ & Hcase).
  cbn zeta in Htr, Hcl, Hcase. rewrite Hopen in Hcl, Hcase.
  destruct (IH (snd (GetClient env p)) Hcl) as (IHr & IHf & IHn & IHp).
  cbn zeta in IHr, IHf, IHn, IHp.
  set (q1 := snd (GetClient env p)) in *.
  set (rs := fst (serial envs q1)) in *.
  split; [|split; [|split]].
  - rewrite IHr, Htr. unfold add64. rewrite wrap64_add_l. f_equal. lia.
  - rewrite IHf. destruct (fst (GetClient env p)) as [[j c]|e|m];
      cbn [List.filter isNoHealthy].
    + destruct Hcase as (n & _ & _ & _ & ->). reflexivity.
    + destruct Hcase as (_ & -> & ->). rewrite String.eqb_refl.
      cbn [length]. unfold add64. rewrite wrap64_add_l. f_equal. lia.
    + destruct Hcase as (_ & ->). reflexivity.
  - intros i n Hi.
    destruct (fst (GetClient env p)) as [[j c]|e|m].
    + destruct Hcase as (a & Hj & _ & Hns & _).
      change (omap returnedNode (Ok (j, c) :: rs))
        with (j :: omap returnedNode rs).
      cbn [count_occ].
      assert (Hlt : (j < length (nodes p))%nat)
        by (by eapply lookup_lt_Some).
      destruct (Nat.eq_dec j i) as [->|Hji].
      * assert (Ha : a = n) by congruence. subst a.
        destruct (IHn i (mark_used (now env) n)) as (n' & Hn' & Hu & Hfld).
        { by rewrite Hns, list_lookup_insert_eq. }
        exists n'. split; [exact Hn'|]. split; [|exact Hfld].
        rewrite Hu. cbn [totalUsed mark_used]. unfold add64.
        rewrite wrap64_add_l. f_equal. lia.
      * destruct (IHn i n) as (n' & Hn' & Hu & Hfld).
        { by rewrite Hns, list_lookup_insert_ne. }
        exists n'. by repeat split.
    + destruct Hcase as (Hns & _).
      change (omap returnedNode (Err e :: rs)) with (omap returnedNode rs).
      apply IHn. by rewrite Hns.
    + destruct Hcase as (Hns & _).
      change (omap returnedNode (Panic m :: rs)) with (omap returnedNode rs).
      apply IHn. by rewrite Hns.
  - intros Hnp. apply Forall_cons_1 in Hnp as [Hhd Htl].
    specialize (IHp Htl).
    destruct (fst (GetClient env p)) as [[j c]|e|m].
    + change (omap returnedNode (Ok (j, c) :: rs))
        with (j :: omap returnedNode rs).
      cbn [List.filter isNoHealthy length]. lia.
    + destruct Hcase as (_ & -> & _).
      change (omap returnedNode (Err errNoHealthyNodes :: rs))
        with (omap returnedNode rs).
      cbn [List.filter isNoHealthy]. rewrite String.eqb_refl.
      cbn [length]. lia.
    + by destruct (Hhd m).
Qed.

(** The books of six round-robin calls on three healthy nodes. *)
Lemma serial_accounting_witness :
  wrap64 (totalRequests (snd (serial sixCalls threePool)))
  = wrap64 (totalRequests threePool + Z.of_nat (length sixCalls))
  /\ length sixCalls
     = (length (omap returnedNode (fst (serial sixCalls threePool)))
        + length (List.filter isNoHealthy (fst (serial sixCalls threePool))))
         %nat.
Proof.
  destruct (serial_accounting sixCalls threePool eq_refl)
    as (Hr & _ & _ & Hp).
  split; [exact Hr|]. apply Hp.
  repeat constructor; intros m; vm_compute; discriminate.
Defined.

(** ** Random *)

Lemma selectNode_Random (env : Env) (p : Pool) :
  LoadBalanceStrategy_ (config p) = Random ->
  selectNode env p = getClientRandom (src env) p.
Proof. intros H. unfold selectNode. by rewrite H. Qed.

(** X14: Under [Random] with a non-empty healthy set, [GetClient] always
    returns: it hands out the healthy node at position (draw mod size of
    the set), leaves the round-robin counter alone, and every healthy node
    is handed out for some state of the random source. *)
Theorem GetClient_Random (p : Pool) :
  closed p = false ->
  LoadBalanceStrategy_ (config p) = Random ->
  getHealthyNodes p <> [] ->
  let hs := getHealthyNodes p in
  (forall env, exists i n,
      hs !! Z.to_nat (src env mod Z.of_nat (length hs)) = Some (i, n)
      /\ fst (GetClient env p) = Ok (i, Client n)
      /\ roundRobin (snd (GetClient env p)) = roundRobin p)
  /\ (forall k i n now, hs !! k = Some (i, n) ->
        fst (GetClient {| now := now; src := Z.of_nat k |} p)
        = Ok (i, Client n)).
Proof.
  intros Hopen Hs Hne hs.
  assert (HN : 0 < Z.of_nat (length hs))
    by (subst hs; destruct (getHealthyNodes p); [done | cbn [length]; lia]).
  assert (Hrun : forall env, exists i n,
      hs !! Z.to_nat (src env mod Z.of_nat (length hs)) = Some (i, n)
      /\ GetClient env p
         = (Ok (i, Client n),
            set_nodes (<[i := mark_used (now env) n]> (nodes p))
              (set_totalRequests (add64 (totalRequests p) 1) p))).
  { intros env.
    destruct (index_at_ok hs (src env mod Z.of_nat (length hs)))
      as ([i n] & Hat & Hlook); [by apply Z.mod_pos_bound|].
    exists i, n. split; [exact Hlook|].
    assert (Hin : (i, n) ∈ getHealthyNodes p)
      by (apply list_elem_of_lookup; eauto).
    apply getHealthyNodes_elem in Hin as [Hnode _].
    rewrite GetClient_open by exact Hopen. cbn zeta.
    rewrite selectNode_Random by exact Hs. unfold getClientRandom.
    change (getHealthyNodes (set_totalRequests _ p)) with hs.
    rewrite length_eqb_nil. subst hs.
    destruct (getHealthyNodes p) as [|h0 hs0] eqn:Hh; [done|].
    rewrite <- Hh in *. rewrite Intn_positive by exact HN. rewrite Hat.
    cbn [nodes set_totalRequests]. by rewrite Hnode. }
  split.
  - intros env. destruct (Hrun env) as (i & n & Hl & ->).
    exists i, n. by repeat split.
  - intros k i n now Hk.
    destruct (Hrun {| now := now; src := Z.of_nat k |})
      as (j & m & Hl & ->). cbn [src] in Hl.
    rewrite Z.mod_small, Nat2Z.id in Hl
      by (apply lookup_lt_Some in Hk; lia).
    rewrite Hk in Hl. by injection Hl as <- <-.
Qed.

(** Under [Random] on three healthy nodes the draw 5 hands out the
    third. *)
Lemma GetClient_Random_witness :
  fst (GetClient {| now := 1; src := 5 |}
         (poolOf Random [liveNode "amqp://a" 1 0; liveNode "amqp://b" 1 0;
                         liveNode "amqp://c" 1 0]))
  = Ok (2%nat, Some (liveClient "amqp://c" None)).
Proof.
  assert (Hne : getHealthyNodes
                  (poolOf Random [liveNode "amqp://a" 1 0;
                                  liveNode "amqp://b" 1 0;
                                  liveNode "amqp://c" 1 0]) <> [])
    by (vm_compute; discriminate).
  destruct (GetClient_Random
              (poolOf Random [liveNode "amqp://a" 1 0;
                              liveNode "amqp://b" 1 0;
                              liveNode "amqp://c" 1 0])
              eq_refl eq_refl Hne) as [Hdraw _].
  destruct (Hdraw {| now := 1; src := 5 |}) as (i & n & Hl & Hr & _).
  rewrite Hr. vm_compute in Hl. by injection Hl as <- <-.
Defined.

(** * Properties of the single-connection client *)

(** ** Close *)

(** X15: [Client.Close] leaves the client disconnected, without connection
    and channel; it returns no error exactly when neither the channel nor
    the connection failed to close; and a second [Close] returns no error
    and changes nothing. *)
Theorem Client_Close_twice (c : Facade.Client) :
  let c' := snd (Facade.Close c) in
  Facade.IsConnected c' = false
  /\ (Facade.connection c', Facade.channel c', Facade.connected c')
     = (None, None, false)
  /\ Facade.config c' = Facade.config c
  /\ (fst (Facade.Close c) = None <->
      (forall ch, Facade.channel c = Some ch ->
                  Facade.chanCloseErr ch = None)
      /\ (forall conn, Facade.connection c = Some conn ->
                       Facade.connCloseErr conn = None))
  /\ Facade.Close c' = (None, c').
Proof.
  cbn zeta. split; [reflexivity|]. split; [reflexivity|].
  split; [reflexivity|]. split; [|reflexivity].
  unfold Facade.Close. cbn [fst].
  destruct (Facade.channel c) as [[[e|]]|];
    destruct (Facade.connection c) as [[b [e'|]]|]; cbn;
    split; try discriminate; try done.
  all: try (intros [H1 H2]; first [by specialize (H1 _ eq_refl)
                                  | by specialize (H2 _ eq_refl)]).
  all: intros _; split; intros x [= <-]; reflexivity.
Qed.

(** ** Connect *)

Lemma connectLoop_refused (dial : string -> Facade.Attempt)
    (urls : list string) :
  Forall (fun url => refused (dial url)) urls ->
  forall lastErr c,
    Facade.connectLoop dial urls lastErr c
    = (Some ("failed to connect to any RabbitMQ server: "
             ++ fmt_err (from_option Some lastErr
                           (last (omap (fun url => attemptError (dial url))
                                       urls)))), c).
Proof.
  induction 1 as [|url urls [e He] _ IH]; intros lastErr c; [reflexivity|].
  cbn [Facade.connectLoop].
  change (omap (fun url => attemptError (dial url)) (url :: urls))
    with (match attemptError (dial url) with
          | Some y => y :: omap (fun url => attemptError (dial url)) urls
          | None => omap (fun url => attemptError (dial url)) urls
          end).
  rewrite He.
  assert (Hc : Facade.connectToURL (dial url) c = (Some e, c)).
  { unfold attemptError in He. unfold Facade.connectToURL.
    destruct (dial url); by inversion He. }
  rewrite Hc, IH. do 3 f_equal.
  destruct (omap _ urls) as [|y ys] eqn:Ho; [reflexivity|].
  rewrite last_cons_cons.
  destruct (last (y :: ys)) eqn:Hl; [reflexivity|].
  by apply last_None in Hl.
Qed.

(** X16: [Connect] does nothing on a connected client.  On a client that is
    not connected it tries the URLs in their order and stops at the first
    one that answers: the client then holds that connection and channel,
    is connected and has its attempt counter reset, and the later URLs are
    not tried.  If no URL answers, it leaves the client as it is and
    returns an error that carries the error of the last URL, or the text
    of a nil error when there is no URL at all. *)
Theorem Client_Connect_first_answer (dial : string -> Facade.Attempt)
    (c : Facade.Client) :
  Facade.connected c = false ->
  (forall pre url post conn ch,
     Facade.URLs (Facade.config c) = (pre ++ url :: post)%list ->
     Forall (fun u => refused (dial u)) pre ->
     dial url = Facade.Established conn ch ->
     Facade.Connect dial c = (None, established c conn ch))
  /\ (Forall (fun u => refused (dial u)) (Facade.URLs (Facade.config c)) ->
      Facade.Connect dial c
      = (Some ("failed to connect to any RabbitMQ server: "
               ++ fmt_err (last (omap (fun u => attemptError (dial u))
                                      (Facade.URLs (Facade.config c))))),
         c))
  /\ (forall d, Facade.Connect d (established c
                  {| Facade.IsClosed := false; Facade.connCloseErr := None |}
                  {| Facade.chanCloseErr := None |})
                = (None, established c
                     {| Facade.IsClosed := false;
                        Facade.connCloseErr := None |}
                     {| Facade.chanCloseErr := None |})).
Proof.
  intros Hc. split; [|split; [|reflexivity]].
  - intros pre url post conn ch Hu Hpre Hd.
    unfold Facade.Connect. rewrite Hc, Hu.
    enough (Hloop : forall lastErr,
              Facade.connectLoop dial (pre ++ url :: post) lastErr c
              = (None, established c conn ch)) by apply Hloop.
    clear Hu. induction Hpre as [|u pre [e He] _ IH]; intros lastErr.
    + cbn [app Facade.connectLoop]. rewrite Hd. reflexivity.
    + cbn [app Facade.connectLoop].
      assert (Hcu : Facade.connectToURL (dial u) c = (Some e, c)).
      { unfold attemptError in He. unfold Facade.connectToURL.
        destruct (dial u); by inversion He. }
      rewrite Hcu. apply IH.
  - intros Hall. unfold Facade.Connect. rewrite Hc.
    rewrite (connectLoop_refused dial _ Hall None c). do 3 f_equal.
    by destruct (last _).
Qed.

(** Of three URLs only the second answers. *)
Lemma Client_Connect_first_answer_witness :
  Facade.Connect onlyB threeUrlClient
  = (None, established threeUrlClient
             {| Facade.IsClosed := false; Facade.connCloseErr := None |}
             {| Facade.chanCloseErr := None |}).
Proof.
  apply (proj1 (Client_Connect_first_answer onlyB threeUrlClient eq_refl)
           ["amqp://a"] "amqp://b" ["amqp://c"]).
  - reflexivity.
  - constructor; [|constructor]. by eexists.
  - reflexivity.
Defined.

(** ** Reconnection *)

Lemma reconnect_exhausted (dial : string -> Facade.Attempt)
    (c : Facade.Client) :
  Facade.connected c = false ->
  Facade.MaxReconnectAttempt (Facade.config c)
    < add64 (Facade.reconnectAttempts c) 1 ->
  Facade.reconnect dial c
  = ({| Facade.config := Facade.config c;
        Facade.connection := Facade.connection c;
        Facade.channel := Facade.channel c;
        Facade.connected := false;
        Facade.reconnectAttempts := add64 (Facade.reconnectAttempts c) 1;
        Facade.cancelled := Facade.cancelled c |}, []).
Proof.
  intros Hc Hlt. unfold Facade.reconnect. rewrite Hc.
  by destruct (Z.ltb_spec (Facade.MaxReconnectAttempt (Facade.config c))
                 (add64 (Facade.reconnectAttempts c) 1)); [|lia].
Qed.

Lemma reconnect_refused (dial : string -> Facade.Attempt)
    (c : Facade.Client) :
  Facade.connected c = false ->
  add64 (Facade.reconnectAttempts c) 1
    <= Facade.MaxReconnectAttempt (Facade.config c) ->
  Forall (fun u => refused (dial u)) (Facade.URLs (Facade.config c)) ->
  exists closes,
    Facade.reconnect dial c
    = ({| Facade.config := Facade.config c;
          Facade.connection := None;
          Facade.channel := None;
          Facade.connected := false;
          Facade.reconnectAttempts := add64 (Facade.reconnectAttempts c) 1;
          Facade.cancelled := Facade.cancelled c |},
       (closes ++ [Facade.AfterFuncReconnect
                     (Facade.ReconnectInterval (Facade.config c))])%list).
Proof.
  intros Hc Hle Hall. unfold Facade.reconnect. rewrite Hc.
  destruct (Z.ltb_spec (Facade.MaxReconnectAttempt (Facade.config c))
              (add64 (Facade.reconnectAttempts c) 1)); [lia|].
  unfold Facade.Connect. cbn [Facade.connected Facade.config].
  rewrite (connectLoop_refused dial _ Hall). by eexists.
Qed.

Lemma armsTimer_app (closes : list Facade.ClientEffect) (d : Z) :
  armsTimer (closes ++ [Facade.AfterFuncReconnect d]) = true.
Proof.
  unfold armsTimer. rewrite existsb_app. cbn. apply orb_true_r.
Qed.

(** X17: The retries of a client are bounded.  Against a broker that refuses
    every URL, the chain of [reconnect] calls that the timer drives arms
    the timer once per attempt that [MaxReconnectAttempt] still allows and
    then stops: the client stays disconnected, no timer is pending, and
    the attempt counter is one past the limit.  From then on [reconnect]
    does nothing but count, also when the broker is back. *)
Theorem reconnect_gives_up (dial : string -> Facade.Attempt)
    (c : Facade.Client) (fuel : nat) :
  Facade.connected c = false ->
  Forall (fun u => refused (dial u)) (Facade.URLs (Facade.config c)) ->
  0 <= Facade.reconnectAttempts c < MaxInt64 - 1 ->
  Facade.MaxReconnectAttempt (Facade.config c) < MaxInt64 - 1 ->
  (Z.to_nat (Facade.MaxReconnectAttempt (Facade.config c)
             - Facade.reconnectAttempts c) < fuel)%nat ->
  let c' := fst (fst (reconnectChain fuel dial c)) in
  reconnectChain fuel dial c
  = (c', Z.to_nat (Facade.MaxReconnectAttempt (Facade.config c)
                   - Facade.reconnectAttempts c), false)
  /\ Facade.connected c' = false
  /\ Facade.config c' = Facade.config c
  /\ Facade.reconnectAttempts c'
     = Z.max (Facade.reconnectAttempts c)
             (Facade.MaxReconnectAttempt (Facade.config c)) + 1
  /\ (forall d, snd (Facade.reconnect d c') = []
                /\ Facade.connected (fst (Facade.reconnect d c')) = false).
Proof.
  revert c. induction fuel as [|fuel IH]; intros c Hc Hall Ha HM Hfuel;
    [lia|].
  cbn zeta. cbn [reconnectChain].
  assert (Hadd : add64 (Facade.reconnectAttempts c) 1
                 = Facade.reconnectAttempts c + 1).
  { apply wrap64_small. unfold MinInt64, MaxInt64 in *. lia. }
  destruct (Z_lt_le_dec (Facade.MaxReconnectAttempt (Facade.config c))
              (Facade.reconnectAttempts c + 1)) as [Hlt|Hle].
  - rewrite reconnect_exhausted by (try rewrite Hadd; done).
    cbn [armsTimer existsb fst snd Facade.connected Facade.config
         Facade.reconnectAttempts].
    replace (Z.to_nat _) with 0%nat by lia.
    split; [reflexivity|]. split; [reflexivity|]. split; [reflexivity|].
    split; [rewrite Hadd; lia|].
    intros d. rewrite reconnect_exhausted; [done | done |].
    cbn [Facade.config Facade.reconnectAttempts]. rewrite Hadd.
    unfold add64. rewrite wrap64_small; [lia|].
    unfold MinInt64, MaxInt64 in *. lia.
  - destruct (reconnect_refused dial c Hc ltac:(rewrite Hadd; lia) Hall)
      as [closes ->].
    rewrite armsTimer_app.
    set (c1 := {| Facade.config := Facade.config c;
                  Facade.connection := None; Facade.channel := None;
                  Facade.connected := false;
                  Facade.reconnectAttempts :=
                    add64 (Facade.reconnectAttempts c) 1;
                  Facade.cancelled := Facade.cancelled c |}).
    assert (Ha1 : Facade.reconnectAttempts c1
                  = Facade.reconnectAttempts c + 1) by exact Hadd.
    destruct (IH c1 eq_refl Hall) as (Hrun & Hcon & Hcfg & Hatt & Hfinal).
    { rewrite Ha1. lia. }
    { exact HM. }
    { change (Facade.config c1) with (Facade.config c). rewrite Ha1. lia. }
    cbn zeta in Hrun, Hcon, Hcfg, Hatt, Hfinal. rewrite Hrun.
    cbn [fst snd].
    change (Facade.config c1) with (Facade.config c) in *.
    rewrite Ha1 in *.
    split; [|split; [exact Hcon|split; [exact Hcfg|split; [|exact Hfinal]]]].
    + do 2 f_equal. lia.
    + rewrite Hatt. lia.
Qed.

(** A client with a limit of 3 attempts against a broker that refuses. *)
Lemma reconnect_gives_up_witness :
  reconnectChain 10 refusedDial threeUrlClient
  = (fst (fst (reconnectChain 10 refusedDial threeUrlClient)), 3%nat, false)
  /\ Facade.reconnectAttempts
       (fst (fst (reconnectChain 10 refusedDial threeUrlClient))) = 4
  /\ snd (Facade.reconnect acceptingDial
            (fst (fst (reconnectChain 10 refusedDial threeUrlClient)))) = [].
Proof.
  destruct (reconnect_gives_up refusedDial threeUrlClient 10 eq_refl)
    as (Hrun & _ & _ & Hatt & Hfinal).
  - repeat constructor; by eexists.
  - cbn. unfold MaxInt64. lia.
  - cbn. unfold MaxInt64. lia.
  - cbn. lia.
  - split; [exact Hrun|]. split; [exact Hatt|]. apply Hfinal.
Defined.

(** X18: After a connection error the client reconnects by itself: the worker
    marks it disconnected and starts [reconnect], which, while attempts
    are left and the first URL answers, closes the old connection and
    channel, installs the new ones, resets the attempt counter and starts
    a worker for the new connection. *)
Theorem reconnectWorker_reconnects (dial : string -> Facade.Attempt)
    (c : Facade.Client) (e : error) (url : string) (rest : list string)
    (conn : Facade.Connection) (ch : Facade.Channel) :
  Facade.URLs (Facade.config c) = url :: rest ->
  dial url = Facade.Established conn ch ->
  0 <= Facade.reconnectAttempts c
    < Facade.MaxReconnectAttempt (Facade.config c) ->
  Facade.MaxReconnectAttempt (Facade.config c) <= MaxInt64 ->
  let step := Facade.reconnectWorker
                (Facade.connectionErrorEvent (Some e)) c in
  let c1 := fst (fst step) in
  step = (c1, [Facade.GoReconnect], true)
  /\ Facade.IsConnected c1 = false
  /\ Facade.reconnect dial c1
     = (established c conn ch,
        (match Facade.connection c with
         | Some old => [Facade.CloseConnection old]
         | None => []
         end ++
         match Facade.channel c with
         | Some old => [Facade.CloseChannel old]
         | None => []
         end ++ [Facade.GoReconnectWorker])%list)
  /\ Facade.IsConnected (established c conn ch)
     = negb (Facade.IsClosed conn)
  /\ Facade.reconnectWorker (Facade.channelErrorEvent (Some e)) c = step
  /\ Facade.reconnectWorker (Facade.connectionErrorEvent None) c
     = (c, [], true).
Proof.
  intros Hu Hd Ha HM. cbn zeta. cbn [Facade.reconnectWorker
    Facade.handleDisconnection fst snd].
  split; [reflexivity|]. split; [reflexivity|].
  split; [|by repeat split].
  unfold Facade.reconnect.
  cbn [Facade.connected Facade.config Facade.reconnectAttempts
       Facade.connection Facade.channel Facade.cancelled].
  assert (Hadd : add64 (Facade.reconnectAttempts c) 1
                 = Facade.reconnectAttempts c + 1).
  { apply wrap64_small. unfold MinInt64, MaxInt64 in *. lia. }
  rewrite Hadd.
  destruct (Z.ltb_spec (Facade.MaxReconnectAttempt (Facade.config c))
              (Facade.reconnectAttempts c + 1)); [lia|].
  unfold Facade.Connect.
  cbn [Facade.connected Facade.config]. rewrite Hu.
  cbn [Facade.connectLoop]. rewrite Hd.
  cbn [Facade.connectToURL Facade.config Facade.cancelled].
  unfold established. by rewrite <- app_assoc.
Qed.

(** A connected client whose broker restarts. *)
Lemma reconnectWorker_reconnects_witness :
  Facade.IsConnected
    (fst (Facade.reconnect acceptingDial
            (fst (fst (Facade.reconnectWorker
                         (Facade.connectionErrorEvent (Some "EOF"))
                         (droppedClient "amqp://a"))))))
  = true.
Proof.
  destruct (reconnectWorker_reconnects acceptingDial
              (droppedClient "amqp://a") "EOF" "amqp://a" []
              {| Facade.IsClosed := false; Facade.connCloseErr := None |}
              {| Facade.chanCloseErr := None |} eq_refl eq_refl)
    as (_ & _ & Hre & Hcon & _).
  - cbn. lia.
  - cbn. unfold MaxInt64. lia.
  - exact (eq_trans
             (f_equal (fun r => Facade.IsConnected (fst r)) Hre) Hcon).
Defined.

(** ** GetConnection *)

(** X19: [GetConnection] never hands out the connection: whenever the client
    holds a connection object it returns "client is not connected", the
    test of the field being inverted; so it fails for every client for
    which [IsConnected] is true. *)
Theorem GetConnection_never_returns (c : Facade.Client) :
  (forall conn, Facade.GetConnection c <> Ok conn)
  /\ (is_Some (Facade.connection c) ->
      Facade.GetConnection c = Err "client is not connected")
  /\ (Facade.IsConnected c = true ->
      Facade.GetConnection c = Err "client is not connected")
  /\ (Facade.connected c = false ->
      Facade.GetConnection c = Err "client is not connected").
Proof.
  unfold Facade.GetConnection, Facade.IsConnected.
  destruct (Facade.connected c), (Facade.connection c) as [k|]; cbn;
    repeat split; done.
Qed.

(** ** Balance under [LeastUsed] *)

Lemma GetClient_LeastUsed_step (env : Env) (p : Pool) :
  closed p = false ->
  LoadBalanceStrategy_ (config p) = LeastUsed ->
  match fst (GetClient env p) with
  | Ok (i, _) =>
      exists n, (i, n) ∈ getHealthyNodes p
                /\ totalUsed n < MaxInt64
                /\ (forall h, h ∈ getHealthyNodes p ->
                      totalUsed n <= totalUsed h.2)
                /\ nodes (snd (GetClient env p))
                   = <[i := mark_used (now env) n]> (nodes p)
  | _ => nodes (snd (GetClient env p)) = nodes p
  end.
Proof.
  intros Hopen Hs. rewrite GetClient_open by exact Hopen. cbn zeta.
  rewrite selectNode_LeastUsed by exact Hs.
  unfold getClientLeastUsed.
  change (getHealthyNodes (set_totalRequests _ p)) with (getHealthyNodes p).
  rewrite length_eqb_nil.
  destruct (getHealthyNodes p) as [|h0 hs0] eqn:Hh; [reflexivity|].
  rewrite <- Hh.
  destruct (leastUsedLoop_spec (getHealthyNodes p) MaxInt64 None)
    as [[_ ->] | (k & i & n & Hk & -> & Hlt & Hmin & _)]; [reflexivity|].
  assert (Hin : (i, n) ∈ getHealthyNodes p)
    by (apply list_elem_of_lookup; eauto).
  pose proof (proj1 (getHealthyNodes_elem p i n) Hin) as [Hnode _].
  cbn [nodes set_totalRequests]. rewrite Hnode. cbn [fst snd nodes set_nodes].
  exists n. split; [exact Hin|]. split; [exact Hlt|]. split; [|reflexivity].
  intros h Hh'. apply list_elem_of_lookup in Hh' as [k' Hk'].
  exact (Hmin k' h Hk').
Qed.

Lemma getHealthyNodes_mark_used (p q : Pool) (t : Z) (i : nat)
    (n : NodeConnection) :
  nodes p !! i = Some n ->
  nodes q = <[i := mark_used t n]> (nodes p) ->
  forall j m,
    (j, m) ∈ getHealthyNodes q
    <-> (j = i /\ m = mark_used t n /\ (i, n) ∈ getHealthyNodes p)
        \/ (j <> i /\ (j, m) ∈ getHealthyNodes p).
Proof.
  intros Hi Hq j m. rewrite !getHealthyNodes_elem, Hq.
  assert (Hlen : (i < length (nodes p))%nat)
    by (apply lookup_lt_is_Some; eauto).
  destruct (decide (j = i)) as [->|Hne].
  - rewrite list_lookup_insert_eq by exact Hlen. split.
    + intros [[= <-] Hh]. left. by repeat split.
    + intros [(_ & -> & _ & Hh) | [Hne _]]; [|done]. by split.
  - rewrite list_lookup_insert_ne by done. split.
    + intros H. right. by split.
    + by intros [(Heq & _) | [_ H]].
Qed.

Lemma GetClient_LeastUsed_keeps_spread (env : Env) (p : Pool) (d : Z) :
  closed p = false ->
  LoadBalanceStrategy_ (config p) = LeastUsed ->
  1 <= d ->
  Forall (fun h => MinInt64 <= totalUsed h.2) (getHealthyNodes p) ->
  spreadAtMost d (getHealthyNodes p) ->
  let q := snd (GetClient env p) in
  (getHealthyNodes q).*1 = (getHealthyNodes p).*1
  /\ Forall (fun h => MinInt64 <= totalUsed h.2) (getHealthyNodes q)
  /\ spreadAtMost d (getHealthyNodes q).
Proof.
  intros Hopen Hs Hd Hlow Hspread. cbn zeta.
  pose proof (GetClient_LeastUsed_step env p Hopen Hs) as Hstep.
  destruct (fst (GetClient env p)) as [[i c] | e | msg].
  2,3: by (unfold getHealthyNodes; rewrite Hstep).
  destruct Hstep as (n & Hin & Hlt & Hmin & Hq).
  pose proof (proj1 (getHealthyNodes_elem p i n) Hin) as [Hnode Hh].
  pose proof (getHealthyNodes_mark_used p _ (now env) i n Hnode Hq) as Hel.
  rewrite Forall_forall in Hlow.
  assert (Hup : totalUsed (mark_used (now env) n) = totalUsed n + 1).
  { cbn [totalUsed mark_used]. apply wrap64_small.
    specialize (Hlow _ Hin). cbn in Hlow. unfold MinInt64, MaxInt64 in *.
    lia. }
  split; [|split].
  - unfold getHealthyNodes. rewrite Hq.
    by apply (healthyFrom_insert 0 (nodes p) i n).
  - rewrite Forall_forall. intros [j m] Hjm.
    apply Hel in Hjm as [(-> & -> & _) | [_ Hjm]].
    + cbn [snd]. rewrite Hup. specialize (Hlow _ Hin). cbn in Hlow. lia.
    + exact (Hlow _ Hjm).
  - intros [j1 m1] [j2 m2] H1 H2. cbn [snd].
    apply Hel in H1 as [(-> & -> & _) | [_ H1]];
      apply Hel in H2 as [(-> & -> & _) | [_ H2]].
    + lia.
    + rewrite Hup. specialize (Hmin _ H2). cbn in Hmin. lia.
    + rewrite Hup. specialize (Hspread _ _ H1 Hin). cbn in Hspread. lia.
    + exact (Hspread _ _ H1 H2).
Qed.

(** X20: [LeastUsed] keeps the load balanced.  On an open pool whose healthy
    nodes have usage counts at most [d] apart, with [d] at least 1, serial
    calls of [GetClient] leave the healthy set the same nodes and their
    usage counts at most [d] apart, however many calls are made: a pool
    that starts balanced, all counts equal, never has two healthy nodes
    whose counts differ by more than one. *)
Theorem GetClient_LeastUsed_balanced (envs : list Env) (p : Pool) (d : Z) :
  closed p = false ->
  LoadBalanceStrategy_ (config p) = LeastUsed ->
  1 <= d ->
  Forall (fun h => MinInt64 <= totalUsed h.2) (getHealthyNodes p) ->
  spreadAtMost d (getHealthyNodes p) ->
  (getHealthyNodes (snd (serial envs p))).*1 = (getHealthyNodes p).*1
  /\ spreadAtMost d (getHealthyNodes (snd (serial envs p))).
Proof.
  revert p. induction envs as [|env envs IH];
    intros p Hopen Hs Hd Hlow Hspread; [done|].
  rewrite serial_cons. cbn [snd].
  pose proof (GetClient_effect env p) as (_ & Hc & Hcfg & _).
  cbn zeta in Hc, Hcfg.
  destruct (GetClient_LeastUsed_keeps_spread env p d Hopen Hs Hd Hlow Hspread)
    as (Hidx & Hlow' & Hspread').
  destruct (IH (snd (GetClient env p))) as [Hidx' Hfinal];
    [congruence | congruence | exact Hd | exact Hlow' | exact Hspread' |].
  split; [congruence | exact Hfinal].
Qed.

(** Three healthy nodes used twice each, and four calls. *)
Lemma GetClient_LeastUsed_balanced_witness :
  spreadAtMost 1
    (getHealthyNodes
       (snd (serial [{| now := 1; src := 0 |}; {| now := 2; src := 0 |};
                     {| now := 3; src := 0 |}; {| now := 4; src := 0 |}]
               (poolOf LeastUsed [liveNode "amqp://a" 1 2;
                                  liveNode "amqp://b" 1 2;
                                  liveNode "amqp://c" 1 2])))).
Proof.
  apply (GetClient_LeastUsed_balanced _
           (poolOf LeastUsed [liveNode "amqp://a" 1 2;
                              liveNode "amqp://b" 1 2;
                              liveNode "amqp://c" 1 2]) 1).
  - reflexivity.
  - reflexivity.
  - lia.
  - repeat constructor; by vm_compute.
  - intros x y Hx Hy.
    apply list_elem_of_In in Hx, Hy. cbn in Hx, Hy.
    destruct Hx as [<- | [<- | [<- | []]]];
      destruct Hy as [<- | [<- | [<- | []]]]; cbn; lia.
Defined.
